(** * QuizGame: a shallow embedding of [QuizGame.cpp] and its properties.

    The quiz is a console program: it polls the keyboard and the clock,
    reads lines from standard input, draws pseudo-random numbers, reads a
    question file and keeps a high-score file, a session log and a progress
    file.  Everything the program reads from its environment is an oracle
    inside a [World]; everything it writes ends up in the same record.  The
    C++ functions become functions over [World], with the local variables of
    [startQuiz] collected in the record [Quiz].  Loops that wait for the
    player or the clock take a [fuel]; running out of it stands for the
    process being killed at that point. *)

From Stdlib Require Import ZArith List Ascii String Bool Lia.
From stdpp Require Import base list gmap strings.
Import ListNotations.

Local Open Scope Z_scope.

(** ** Machine integers *)

(** [int] is 32 bits wide, [time_t] and [long long] are 64 bits wide. *)
Definition INT_MIN : Z := - 2 ^ 31.
Definition INT_MAX : Z := 2 ^ 31 - 1.

Definition wrap (bits : Z) (z : Z) : Z :=
  (z + 2 ^ (bits - 1)) mod 2 ^ bits - 2 ^ (bits - 1).

Definition to_int (z : Z) : Z := wrap 32 z.
Definition to_time_t (z : Z) : Z := wrap 64 z.

Definition int_add (a b : Z) : Z := to_int (a + b).
Definition int_sub (a b : Z) : Z := to_int (a - b).
Definition time_add (a b : Z) : Z := to_time_t (a + b).
Definition time_sub (a b : Z) : Z := to_time_t (a - b).

Definition in_int_range (z : Z) : bool := (INT_MIN <=? z) && (z <=? INT_MAX).

(** ** Strings *)

(** A [std::string] is the list of its bytes. *)
Abbreviation str := (list ascii).

Definition lit (s : string) : str := list_ascii_of_string s.

Definition NL : ascii := ascii_of_nat 10.
Definition BAR : ascii := "|"%char.
Definition SPACE : ascii := " "%char.

Definition code (c : ascii) : Z := Z.of_N (N_of_ascii c).

Definition ascii_eqb (a b : ascii) : bool := Ascii.eqb a b.

Definition is_digit (c : ascii) : bool := (48 <=? code c) && (code c <=? 57).

(** [isspace] of the C locale. *)
Definition is_space (c : ascii) : bool :=
  (code c =? 32) || ((9 <=? code c) && (code c <=? 13)).

Definition digit_char (d : Z) : ascii := ascii_of_N (Z.to_N (48 + d)).
Definition digit_val (c : ascii) : Z := code c - 48.

(** [operator<<] on an integer: decimal digits, most significant first, with a
    leading minus sign for a negative value.  The digits are produced from the
    least significant one; [fuel] bounds their number. *)
Fixpoint to_digits (fuel : nat) (n : Z) (acc : str) : str :=
  match fuel with
  | O => acc
  | S f =>
      let acc' := digit_char (n mod 10) :: acc in
      if n <? 10 then acc' else to_digits f (n / 10) acc'
  end.

Definition print_nat (n : Z) : str := to_digits (S (Z.to_nat (Z.log2 n))) n [].

Definition print_int (z : Z) : str :=
  if z <? 0 then "-"%char :: print_nat (- z) else print_nat z.

(** The conversion shared by [stoi] and [sscanf("%d")]: skip white space,
    read an optional sign, then the longest run of digits; fail when there is
    no digit.  The function returns the value and the unread rest. *)
Fixpoint skip_spaces (s : str) : str :=
  match s with
  | c :: s' => if is_space c then skip_spaces s' else s
  | [] => []
  end.

Fixpoint scan_digits (acc : Z) (s : str) : Z * str :=
  match s with
  | c :: s' => if is_digit c then scan_digits (acc * 10 + digit_val c) s' else (acc, s)
  | [] => (acc, [])
  end.

Definition scan_sign (s : str) : bool * str :=
  match s with
  | c :: s' =>
      if ascii_eqb c "-"%char then (true, s')
      else if ascii_eqb c "+"%char then (false, s')
      else (false, s)
  | [] => (false, [])
  end.

Definition scan_int (s : str) : option (Z * str) :=
  let '(neg, s2) := scan_sign (skip_spaces s) in
  match s2 with
  | c :: _ =>
      if is_digit c then
        let '(v, rest) := scan_digits 0 s2 in
        Some (if neg then - v else v, rest)
      else None
  | [] => None
  end.

(** [std::stoi]: [None] stands for a thrown [invalid_argument] or
    [out_of_range]. *)
Definition stoi (s : str) : option Z :=
  match scan_int s with
  | Some (v, _) => if in_int_range v then Some v else None
  | None => None
  end.

(** [std::getline] on the unread part of a stream: [None] at the end of the
    stream, otherwise the characters before the next newline and what follows
    it. *)
Fixpoint read_line (s : str) : str * str :=
  match s with
  | [] => ([], [])
  | c :: s' =>
      if ascii_eqb c NL then ([], s')
      else let '(l, r) := read_line s' in (c :: l, r)
  end.

Definition getline (s : str) : option (str * str) :=
  match s with
  | [] => None
  | _ => Some (read_line s)
  end.

(** [s.find(c, pos)]: [None] is [npos]. *)
Fixpoint find_from (c : ascii) (pos : nat) (s : str) : option nat :=
  match s with
  | [] => None
  | x :: s' =>
      match pos with
      | O => if ascii_eqb x c then Some O else S <$> find_from c O s'
      | S p => S <$> find_from c p s'
      end
  end.

(** [s.substr(pos, len)] and [s.substr(pos)], for [pos] within the string. *)
Definition substr (s : str) (pos len : nat) : str := take len (drop pos s).
Definition substr_from (s : str) (pos : nat) : str := drop pos s.

(** ** The environment *)

(** What one call of [getNonBlockingKey] finds in the console buffer. *)
Inductive kbd_event :=
| NoKey
| KeyCode (ch : ascii).

Record World := mkWorld {
  clock : nat -> Z;            (* the value returned by the n-th call of time() *)
  ticks : nat;                 (* calls of time() so far *)
  keyboard : nat -> kbd_event; (* what the n-th keyboard poll finds *)
  polls : nat;                 (* keyboard polls so far *)
  rand_src : nat -> N;         (* the n-th draw of rand() *)
  draws : nat;                 (* calls of rand() so far *)
  stdin : list str;            (* the unread lines of cin *)
  console : list str;          (* the chunks written to cout, oldest first *)
  files : gmap string str;     (* the files of the working directory *)
  ctime_fmt : Z -> option str  (* ctime_s: None when the conversion fails *)
}.

Definition RAND_MAX : Z := 32767.

Definition set_ticks (w : World) (n : nat) : World :=
  mkWorld (clock w) n (keyboard w) (polls w) (rand_src w) (draws w)
          (stdin w) (console w) (files w) (ctime_fmt w).
Definition set_polls (w : World) (n : nat) : World :=
  mkWorld (clock w) (ticks w) (keyboard w) n (rand_src w) (draws w)
          (stdin w) (console w) (files w) (ctime_fmt w).
Definition set_draws (w : World) (n : nat) : World :=
  mkWorld (clock w) (ticks w) (keyboard w) (polls w) (rand_src w) n
          (stdin w) (console w) (files w) (ctime_fmt w).
Definition set_stdin (w : World) (l : list str) : World :=
  mkWorld (clock w) (ticks w) (keyboard w) (polls w) (rand_src w) (draws w)
          l (console w) (files w) (ctime_fmt w).
Definition set_console (w : World) (l : list str) : World :=
  mkWorld (clock w) (ticks w) (keyboard w) (polls w) (rand_src w) (draws w)
          (stdin w) l (files w) (ctime_fmt w).
Definition set_files (w : World) (f : gmap string str) : World :=
  mkWorld (clock w) (ticks w) (keyboard w) (polls w) (rand_src w) (draws w)
          (stdin w) (console w) f (ctime_fmt w).

(** [time(NULL)] *)
Definition time_now (w : World) : Z * World :=
  (clock w (ticks w), set_ticks w (S (ticks w))).

(** [rand()] *)
Definition rand (w : World) : Z * World :=
  (Z.of_N (rand_src w (draws w)) mod (RAND_MAX + 1), set_draws w (S (draws w))).

(** [cout << s] *)
Definition print (s : str) (w : World) : World :=
  set_console w (console w ++ [s]).

(** [cin.ignore(numeric_limits<streamsize>::max(), '\n')] *)
Definition cin_ignore (w : World) : World := set_stdin w (tail (stdin w)).

(** [getline(cin, s)]: at the end of the input [s] is left empty. *)
Definition cin_getline (w : World) : str * World :=
  match stdin w with
  | [] => ([], w)
  | l :: rest => (l, set_stdin w rest)
  end.

(** ** Data *)

Definition MAX_OPTIONS : Z := 4.
Definition MAX_QUESTIONS : Z := 500.
Definition MAX_QUIZ_QUESTIONS : nat := 50.
Definition DEFAULT_TIME_PER_QUESTION : Z := 10.
Definition EXTRA_TIME_AMOUNT : Z := 10.

Record Question := mkQuestion {
  text : str;
  options : list str;
  correctIndex : Z;
  originalCorrectIndex : Z;
  difficulty : Z
}.

Record QuizResult := mkQuizResult {
  playerName : str;
  r_score : Z;
  r_correct : Z;
  r_wrong : Z;
  timestamp : Z;
  questionIndices : list Z;
  answers : list Z;
  qCount : nat;
  remainingSecondsForCurrent : Z
}.

Record ScoreEntry := mkScoreEntry {
  name : str;
  e_score : Z;
  datetime : str
}.

(** ** Shuffling *)

(** [arr[i]]; the arrays of the program are only read inside their bounds. *)
Definition at_index {A} (d : A) (l : list A) (i : Z) : A :=
  nth (Z.to_nat i) l d.

Definition swap (arr : list Z) (i j : nat) : list Z :=
  let tmp := nth i arr 0 in
  <[j := tmp]> (<[i := nth j arr 0]> arr).

(** The loop of [shuffleIntArray], entered with [i = k]. *)
Fixpoint shuffle_from (k : nat) (arr : list Z) (w : World) : list Z * World :=
  match k with
  | O => (arr, w)
  | S k' =>
      let '(r, w1) := rand w in
      let j := Z.to_nat (r mod (Z.of_nat k + 1)) in
      shuffle_from k' (swap arr k j) w1
  end.

Definition shuffleIntArray (arr : list Z) (n : nat) (w : World) : list Z * World :=
  shuffle_from (n - 1) arr w.

(** The loop of [shuffleOptions] that finds where the correct option went. *)
Fixpoint find_new_correct (idx : list Z) (i : Z) (orig : Z) (newCorrect : Z) : Z :=
  match idx with
  | [] => newCorrect
  | x :: idx' =>
      find_new_correct idx' (i + 1) orig (if x =? orig then i else newCorrect)
  end.

Definition shuffleOptions (q : Question) (w : World) : Question * World :=
  let '(idx, w1) := shuffleIntArray [0; 1; 2; 3] 4 w in
  let newOpts := map (fun k => at_index [] (options q) k) idx in
  let newCorrect := find_new_correct idx 0 (originalCorrectIndex q) 0 in
  (mkQuestion (text q) newOpts newCorrect (originalCorrectIndex q) (difficulty q), w1).

(** [apply5050] writes the first two cells of [visibleOptions] and sets
    [visibleCount].  The array [wrongs] has three cells, which is enough when
    [correctIndex] is one of the four slots. *)
Definition apply5050 (q : Question) (visibleOptions : list Z) (w : World)
  : list Z * Z * World :=
  let wrongs := filter (fun i => i <> correctIndex q) [0; 1; 2; 3] in
  let wcount := length wrongs in
  let '(wrongs', w1) := shuffleIntArray wrongs wcount w in
  let v0 := correctIndex q in
  let v1 := at_index 0 wrongs' 0 in
  let vis := <[1%nat := v1]> (<[0%nat := v0]> visibleOptions) in
  (if v1 <? v0 then <[1%nat := v0]> (<[0%nat := v1]> vis) else vis, 2, w1).

(** The test of [displayQuestionWithVisibleOptions]: is option [i] shown? *)
Definition is_visible (visibleOptions : list Z) (visibleCount : Z) (i : Z) : bool :=
  existsb (Z.eqb i) (take (Z.to_nat visibleCount) visibleOptions).

(** ** The high-score file *)

(** Opening a file for writing is taken to succeed; [ios::app] creates the
    file when it does not exist. *)
Definition file_append (fn : string) (s : str) (w : World) : World :=
  set_files w (<[fn := default [] (files w !! fn) ++ s]> (files w)).

Definition file_write (fn : string) (s : str) (w : World) : World :=
  set_files w (<[fn := s]> (files w)).

Definition format_entry (entry : ScoreEntry) : str :=
  name entry ++ lit "|" ++ print_int (e_score entry) ++ lit "|"
    ++ datetime entry ++ [NL].

Definition writeHighScore (fn : string) (entry : ScoreEntry) (w : World) : World :=
  file_append fn (format_entry entry) w.

(** The body of the reading loop for one non-empty line: [None] when the line
    has fewer than two bars and is skipped. *)
Definition parse_score_line (line : str) : option ScoreEntry :=
  match find_from BAR 0 line with
  | None => None
  | Some p1 =>
      match find_from BAR (p1 + 1) line with
      | None => None
      | Some p2 =>
          let sc := substr line (p1 + 1) (p2 - p1 - 1) in
          Some (mkScoreEntry (substr line 0 p1)
                             (default 0 (stoi sc))
                             (substr_from line (p2 + 1)))
      end
  end.

(** The loop of [readHighScores]; [out] holds [outScores[0 .. outCount)].
    Every turn consumes at least one character of [s], so a [fuel] above its
    length is never exhausted. *)
Fixpoint read_scores_loop (fuel : nat) (s : str) (out : list ScoreEntry)
  : list ScoreEntry :=
  match fuel with
  | O => out
  | S f =>
      match getline s with
      | None => out
      | Some (line, rest) =>
          match line with
          | [] => read_scores_loop f rest out
          | _ =>
              match parse_score_line line with
              | None => read_scores_loop f rest out
              | Some e =>
                  read_scores_loop f rest
                    (if (length out <? MAX_QUIZ_QUESTIONS)%nat then out ++ [e] else out)
              end
          end
      end
  end.

Definition readHighScores (fn : string) (w : World) : list ScoreEntry :=
  match files w !! fn with
  | None => []
  | Some s => read_scores_loop (S (length s)) s []
  end.

(** [n] calls of [writeHighScore], one per entry, in the order of the list. *)
Definition write_all (fn : string) (entries : list ScoreEntry) (w : World) : World :=
  foldl (fun w e => writeHighScore fn e w) w entries.

(** ** Console input *)

(** [getIntInRange]: one line of [cin] per turn, until a line holds a number
    of the range.  At the end of the input [getline] leaves [s] empty, [stoi]
    throws and the loop never ends: the result is [None]. *)
Fixpoint getIntInRange_from (lines : list str) (minv maxv : Z) (w : World)
  : option Z * World :=
  match lines with
  | [] => (None, set_stdin w [])
  | s :: rest =>
      let w1 := set_stdin w rest in
      let retry :=
        getIntInRange_from rest minv maxv
          (print (lit "Please enter a number between " ++ print_int minv
                    ++ lit " and " ++ print_int maxv ++ lit ": ") w1) in
      match stoi s with
      | Some v => if (minv <=? v) && (v <=? maxv) then (Some v, w1) else retry
      | None => retry
      end
  end.

Definition getIntInRange (minv maxv : Z) (w : World) : option Z * World :=
  getIntInRange_from (stdin w) minv maxv w.

(** [getNonBlockingKey]: the codes 0 and 224 announce an extended key, whose
    second code is read and dropped.  The result is compared as a [char]; for
    the keys that the quiz recognises the sign of [char] plays no part. *)
Definition NUL : ascii := ascii_of_nat 0.

Definition getNonBlockingKey (w : World) : ascii * World :=
  let w' := set_polls w (S (polls w)) in
  match keyboard w (polls w) with
  | NoKey => (NUL, w')
  | KeyCode ch =>
      if (code ch =? 0) || (code ch =? 224) then (NUL, w') else (ch, w')
  end.

Definition showRemainingSecondsLine (rem : Z) (w : World) : World :=
  print ([ascii_of_nat 13] ++ lit "Time Remaining: "
           ++ (if rem <? 10 then lit "0" else []) ++ print_int rem ++ lit "s  ") w.

(** [nowString] *)
Definition nowString (w : World) : str * World :=
  let '(t, w1) := time_now w in
  match ctime_fmt w1 t with
  | Some s =>
      (match last s with
       | Some c => if ascii_eqb c NL then removelast s else s
       | None => s
       end, w1)
  | None => ([], w1)
  end.

(** ** The progress file *)

Definition print_ints (l : list Z) : str :=
  concat (map (fun a => print_int a ++ lit " ") l).

Definition progress_text (r : QuizResult) : str :=
  playerName r ++ [NL]
  ++ print_int (r_score r) ++ lit " " ++ print_int (r_correct r) ++ lit " "
  ++ print_int (r_wrong r) ++ lit " " ++ print_int (timestamp r) ++ [NL]
  ++ print_ints (take (qCount r) (answers r)) ++ [NL]
  ++ print_ints (take (qCount r) (questionIndices r)) ++ [NL]
  ++ print_int (remainingSecondsForCurrent r) ++ [NL].

Definition saveProgress (fn : string) (r : QuizResult) (w : World) : World :=
  file_write fn (progress_text r) w.

(** The conversions of [sscanf] read a number of any length.  The C library
    converts it with [strtol] and [strtoll], which keep a number that does not
    fit into 64 bits at the nearest end of that range; [%d] then stores the
    low 32 bits, and [%lld] the value. *)
Definition saturate64 (z : Z) : Z := Z.max (- 2 ^ 63) (Z.min (2 ^ 63 - 1) z).
Definition scanf_d (z : Z) : Z := to_int (saturate64 z).
Definition scanf_lld (z : Z) : Z := saturate64 z.

(** [sscanf(line, "%d %d %d %lld", ...)]: the four values when all four
    conversions succeed. *)
Definition scan4 (line : str) : option (Z * Z * Z * Z) :=
  match scan_int line with
  | Some (a, r1) =>
      match scan_int r1 with
      | Some (b, r2) =>
          match scan_int r2 with
          | Some (c, r3) =>
              match scan_int r3 with
              | Some (d, _) => Some (scanf_d a, scanf_d b, scanf_d c, scanf_lld d)
              | None => None
              end
          | None => None
          end
      | None => None
      end
  | None => None
  end.

(** The loop that advances [sp] to the next blank, or to the end of the line. *)
Fixpoint skip_to_blank (sp : str) : str :=
  match sp with
  | [] => []
  | c :: sp' => if ascii_eqb c SPACE then sp else skip_to_blank sp'
  end.

(** The two loops of [loadProgress] that read a line of numbers into an
    array: [sscanf(p, "%d", &val)], then [p] moves behind the next blank. *)
Fixpoint scan_numbers (fuel : nat) (p : str) (arr : list Z) (count : nat)
  : list Z * nat :=
  match fuel with
  | O => (arr, count)
  | S f =>
      match scan_int p with
      | None => (arr, count)
      | Some (val, _) =>
          let '(arr', count') :=
            if (count <? MAX_QUIZ_QUESTIONS)%nat
            then (<[count := scanf_d val]> arr, S count) else (arr, count) in
          match skip_to_blank p with
          | [] => (arr', count')
          | _ :: p' => scan_numbers f p' arr' count'
          end
      end
  end.

(** [loadProgress] fills the object [r] of its caller; [None] is [false]. *)
Definition loadProgress (fn : string) (r : QuizResult) (w : World)
  : option QuizResult :=
  match files w !! fn with
  | None => None
  | Some fin =>
      match getline fin with
      | None => None
      | Some (pname, fin1) =>
          match getline fin1 with
          | None => None
          | Some (line, fin2) =>
              match scan4 line with
              | None => None
              | Some (sc, cr, wr, ts) =>
                  match getline fin2 with
                  | None => None
                  | Some (line3, fin3) =>
                      let '(ans, cnt) :=
                        scan_numbers (S (length line3)) line3 (answers r) 0 in
                      match getline fin3 with
                      | None => None
                      | Some (line4, fin4) =>
                          let '(qis, idx) :=
                            scan_numbers (S (length line4)) line4 (questionIndices r) 0 in
                          let cnt' := if (idx <? cnt)%nat then idx else cnt in
                          let rem :=
                            match getline fin4 with
                            | Some (line5, _) =>
                                match stoi line5 with
                                | Some v => if v <? 0 then 0 else v
                                | None => DEFAULT_TIME_PER_QUESTION
                                end
                            | None => DEFAULT_TIME_PER_QUESTION
                            end in
                          Some (mkQuizResult pname sc cr wr ts qis ans cnt' rem)
                      end
                  end
              end
          end
      end
  end.

(** ** The session log *)

Definition print_joined (l : list Z) : str :=
  concat (imap (fun i a => print_int a ++ (if (S i =? length l)%nat then [] else lit " ,")) l).

Definition logSession (fn : string) (r : QuizResult) (w : World) : World :=
  let '(now_s, w1) := nowString w in
  file_append fn
    (lit "Player: " ++ playerName r ++ lit " | Score: " ++ print_int (r_score r)
     ++ lit " | Correct: " ++ print_int (r_correct r)
     ++ lit " | Wrong: " ++ print_int (r_wrong r)
     ++ lit " | Time: " ++ now_s ++ [NL]
     ++ lit "Questions indices: " ++ print_joined (take (qCount r) (questionIndices r))
     ++ [NL] ++ lit "Answers: " ++ print_joined (take (qCount r) (answers r))
     ++ [NL] ++ lit "-------------------------------" ++ [NL]) w1.

(** ** The local variables of [startQuiz] *)

Record Quiz := mkQuiz {
  saveFile : string;
  allQ : list Question;            (* [allQ[0 .. allCount)] *)
  quizQuestions : list Question;   (* [quizQuestions[0 .. quizCount)] *)
  qi : nat;
  lif_5050 : bool;
  lif_skip : bool;
  lif_replace : bool;
  lif_extra : bool;
  score : Z;
  correctCount : Z;
  wrongCount : Z;
  streak : Z;
  result : QuizResult;
  visibleOptions : list Z;
  visibleCount : Z;
  remainingSeconds : Z;
  endTime : Z
}.

Definition set_quizQuestions (st : Quiz) (v : list Question) : Quiz :=
  mkQuiz (saveFile st) (allQ st) v (qi st) (lif_5050 st) (lif_skip st)
         (lif_replace st) (lif_extra st) (score st) (correctCount st) (wrongCount st)
         (streak st) (result st) (visibleOptions st) (visibleCount st)
         (remainingSeconds st) (endTime st).
Definition set_qi (st : Quiz) (v : nat) : Quiz :=
  mkQuiz (saveFile st) (allQ st) (quizQuestions st) v (lif_5050 st) (lif_skip st)
         (lif_replace st) (lif_extra st) (score st) (correctCount st) (wrongCount st)
         (streak st) (result st) (visibleOptions st) (visibleCount st)
         (remainingSeconds st) (endTime st).
Definition set_lif_5050 (st : Quiz) (v : bool) : Quiz :=
  mkQuiz (saveFile st) (allQ st) (quizQuestions st) (qi st) v (lif_skip st)
         (lif_replace st) (lif_extra st) (score st) (correctCount st) (wrongCount st)
         (streak st) (result st) (visibleOptions st) (visibleCount st)
         (remainingSeconds st) (endTime st).
Definition set_lif_skip (st : Quiz) (v : bool) : Quiz :=
  mkQuiz (saveFile st) (allQ st) (quizQuestions st) (qi st) (lif_5050 st) v
         (lif_replace st) (lif_extra st) (score st) (correctCount st) (wrongCount st)
         (streak st) (result st) (visibleOptions st) (visibleCount st)
         (remainingSeconds st) (endTime st).
Definition set_lif_replace (st : Quiz) (v : bool) : Quiz :=
  mkQuiz (saveFile st) (allQ st) (quizQuestions st) (qi st) (lif_5050 st) (lif_skip st)
         v (lif_extra st) (score st) (correctCount st) (wrongCount st)
         (streak st) (result st) (visibleOptions st) (visibleCount st)
         (remainingSeconds st) (endTime st).
Definition set_lif_extra (st : Quiz) (v : bool) : Quiz :=
  mkQuiz (saveFile st) (allQ st) (quizQuestions st) (qi st) (lif_5050 st) (lif_skip st)
         (lif_replace st) v (score st) (correctCount st) (wrongCount st)
         (streak st) (result st) (visibleOptions st) (visibleCount st)
         (remainingSeconds st) (endTime st).
(** The four counters of the scoring code change together. *)
Definition set_tally (st : Quiz) (sc cc wc sk : Z) : Quiz :=
  mkQuiz (saveFile st) (allQ st) (quizQuestions st) (qi st) (lif_5050 st) (lif_skip st)
         (lif_replace st) (lif_extra st) sc cc wc sk (result st) (visibleOptions st)
         (visibleCount st) (remainingSeconds st) (endTime st).
Definition set_result (st : Quiz) (v : QuizResult) : Quiz :=
  mkQuiz (saveFile st) (allQ st) (quizQuestions st) (qi st) (lif_5050 st) (lif_skip st)
         (lif_replace st) (lif_extra st) (score st) (correctCount st) (wrongCount st)
         (streak st) v (visibleOptions st) (visibleCount st)
         (remainingSeconds st) (endTime st).
Definition set_visible (st : Quiz) (v : list Z) (n : Z) : Quiz :=
  mkQuiz (saveFile st) (allQ st) (quizQuestions st) (qi st) (lif_5050 st) (lif_skip st)
         (lif_replace st) (lif_extra st) (score st) (correctCount st) (wrongCount st)
         (streak st) (result st) v n (remainingSeconds st) (endTime st).
Definition set_remainingSeconds (st : Quiz) (v : Z) : Quiz :=
  mkQuiz (saveFile st) (allQ st) (quizQuestions st) (qi st) (lif_5050 st) (lif_skip st)
         (lif_replace st) (lif_extra st) (score st) (correctCount st) (wrongCount st)
         (streak st) (result st) (visibleOptions st) (visibleCount st) v (endTime st).
Definition set_endTime (st : Quiz) (v : Z) : Quiz :=
  mkQuiz (saveFile st) (allQ st) (quizQuestions st) (qi st) (lif_5050 st) (lif_skip st)
         (lif_replace st) (lif_extra st) (score st) (correctCount st) (wrongCount st)
         (streak st) (result st) (visibleOptions st) (visibleCount st)
         (remainingSeconds st) v.

(** Updates of the [result] object. *)
Definition with_answer (r : QuizResult) (a : Z) : QuizResult :=
  mkQuizResult (playerName r) (r_score r) (r_correct r) (r_wrong r) (timestamp r)
               (questionIndices r) (<[qCount r := a]> (answers r)) (qCount r)
               (remainingSecondsForCurrent r).
Definition with_index (r : QuizResult) (i : Z) : QuizResult :=
  mkQuizResult (playerName r) (r_score r) (r_correct r) (r_wrong r) (timestamp r)
               (<[qCount r := i]> (questionIndices r)) (answers r) (qCount r)
               (remainingSecondsForCurrent r).
Definition with_remaining (r : QuizResult) (rem : Z) : QuizResult :=
  mkQuizResult (playerName r) (r_score r) (r_correct r) (r_wrong r) (timestamp r)
               (questionIndices r) (answers r) (qCount r) rem.
Definition with_totals (r : QuizResult) (sc cr wr ts : Z) : QuizResult :=
  mkQuizResult (playerName r) sc cr wr ts (questionIndices r) (answers r) (qCount r)
               (remainingSecondsForCurrent r).
Definition with_qCount (r : QuizResult) (n : nat) : QuizResult :=
  mkQuizResult (playerName r) (r_score r) (r_correct r) (r_wrong r) (timestamp r)
               (questionIndices r) (answers r) n (remainingSecondsForCurrent r).

Definition no_question : Question := mkQuestion [] [] 0 0 0.

(** [Question& q = quizQuestions[qi]] *)
Definition q (st : Quiz) : Question := nth (qi st) (quizQuestions st) no_question.

(** [result.answers[result.qCount]] *)
Definition userAns (st : Quiz) : Z :=
  nth (qCount (result st)) (answers (result st)) 0.

(** ** One question *)

(** How a question ends.  The program has no such value: the tag names the
    branch that set [questionCompleted]. *)
Inductive outcome :=
| Answered (k : Z)
| Skipped
| TimedOut.

(** The two flags of the polling loop after one turn: still polling
    ([innerLoop] set), back to the redraw ([innerLoop] cleared), or
    [questionCompleted] set. *)
Inductive tick :=
| KeepPolling
| Redraw
| Completed (o : outcome).

(** A computation inside [startQuiz] either returns or is cut short: the
    input ends under a prompt, or the process is killed in a loop. *)
Inductive run (A : Type) :=
| Done (a : A) (w : World)
| Killed (st : Quiz) (w : World).
Arguments Done {A} a w.
Arguments Killed {A} st w.

(** [(int)(endTime - time(NULL))], floored at zero *)
Definition seconds_left (st : Quiz) (now : Z) : Z :=
  let rem := to_int (time_sub (endTime st) now) in
  if rem <? 0 then 0 else rem.

(** The wrong-answer and time-out deduction. *)
Definition penalty (d : Z) : Z :=
  if d =? 1 then 2 else if d =? 2 then 3 else 5.

(** The points of a correct answer. *)
Definition points (d : Z) : Z :=
  if d =? 1 then 10 else if d =? 2 then 15 else 20.

(** Lines 329-347: the start of a question. *)
Definition beginQuestion (st : Quiz) (w : World) : Quiz * World :=
  let r1 := with_answer (with_index (result st) (Z.of_nat (qi st))) 0 in
  let st1 := set_visible (set_result st r1) [0; 1; 2; 3] 4 in
  let st2 :=
    if 0 <? remainingSecondsForCurrent r1
    then set_result (set_remainingSeconds st1 (remainingSecondsForCurrent r1))
                    (with_remaining r1 0)
    else set_remainingSeconds st1 DEFAULT_TIME_PER_QUESTION in
  let '(now, w1) := time_now w in
  (set_endTime st2 (time_add now (remainingSeconds st2)), w1).

Definition displayQuestionWithVisibleOptions
    (qn : Question) (vis : list Z) (vcount : Z) (w : World) : World :=
  let w1 := print ([NL] ++ text qn ++ [NL]) w in
  foldl (fun w i =>
           if is_visible vis vcount i
           then print (print_int (i + 1) ++ lit ". " ++ at_index [] (options qn) i ++ [NL]) w
           else print (print_int (i + 1) ++ lit ". ----" ++ [NL]) w)
        w1 [0; 1; 2; 3].

(** Lines 350-363: the header, the options, the lifelines and the timer. *)
Definition display (st : Quiz) (w : World) : World :=
  let w := print ([NL] ++ lit "================================" ++ [NL]) w in
  let w := print (lit "Question " ++ print_int (int_add (Z.of_nat (qi st)) 1)
                    ++ lit " (Difficulty " ++ print_int (difficulty (q st))
                    ++ lit ")" ++ [NL]) w in
  let w := displayQuestionWithVisibleOptions (q st) (visibleOptions st) (visibleCount st) w in
  let w := print ([NL] ++ lit "Lifelines: ") w in
  let w := if lif_5050 st then print (lit "[1]50/50 ") w else w in
  let w := if lif_skip st then print (lit "[2]Skip ") w else w in
  let w := if lif_replace st then print (lit "[3]Replace ") w else w in
  let w := if lif_extra st then print (lit "[4]ExtraTime ") w else w in
  let w := print ([NL] ++ lit "Press 1-4 to answer immediately, or press L to use a lifeline."
                    ++ [NL]) w in
  let '(now, w) := time_now w in
  showRemainingSecondsLine (seconds_left st now) w.

(** Lines 371-383: a key from 1 to 4 answers the question. *)
Definition answerKey (k : ascii) (st : Quiz) (w : World) : Quiz * World :=
  let ans := code k - 48 in
  let r1 := with_answer (result st) ans in
  let '(now, w1) := time_now w in
  let rem := seconds_left st now in
  (set_remainingSeconds (set_result st (with_remaining r1 rem)) rem,
   print [NL] w1).

(** The search of the Replace lifeline: up to [attempts] draws from the bank;
    the first question with another text is copied and shuffled. *)
Fixpoint replace_search (attempts : nat) (st : Quiz) (w : World)
  : option Question * World :=
  match attempts with
  | O => (None, w)
  | S a =>
      let '(r, w1) := rand w in
      let cand := at_index no_question (allQ st) (r mod Z.of_nat (length (allQ st))) in
      if bool_decide (text cand <> text (q st))
      then let '(cand', w2) := shuffleOptions cand w1 in (Some cand', w2)
      else replace_search a st w1
  end.

(** Lines 397-459: what the lifeline menu does with the choice [li]. *)
Definition lifelineChoice (li : Z) (st : Quiz) (w : World) : Quiz * tick * World :=
  if li =? 0 then
    (st, Redraw, print (lit "Lifeline cancelled. Resuming timer." ++ [NL]) w)
  else if li =? 1 then
    if negb (lif_5050 st) then (st, Redraw, print (lit "50/50 already used." ++ [NL]) w)
    else
      let '(vis, vcount, w1) := apply5050 (q st) (visibleOptions st) w in
      (set_visible (set_lif_5050 st false) vis vcount, Redraw,
       print (lit "50/50 used. Two wrong options removed. Resuming timer." ++ [NL]) w1)
  else if li =? 2 then
    if negb (lif_skip st) then (st, Redraw, print (lit "Skip already used." ++ [NL]) w)
    else
      let st1 := set_lif_skip st false in
      let w1 := print (lit "Question skipped. Moving to next question." ++ [NL]) w in
      (set_result st1 (with_remaining (with_answer (result st1) 0) 0),
       Completed Skipped, w1)
  else if li =? 3 then
    if negb (lif_replace st) then (st, Redraw, print (lit "Replace already used." ++ [NL]) w)
    else
      let st1 := set_lif_replace st false in
      let '(found, w1) := replace_search (length (allQ st1)) st1 w in
      let st2 :=
        match found with
        | Some cand =>
            set_visible (set_quizQuestions st1 (<[qi st1 := cand]> (quizQuestions st1)))
                        [0; 1; 2; 3] 4
        | None => st1
        end in
      let w2 :=
        match found with
        | None => print (lit "No replacement found." ++ [NL]) w1
        | Some _ => print (lit "Question replaced. Remaining time preserved." ++ [NL]) w1
        end in
      let '(now, w3) := time_now w2 in
      (set_endTime st2 (time_add now (remainingSeconds st2)), Redraw, w3)
  else if li =? 4 then
    if negb (lif_extra st) then (st, Redraw, print (lit "Extra Time already used." ++ [NL]) w)
    else if remainingSeconds st <=? 0 then
      (st, Redraw, print (lit "Cannot use Extra Time: question already expired." ++ [NL]) w)
    else
      let st1 := set_lif_extra st false in
      let st2 := set_remainingSeconds st1 (int_add (remainingSeconds st1) EXTRA_TIME_AMOUNT) in
      let w1 := print (lit "Extra Time applied. +" ++ print_int EXTRA_TIME_AMOUNT
                         ++ lit "s added. New remaining: " ++ print_int (remainingSeconds st2)
                         ++ lit "s. Resuming timer." ++ [NL]) w in
      let '(now, w2) := time_now w1 in
      (set_endTime st2 (time_add now (remainingSeconds st2)), Redraw, w2)
  else (st, Redraw, w).

(** Lines 384-396: the key L stores the remaining seconds, prints the menu
    and reads the choice. *)
Definition lifelineMenu (st : Quiz) (w : World) : run (Quiz * tick) :=
  let '(now, w1) := time_now w in
  let rem := seconds_left st now in
  let st1 := set_remainingSeconds (set_result st (with_remaining (result st) rem)) rem in
  let w2 := print [NL] w1 in
  let w3 := print ([NL] ++ lit "--- Lifelines menu (timer paused) ---" ++ [NL]) w2 in
  let w4 := print (lit "1 = 50/50   (remove two wrong options)" ++ [NL]) w3 in
  let w5 := print (lit "2 = Skip    (skip question, no time penalty, moves on)" ++ [NL]) w4 in
  let w6 := print (lit "3 = Replace (replace with another question; remaining time preserved)"
                     ++ [NL]) w5 in
  let w7 := print (lit "4 = ExtraTime (+10s to remaining time) [usable once per quiz]"
                     ++ [NL]) w6 in
  let w8 := print (lit "Enter your choice (1-4) or 0 to cancel: ") w7 in
  match getIntInRange 0 4 w8 with
  | (None, w9) => Killed st1 w9
  | (Some li, w9) =>
      let '(st2, t, w10) := lifelineChoice li st1 w9 in Done (st2, t) w10
  end.

(** Lines 461-475: the key S. *)
Definition quickSkip (st : Quiz) (w : World) : Quiz * tick * World :=
  if lif_skip st then
    let st1 := set_lif_skip st false in
    (set_result st1 (with_remaining (with_answer (result st1) 0) 0),
     Completed Skipped,
     print ([NL] ++ lit "Quick skip used. Moving to next question." ++ [NL]) w)
  else (st, KeepPolling, print ([NL] ++ lit "Skip already used." ++ [NL]) w).

(** Lines 479-494: the test of the clock. *)
Definition checkTimeout (st : Quiz) (w : World) : Quiz * tick * World :=
  let '(nowt, w1) := time_now w in
  let w2 := showRemainingSecondsLine (seconds_left st nowt) w1 in
  if endTime st <=? nowt then
    let w3 := print ([NL] ++ lit "Time's up! Correct answer: "
                       ++ at_index [] (options (q st)) (correctIndex (q st)) ++ [NL]) w2 in
    let st1 := set_result st (with_remaining (with_answer (result st) 0) 0) in
    (set_tally st1 (int_sub (score st1) (penalty (difficulty (q st1))))
               (correctCount st1) (int_add (wrongCount st1) 1) 0,
     Completed TimedOut, w3)
  else (st, KeepPolling, w2).

(** Lines 496-509: the pause at the end of a turn that goes on.  It reads
    the clock once, into [tstart], which is not used, and looks at the
    keyboard without taking a key. *)
Definition pause (w : World) : World := (time_now w).2.

(** What follows the test of the clock: a turn that goes on ends with the
    pause, the others have left the loop by [break]. *)
Definition endOfTurn (r : Quiz * tick * World) : run (Quiz * tick) :=
  let '(st, t, w) := r in
  match t with
  | KeepPolling => Done (st, t) (pause w)
  | _ => Done (st, t) w
  end.

(** One turn of the polling loop, lines 368-509. *)
Definition pollStep (st : Quiz) (w : World) : run (Quiz * tick) :=
  let '(k, w1) := getNonBlockingKey w in
  if negb (ascii_eqb k NUL) then
    if (49 <=? code k) && (code k <=? 52) then
      let '(st1, w2) := answerKey k st w1 in
      Done (st1, Completed (Answered (code k - 48))) w2
    else if ascii_eqb k "L"%char || ascii_eqb k "l"%char then
      lifelineMenu st w1
    else if ascii_eqb k "S"%char || ascii_eqb k "s"%char then
      match quickSkip st w1 with
      | (st1, KeepPolling, w2) => endOfTurn (checkTimeout st1 w2)
      | (st1, t, w2) => Done (st1, t) w2
      end
    else endOfTurn (checkTimeout st w1)
  else endOfTurn (checkTimeout st w1).

(** The polling loop; it leaves with [Redraw] or [Completed]. *)
Fixpoint pollLoop (fuel : nat) (st : Quiz) (w : World) : run (Quiz * tick) :=
  match fuel with
  | O => Killed st w
  | S f =>
      match pollStep st w with
      | Done (st1, KeepPolling) w1 => pollLoop f st1 w1
      | other => other
      end
  end.

(** Lines 512-523: the save after the polling loop. *)
Definition autoSave (completed : bool) (st : Quiz) (w : World) : Quiz * World :=
  let '(ts, w1) := time_now w in
  let r1 := with_totals (result st) (score st) (correctCount st) (wrongCount st) ts in
  let '(st1, w2) :=
    if completed then (set_result st (with_remaining r1 0), w1)
    else
      let '(now, w2) := time_now w1 in
      let rem := seconds_left st now in
      (set_remainingSeconds (set_result st (with_remaining r1 rem)) rem, w2) in
  (st1, saveProgress (saveFile st1) (result st1) w2).

(** One turn of [while (!questionCompleted)]. *)
Definition drawAndPoll (fuel : nat) (st : Quiz) (w : World) : run (Quiz * tick) :=
  match pollLoop fuel st (display st w) with
  | Done (st1, t) w1 =>
      let completed := match t with Completed _ => true | _ => false end in
      let '(st2, w2) := autoSave completed st1 w1 in
      Done (st2, t) w2
  | Killed st1 w1 => Killed st1 w1
  end.

Fixpoint questionLoop (fuel : nat) (st : Quiz) (w : World) : run (Quiz * outcome) :=
  match fuel with
  | O => Killed st w
  | S f =>
      match drawAndPoll f st w with
      | Done (st1, Completed o) w1 => Done (st1, o) w1
      | Done (st1, _) w1 => questionLoop f st1 w1
      | Killed st1 w1 => Killed st1 w1
      end
  end.

(** Lines 528-561: the evaluation of the recorded answer. *)
Definition evaluate (st : Quiz) (w : World) : Quiz * World :=
  if userAns st =? 0 then (st, print (lit "Question not answered." ++ [NL]) w)
  else if userAns st - 1 =? correctIndex (q st) then
    let w1 := print (lit "Correct!" ++ [NL]) w in
    let add := points (difficulty (q st)) in
    let sc := int_add (score st) add in
    let sk := int_add (streak st) 1 in
    let '(sc', w2) :=
      if sk =? 3 then (int_add sc 5, print (lit "Streak! +5 bonus" ++ [NL]) w1)
      else if sk =? 5 then (int_add sc 15, print (lit "Big Streak! +15 bonus" ++ [NL]) w1)
      else (sc, w1) in
    (set_tally st sc' (int_add (correctCount st) 1) (wrongCount st) sk,
     print (lit "Earned " ++ print_int add ++ lit " points." ++ [NL]) w2)
  else
    let w1 := print (lit "Wrong! Correct answer: "
                       ++ at_index [] (options (q st)) (correctIndex (q st)) ++ [NL]) w in
    (set_tally st (int_sub (score st) (penalty (difficulty (q st))))
               (correctCount st) (int_add (wrongCount st) 1) 0, w1).

(** Lines 563-565: the totals go into [result], which is saved. *)
Definition finishQuestion (st : Quiz) (w : World) : Quiz * World :=
  let '(ts, w1) := time_now w in
  let r1 := with_totals (result st) (score st) (correctCount st) (wrongCount st) ts in
  let st1 := set_result st (with_qCount r1 (S (qCount r1))) in
  (st1, saveProgress (saveFile st1) (result st1) w1).

(** The body of [for (qi ...)]. *)
Definition runQuestion (fuel : nat) (st : Quiz) (w : World) : run (Quiz * outcome) :=
  let '(st1, w1) := beginQuestion st w in
  match questionLoop fuel st1 w1 with
  | Done (st2, o) w2 =>
      let '(st3, w3) := evaluate st2 w2 in
      let '(st4, w4) := finishQuestion st3 w3 in
      Done (st4, o) w4
  | Killed st2 w2 => Killed st2 w2
  end.

(** The loop over the questions, with [todo = quizCount - qi] turns left.
    The program keeps no list of outcomes: the second result records, for
    every question, the question as it stood when it ended and how it ended. *)
Fixpoint quizLoop (fuel : nat) (todo : nat) (st : Quiz) (w : World)
  : run (Quiz * list (Question * outcome)) :=
  match todo with
  | O => Done (st, []) w
  | S n =>
      match runQuestion fuel st w with
      | Done (st1, o) w1 =>
          match quizLoop fuel n (set_qi st1 (S (qi st1))) w1 with
          | Done (st2, os) w2 => Done (st2, (q st1, o) :: os) w2
          | Killed st2 w2 => Killed st2 w2
          end
      | Killed st1 w1 => Killed st1 w1
      end
  end.

(** ** The question file *)

(** The loop of [loadQuestionsFromFile]: [None] is an early [return false].
    Every turn consumes a line, so a [fuel] above the length of the file is
    never exhausted. *)
Fixpoint load_questions_loop (fuel : nat) (fin : str) (out : list Question)
  : option (list Question) :=
  match fuel with
  | O => Some out
  | S f =>
      match getline fin with
      | None => Some out
      | Some ([], fin1) => load_questions_loop f fin1 out
      | Some (txt, fin1) =>
          o0 ← getline fin1;
          o1 ← getline o0.2;
          o2 ← getline o1.2;
          o3 ← getline o2.2;
          corr ← getline o3.2;
          diff ← getline corr.2;
          c ← stoi corr.1;
          d ← stoi diff.1;
          let qn := mkQuestion txt [o0.1; o1.1; o2.1; o3.1]
                               (int_sub c 1) (int_sub c 1) d in
          let out' := if Z.of_nat (length out) <? MAX_QUESTIONS then out ++ [qn] else out in
          let fin' := match getline diff.2 with
                      | Some (_, rest) => rest
                      | None => diff.2
                      end in
          load_questions_loop f fin' out'
      end
  end.

Definition loadQuestionsFromFile (filename : string) (w : World)
  : option (list Question) :=
  match files w !! filename with
  | None => None
  | Some fin =>
      match load_questions_loop (S (length fin)) fin [] with
      | Some (qn :: qs) => Some (qn :: qs)
      | _ => None
      end
  end.

(** ** A whole quiz *)

(** How a call at the top level ends: it returns, or it never does. *)
Inductive exit :=
| Returned (w : World)
| Stuck (w : World).

(** The indices [0 .. n-1]. *)
Definition iota (n : nat) : list Z := map Z.of_nat (seq 0 n).

(** Lines 312-315: the indices of the questions of the chosen difficulty, or
    all indices when fewer than ten match. *)
Definition make_pool (allQ : list Question) (diff : Z) : list Z :=
  let pool := filter (fun i => difficulty (at_index no_question allQ i) = diff)
                     (iota (length allQ)) in
  if (length pool <? 10)%nat then iota (length allQ) else pool.

(** Line 319: each chosen question is copied from the bank and shuffled. *)
Fixpoint copy_and_shuffle (allQ : list Question) (chosen : list Z) (w : World)
  : list Question * World :=
  match chosen with
  | [] => ([], w)
  | i :: rest =>
      let '(qn, w1) := shuffleOptions (at_index no_question allQ i) w in
      let '(qs, w2) := copy_and_shuffle allQ rest w1 in
      (qn :: qs, w2)
  end.

(** The arrays [answers] and [questionIndices] of a fresh [result] hold
    nothing yet; every cell is written before it is read. *)
Definition blank_array : list Z := replicate MAX_QUIZ_QUESTIONS 0.

(** Lines 568-574: the end of the quiz. *)
Definition endQuiz (highScoreFile logFile : string) (st : Quiz) (w : World) : World :=
  let sc := if score st <? 0 then 0 else score st in
  let w := print ([NL] ++ lit "================================" ++ [NL]
                    ++ lit "Quiz Completed!" ++ [NL] ++ lit "Your Final Score: "
                    ++ print_int sc ++ [NL] ++ lit "Correct: " ++ print_int (correctCount st)
                    ++ lit " Wrong: " ++ print_int (wrongCount st) ++ [NL]) w in
  let '(dt, w) := nowString w in
  let w := writeHighScore highScoreFile (mkScoreEntry (playerName (result st)) sc dt) w in
  let w := logSession logFile (result st) w in
  let w := set_files w (delete (saveFile st) (files w)) in
  cin_ignore (print (lit "Press Enter to return to menu...") w).

Definition startQuiz (fuel : nat) (categoryFile highScoreFile logFile saveFile : string)
    (w : World) : exit :=
  match loadQuestionsFromFile categoryFile w with
  | None =>
      Returned (cin_ignore (print (lit "Could not load questions from "
                                     ++ lit categoryFile
                                     ++ lit ". Check file and format." ++ [NL]
                                     ++ lit "Press Enter to return...") w))
  | Some allQ =>
      let allCount := length allQ in
      let '(_, w) := shuffleIntArray (iota allCount) allCount w in
      let '(name, w) := cin_getline (print (lit "Enter your name: ") w) in
      let name := match name with [] => lit "Player" | _ => name end in
      let w := print ([NL] ++ lit "Choose difficulty: 1. Easy 2. Medium 3. Hard" ++ [NL]
                        ++ lit "Enter (1-3): ") w in
      match getIntInRange 1 3 w with
      | (None, w) => Stuck w
      | (Some diff, w) =>
          let pool := make_pool allQ diff in
          let '(pool, w) := shuffleIntArray pool (length pool) w in
          let quizCount := if (10 <? length pool)%nat then 10%nat else length pool in
          let '(quizQuestions, w) := copy_and_shuffle allQ (take quizCount pool) w in
          let '(ts, w) := time_now w in
          let st := mkQuiz saveFile allQ quizQuestions 0 true true true true 0 0 0 0
                           (mkQuizResult name 0 0 0 ts blank_array blank_array 0 0)
                           [0; 1; 2; 3] 4 DEFAULT_TIME_PER_QUESTION 0 in
          let w := cin_ignore (print ([NL] ++ lit "Quiz starting! Press Enter to start...") w) in
          match quizLoop fuel quizCount st w with
          | Done (st, _) w => Returned (endQuiz highScoreFile logFile st w)
          | Killed _ w => Stuck w
          end
      end
  end.

(** ** The main menu *)

Definition scienceFile : string := "science.txt".
Definition sportsFile : string := "sports.txt".
Definition historyFile : string := "history.txt".
Definition computerFile : string := "computer.txt".
Definition iqFile : string := "iq.txt".
Definition highScoreFile : string := "high_scores.txt".
Definition logFile : string := "quiz_logs.txt".
Definition saveFileName : string := "save_progress.txt".

Definition category_file (cat : Z) : string :=
  if cat =? 1 then scienceFile
  else if cat =? 2 then sportsFile
  else if cat =? 3 then historyFile
  else if cat =? 4 then computerFile
  else if cat =? 5 then iqFile
  else scienceFile.

Definition category_menu : str :=
  lit "Select Category:" ++ [NL] ++ lit "1. Science" ++ [NL] ++ lit "2. Sports" ++ [NL]
  ++ lit "3. History" ++ [NL] ++ lit "4. Computer" ++ [NL] ++ lit "5. IQ/Logic" ++ [NL]
  ++ lit "Enter (1-5): ".

(** [displayTopHighScores]: a selection sort, best score first. *)
Fixpoint best_from (scores : list ScoreEntry) (j best : nat) (fuel : nat) : nat :=
  match fuel with
  | O => best
  | S f =>
      let best' :=
        if e_score (nth best scores (mkScoreEntry [] 0 [])) <? e_score (nth j scores (mkScoreEntry [] 0 []))
        then j else best in
      best_from scores (S j) best' f
  end.

Fixpoint selection_sort (scores : list ScoreEntry) (i : nat) (fuel : nat)
  : list ScoreEntry :=
  match fuel with
  | O => scores
  | S f =>
      let best := best_from scores (S i) i (length scores - S i) in
      let d := mkScoreEntry [] 0 [] in
      let scores' :=
        if (best =? i)%nat then scores
        else <[best := nth i scores d]> (<[i := nth best scores d]> scores) in
      selection_sort scores' (S i) f
  end.

Definition displayTopHighScores (fn : string) (w : World) : World :=
  let scores := readHighScores fn w in
  match scores with
  | [] =>
      cin_ignore (print (lit "Press Enter to return to main menu...")
                        (print ([NL] ++ lit "No high scores yet." ++ [NL]) w))
  | _ =>
      let sorted := selection_sort scores 0 (length scores - 1) in
      let w := print ([NL] ++ lit "================================" ++ [NL]
                        ++ lit "        High Scores" ++ [NL]
                        ++ lit "================================" ++ [NL] ++ [NL]) w in
      let w := foldl (fun w '(i, e) =>
                        print (print_int (Z.of_nat i + 1) ++ lit ". " ++ name e ++ lit " - "
                                 ++ print_int (e_score e) ++ lit " points ("
                                 ++ datetime e ++ lit ")" ++ [NL]) w)
                     w (imap (fun i e => (i, e)) (take 5 sorted)) in
      cin_ignore (print ([NL] ++ lit "Press Enter to return to main menu...") w)
  end.

(** The object [QuizResult r] of the Resume branch before [loadProgress]
    fills it. *)
Definition fresh_result : QuizResult :=
  mkQuizResult [] 0 0 0 0 blank_array blank_array 0 0.

(** Line 620: what Resume reports first. *)
Definition resume_report (r : QuizResult) : str :=
  lit "Found saved progress for player: " ++ playerName r
  ++ lit " | Score so far: " ++ print_int (r_score r) ++ [NL].

(** Lines 621-623: the lines that lead to the choice of a category. *)
Definition resume_prompts (r : QuizResult) (w : World) : World :=
  let w := print (resume_report r) w in
  let w := print (lit "This simplified resume will restore your name, score, and remaining seconds for the next question."
                    ++ [NL]) w in
  let w := print (lit "To continue, select category to play (pick the same category you used earlier if possible)."
                    ++ [NL]) w in
  print category_menu w.

(** Line 634 *)
Definition resume_remaining (r : QuizResult) : str :=
  lit "Resuming: player name and score restored. Remaining seconds saved: "
  ++ print_int (remainingSecondsForCurrent r)
  ++ lit "s (used for first question)." ++ [NL].

(** Line 645 *)
Definition resume_note : str :=
  lit "Note: Fully accurate resume (exact previous question/order) requires more saved state. This simplified resume is informational only."
  ++ [NL] ++ lit "Press Enter to return...".

(** Lines 611-646: the Resume branch of the menu. *)
Definition resumeBranch (w : World) : exit :=
  match loadProgress saveFileName fresh_result w with
  | None =>
      Returned (cin_ignore (print (lit "No saved progress found." ++ [NL]
                                     ++ lit "Press Enter to return...") w))
  | Some r =>
      match getIntInRange 1 5 (resume_prompts r w) with
      | (None, w) => Stuck w
      | (Some cat, w) =>
          let chosenFile := category_file cat in
          let w := print (resume_remaining r) w in
          let w := cin_ignore (print (lit "Press Enter to start resumed quiz...") w) in
          Returned (cin_ignore (print resume_note w))
      end
  end.

Definition banner : str :=
  lit "================================" ++ [NL] ++ lit "      Welcome to QuizMaster!"
  ++ [NL] ++ lit "================================" ++ [NL] ++ [NL].

Definition menu_text : str :=
  lit "1. Start Quiz" ++ [NL] ++ lit "2. View High Scores" ++ [NL]
  ++ lit "3. Resume Saved Quiz" ++ [NL] ++ lit "4. Exit Game" ++ [NL] ++ [NL]
  ++ lit "Please select an option (1-4): ".

(** One turn of [while (true)] in [main]: [true] when the loop goes on. *)
Definition menuTurn (fuel : nat) (w : World) : bool * exit :=
  let w := print menu_text (print banner w) in
  match getIntInRange 1 4 w with
  | (None, w) => (false, Stuck w)
  | (Some choice, w) =>
      if choice =? 1 then
        match getIntInRange 1 5 (print ([NL] ++ category_menu) w) with
        | (None, w) => (false, Stuck w)
        | (Some cat, w) =>
            (true, startQuiz fuel (category_file cat) highScoreFile logFile saveFileName w)
        end
      else if choice =? 2 then (true, Returned (displayTopHighScores highScoreFile w))
      else if choice =? 3 then (true, resumeBranch w)
      else if choice =? 4 then
        let '(s, w) := cin_getline (print (lit "Are you sure you want to exit? (Y/N): ") w) in
        match s with
        | c :: _ =>
            if ascii_eqb c "Y"%char || ascii_eqb c "y"%char
            then (false, Returned (print (lit "Goodbye!" ++ [NL]) w))
            else (true, Returned w)
        | [] => (true, Returned w)
        end
      else (true, Returned w)
  end.

(** [main] after [srand]: at most [turns] turns of the menu. *)
Fixpoint mainLoop (turns : nat) (fuel : nat) (w : World) : exit :=
  match turns with
  | O => Stuck w
  | S n =>
      match menuTurn fuel w with
      | (true, Returned w1) => mainLoop n fuel w1
      | (_, e) => e
      end
  end.

(** ** Sample data *)

(** A world in which nothing happens: the clock stands still, no key is
    pressed, no line is typed and no file exists. *)
Definition idle_world : World :=
  mkWorld (fun _ => 1000) 0 (fun _ => NoKey) 0 (fun _ => 0%N) 0 [] [] ∅ (fun _ => None).

Definition entry_ann : ScoreEntry :=
  mkScoreEntry (lit "Ann") 120 (lit "Fri Oct 30 10:00:00 2026").

(** A player who typed a bar in the name. *)
Definition entry_bar : ScoreEntry :=
  mkScoreEntry (lit "a|b") 10 (lit "Fri Oct 30 10:00:00 2026").

(** A bank of twelve easy questions whose correct option is the second one,
    and a quiz over its first ten. *)
Definition sample_bank : list Question :=
  map (fun i => mkQuestion (lit "Question " ++ print_int i)
                           [lit "alpha"; lit "beta"; lit "gamma"; lit "delta"] 1 1 1)
      (iota 12).

Definition sample_quiz : Quiz :=
  mkQuiz saveFileName sample_bank (take 10 sample_bank) 0 true true true true 0 0 0 0
         (mkQuizResult (lit "Ann") 0 0 0 1000 blank_array blank_array 0 0)
         [0; 1; 2; 3] 4 DEFAULT_TIME_PER_QUESTION 0.

(** A player who has the key [key] pressed at every poll. *)
Definition typing_world (key : ascii) : World :=
  mkWorld (fun _ => 1000) 0 (fun _ => KeyCode key) 0 (fun _ => 0%N) 0 [] [] ∅
          (fun _ => None).

(** A world without a player, in which every call of [time] finds the clock
    one second further. *)
Definition ticking_world : World :=
  mkWorld (fun n => 1000 + Z.of_nat n) 0 (fun _ => NoKey) 0 (fun _ => 0%N) 0 [] [] ∅
          (fun _ => None).

(** A quiz whose bank holds a single question. *)
Definition lone_question : Question :=
  mkQuestion (lit "Only question") [lit "alpha"; lit "beta"; lit "gamma"; lit "delta"] 1 1 1.

Definition lone_quiz : Quiz :=
  mkQuiz saveFileName [lone_question] [lone_question] 0 true true true true 0 0 0 0
         (mkQuizResult (lit "Ann") 0 0 0 1000 blank_array blank_array 0 0)
         [0; 1; 2; 3] 4 7 1007.

(** A progress file left by an earlier run, and a player who picks Resume
    (3), then the second category, then presses Enter twice. *)
Definition saved_result : QuizResult :=
  mkQuizResult (lit "Ann") 45 4 0 1002 [0; 1; 2; 3] [2; 2; 2; 2] 4 6.

Definition resume_world : World :=
  mkWorld (fun _ => 1000) 0 (fun _ => NoKey) 0 (fun _ => 0%N) 0
          [lit "3"; lit "2"; []; []] []
          {[ saveFileName := progress_text saved_result ]} (fun _ => None).

(** A run that is cut short: the player answers the first four questions at
    once and then stops typing; ten calls of [time] make one second; the
    process is killed during the fifth question. *)
Definition crash_world : World :=
  mkWorld (fun n => 1000 + Z.of_nat n / 10) 0
          (fun n => if (n <? 4)%nat then KeyCode "2" else NoKey) 0
          (fun _ => 0%N) 0 [] [] ∅ (fun _ => None).

(** A category file with ten easy questions whose second option is correct,
    and a player who starts a quiz on it, answers 2 at once every time, and
    leaves.  With every draw of [rand] equal to 11 the option shuffle leaves
    the options in place. *)
Definition science_text : str :=
  concat (map (fun i => lit "Question " ++ print_int i ++ [NL]
                        ++ lit "alpha" ++ [NL] ++ lit "beta" ++ [NL]
                        ++ lit "gamma" ++ [NL] ++ lit "delta" ++ [NL]
                        ++ lit "2" ++ [NL] ++ lit "1" ++ [NL] ++ [NL])
              (iota 10)).

Definition session_world : World :=
  mkWorld (fun _ => 1000) 0 (fun _ => KeyCode "2") 0 (fun _ => 11%N) 0
          [lit "1"; lit "1"; lit "Ann"; lit "1"; []; []; lit "4"; lit "y"] []
          {[ scienceFile := science_text ]}
          (fun _ => Some (lit "Fri Oct 30 10:00:00 2026" ++ [NL])).

(** Ten hard questions. *)
Definition hard_quiz : Quiz :=
  let bank := map (fun qn => mkQuestion (text qn) (options qn) 1 1 3) sample_bank in
  mkQuiz saveFileName bank (take 10 bank) 0 true true true true 0 0 0 0
         (mkQuizResult (lit "Ann") 0 0 0 1000 blank_array blank_array 0 0)
         [0; 1; 2; 3] 4 DEFAULT_TIME_PER_QUESTION 0.

(** ** Vocabulary of the statements *)

(** A number that was printed is read back with what follows it left unread,
    provided no digit follows. *)
Definition stops_scan (rest : str) : Prop :=
  match rest with
  | [] => True
  | c :: _ => is_digit c = false
  end.

(** An entry that the file format can hold: the score is an [int], the name
    has no bar, and neither text field has a line break. *)
Definition storable (e : ScoreEntry) : Prop :=
  in_int_range (e_score e) = true /\
  (BAR ∉ name e) /\ (NL ∉ name e) /\ (NL ∉ datetime e).

(** The four counters of the scoring code. *)
Definition tally (st : Quiz) : Z * Z * Z * Z :=
  (score st, correctCount st, wrongCount st, streak st).

(** The cell [answers[qCount]] lies inside the array. *)
Definition slot_ok (st : Quiz) : Prop :=
  (qCount (result st) < length (answers (result st)))%nat.

(** What a turn of the question loops leaves alone. *)
Record frame (st st' : Quiz) : Prop := mkFrame {
  fr_saveFile : saveFile st' = saveFile st;
  fr_allQ : allQ st' = allQ st;
  fr_qi : qi st' = qi st;
  fr_qCount : qCount (result st') = qCount (result st);
  fr_answers : length (answers (result st')) = length (answers (result st));
  fr_name : playerName (result st') = playerName (result st);
  fr_extra : lif_extra st = false -> lif_extra st' = false;
  fr_replace : lif_replace st = false -> lif_replace st' = false
}.

(** The bonus of a streak that has just reached [s]. *)
Definition bonus (s : Z) : Z := if s =? 3 then 5 else if s =? 5 then 15 else 0.

(** How the outcome [o] of a question whose final form is [qn] moves the
    counters [t], in unbounded integers. *)
Definition scored (qn : Question) (o : outcome) (t : Z * Z * Z * Z) : Z * Z * Z * Z :=
  let '(sc, cc, wc, sk) := t in
  match o with
  | Answered k =>
      if k - 1 =? correctIndex qn
      then (sc + points (difficulty qn) + bonus (sk + 1), cc + 1, wc, sk + 1)
      else (sc - penalty (difficulty qn), cc, wc + 1, 0)
  | TimedOut => (sc - penalty (difficulty qn), cc, wc + 1, 0)
  | Skipped => (sc, cc, wc, sk)
  end.

(** The counters are far from the ends of [int]. *)
Definition within (m : Z) (t : Z * Z * Z * Z) : Prop :=
  let '(sc, cc, wc, sk) := t in
  - m <= sc <= m /\ 0 <= cc <= m /\ 0 <= wc <= m /\ 0 <= sk <= m.

Definition small (t : Z * Z * Z * Z) : Prop := within 1000000 t.

(** A question of the bank as the data model has it: the original correct
    index names one of the four options. *)
Definition well_formed (b : Question) : Prop := 0 <= originalCorrectIndex b < 4.

(** The question [qn] shown to the player is the bank's [b] with its correct
    option still under [correctIndex]. *)
Definition correct_kept (b qn : Question) : Prop :=
  text qn = text b
  /\ 0 <= correctIndex qn < 4
  /\ at_index [] (options qn) (correctIndex qn)
     = at_index [] (options b) (originalCorrectIndex b).

(** The score after [i] correct answers in a row at difficulty 1, from a
    fresh quiz. *)
Definition easy_run_score (i : Z) : Z :=
  10 * i + (if 3 <=? i then 5 else 0) + (if 5 <=? i then 15 else 0).

(** What a turn of the polling loop may do to the counters, by its result. *)
Definition tick_post (st st' : Quiz) (t : tick) : Prop :=
  match t with
  | KeepPolling | Redraw => tally st' = tally st
  | Completed (Answered k) => tally st' = tally st /\ userAns st' = k /\ 1 <= k <= 4
  | Completed Skipped => tally st' = tally st /\ userAns st' = 0
  | Completed TimedOut =>
      tally st' = (int_sub (score st) (penalty (difficulty (q st'))),
                   correctCount st, int_add (wrongCount st) 1, 0)
      /\ userAns st' = 0
  end.

Definition poll_post (st : Quiz) (w : World) (r : run (Quiz * tick)) : Prop :=
  match r with
  | Done (st', t) w' => frame st st' /\ files w' = files w /\ tick_post st st' t
  | Killed st' w' => frame st st' /\ files w' = files w /\ tally st' = tally st
  end.

(** The question loop as a whole. *)
Definition question_post (st : Quiz) (r : run (Quiz * outcome)) : Prop :=
  match r with
  | Done (st', o) w' =>
      frame st st' /\ tick_post st st' (Completed o)
      /\ files w' !! saveFile st' = Some (progress_text (result st'))
      /\ remainingSecondsForCurrent (result st') = 0
  | Killed st' w' => frame st st' /\ tally st' = tally st
  end.


(** The second line of the progress file. *)
Definition totals_line (r : QuizResult) : str :=
  print_int (r_score r) ++ SPACE :: print_int (r_correct r) ++ SPACE
    :: print_int (r_wrong r) ++ SPACE :: print_int (timestamp r).

(** A line that [getIntInRange] turns down: no number, or one outside the
    range. *)
Definition turned_down (minv maxv : Z) (line : str) : Prop :=
  forall v : Z, stoi line = Some v -> ~ (minv <= v <= maxv).

(** The score in cell [k] of an array of entries. *)
Definition score_at (l : list ScoreEntry) (k : nat) : Z :=
  e_score (nth k l (mkScoreEntry [] 0 [])).

(** The cells before [i] are in descending order of score and none of the
    later cells beats them. *)
Definition settled (l : list ScoreEntry) (i : nat) : Prop :=
  forall a b, (a < i)%nat -> (a <= b < length l)%nat -> score_at l b <= score_at l a.

(** A result that the progress file can hold. *)
Definition savable (r : QuizResult) : Prop :=
  (NL ∉ playerName r)
  /\ in_int_range (r_score r) = true /\ in_int_range (r_correct r) = true
  /\ in_int_range (r_wrong r) = true
  /\ - 2 ^ 63 <= timestamp r < 2 ^ 63
  /\ in_int_range (remainingSecondsForCurrent r) = true
  /\ (qCount r <= MAX_QUIZ_QUESTIONS)%nat
  /\ (qCount r <= length (answers r))%nat
  /\ (qCount r <= length (questionIndices r))%nat
  /\ Forall (fun a => in_int_range a = true) (take (qCount r) (answers r))
  /\ Forall (fun a => in_int_range a = true) (take (qCount r) (questionIndices r)).

(** The progress file of the older format: no line of remaining seconds. *)
Definition old_progress_text (r : QuizResult) : str :=
  playerName r ++ [NL]
  ++ print_int (r_score r) ++ lit " " ++ print_int (r_correct r) ++ lit " "
  ++ print_int (r_wrong r) ++ lit " " ++ print_int (timestamp r) ++ [NL]
  ++ print_ints (take (qCount r) (answers r)) ++ [NL]
  ++ print_ints (take (qCount r) (questionIndices r)) ++ [NL].

(** What every question that comes out of the loader looks like. *)
Definition loaded_shape (qn : Question) : Prop :=
  text qn <> []
  /\ length (options qn) = 4%nat
  /\ correctIndex qn = originalCorrectIndex qn
  /\ INT_MIN <= originalCorrectIndex qn <= INT_MAX
  /\ INT_MIN <= difficulty qn <= INT_MAX.

(** One record of a question file as the loader expects it: the text, the
    four options, the one-based correct option, the difficulty, and one more
    line that the loader drops. *)
Definition question_record (r : Question * str) : str :=
  let qn := r.1 in
  text qn ++ [NL]
  ++ concat (map (fun o => o ++ [NL]) (options qn))
  ++ print_int (originalCorrectIndex qn + 1) ++ [NL]
  ++ print_int (difficulty qn) ++ [NL]
  ++ r.2 ++ [NL].

(** A record that the file format can hold: no field has a line break, the
    text is not empty, there are four options and the two numbers are [int]s;
    the second component is the line after the difficulty. *)
Definition recordable (r : Question * str) : Prop :=
  let qn := r.1 in
  text qn <> [] /\ (NL ∉ text qn)
  /\ length (options qn) = 4%nat /\ Forall (fun o => NL ∉ o) (options qn)
  /\ correctIndex qn = originalCorrectIndex qn
  /\ INT_MIN <= originalCorrectIndex qn < INT_MAX
  /\ INT_MIN <= difficulty qn <= INT_MAX
  /\ (NL ∉ r.2).

(** What a quiz never undoes: a lifeline that was used stays used, the bank
    and the number of quiz questions stay as they are, and the quiz questions
    themselves change only by the one use of Replace. *)
Record spent (st st' : Quiz) : Prop := mkSpent {
  sp_5050 : lif_5050 st = false -> lif_5050 st' = false;
  sp_skip : lif_skip st = false -> lif_skip st' = false;
  sp_replace : lif_replace st = false -> lif_replace st' = false;
  sp_extra : lif_extra st = false -> lif_extra st' = false;
  sp_bank : allQ st' = allQ st;
  sp_count : length (quizQuestions st') = length (quizQuestions st);
  sp_same : lif_replace st = false -> quizQuestions st' = quizQuestions st;
  sp_once : lif_replace st' = true -> quizQuestions st' = quizQuestions st
}.

(** What the loops of one question leave alone besides: the recorded
    question indices, the other cells of [answers] and the questions other
    than the current one. *)
Record keeps (st st' : Quiz) : Prop := mkKeeps {
  kp_spent : spent st st';
  kp_qi : qi st' = qi st;
  kp_qCount : qCount (result st') = qCount (result st);
  kp_indices : questionIndices (result st') = questionIndices (result st);
  kp_answers : forall j : nat, j <> qCount (result st) ->
               answers (result st') !! j = answers (result st) !! j;
  kp_others : forall j : nat, j <> qi st ->
              quizQuestions st' !! j = quizQuestions st !! j
}.

(** The same for a computation that may be cut short. *)
Definition kept {A : Type} (st : Quiz) (r : run (Quiz * A)) : Prop :=
  match r with
  | Done (st', _) _ => keeps st st'
  | Killed st' _ => keeps st st'
  end.

(** What the cell [answers[qCount]] holds once a question has ended. *)
Definition recorded (o : outcome) : Z :=
  match o with Answered k => k | _ => 0 end.

(** What the polling loop has no binding for: no key at all, or a key other
    than 1 to 4, L and S in either case. *)
Definition unbound (e : kbd_event) : Prop :=
  match e with
  | NoKey => True
  | KeyCode ch =>
      ~ (49 <= code ch <= 52)
      /\ ch <> "L"%char /\ ch <> "l"%char /\ ch <> "S"%char /\ ch <> "s"%char
  end.

(** The number of skipped questions in the record of a run. *)
Definition is_skipped (o : outcome) : bool :=
  match o with Skipped => true | _ => false end.

Definition skips (tr : list (Question * outcome)) : Z :=
  fold_right (fun x acc => (if is_skipped x.2 then 1 else 0) + acc) 0 tr.

(** Lines of a text file, each ended by a line break. *)
Definition lines_text (ls : list str) : str := concat (map (fun l => l ++ [NL]) ls).

(** The questions of the bank that have the difficulty [diff]. *)
Definition matching (allQ : list Question) (diff : Z) : list Question :=
  filter (fun qn => difficulty qn = diff) allQ.

(** The worlds [w] and [w'] hold the same files, the file [fn] apart. *)
Definition files_but (fn : string) (w w' : World) : Prop :=
  forall f : string, f <> fn -> files w' !! f = files w !! f.

(** The files that the program itself keeps. *)
Definition own_files : list string := [highScoreFile; logFile; saveFileName].

(** The worlds [w] and [w'] agree on every file that is not one of the
    program's own. *)
Definition banks_kept (w w' : World) : Prop :=
  forall f : string, f ∉ own_files -> files w' !! f = files w !! f.

(** * Properties *)

Arguments lit : simpl never.
Arguments print_int : simpl never.
Arguments to_int : simpl never.
Arguments to_time_t : simpl never.
Arguments display : simpl never.
Arguments progress_text : simpl never.

(** ** The model at work *)

Example print_int_samples :
  print_int 0 = lit "0" /\ print_int 120 = lit "120" /\ print_int (-45) = lit "-45".
Proof. by vm_compute. Qed.

Example stoi_samples :
  stoi (lit "  42abc") = Some 42 /\ stoi (lit "-7") = Some (-7)
  /\ stoi (lit "x") = None /\ stoi [] = None /\ stoi (lit "4000000000") = None.
Proof. by vm_compute. Qed.

(** A whole run of [main]: one quiz on ten easy questions, all answered
    correctly, then Exit.  The score 120 goes to the high-score file, the
    session is logged and the progress file is removed. *)
Example easy_session :
  exists w : World,
    mainLoop 5 5 session_world = Returned w
    /\ files w !! highScoreFile = Some (lit "Ann|120|Fri Oct 30 10:00:00 2026" ++ [NL])
    /\ files w !! saveFileName = None
    /\ is_Some (files w !! logFile)
    /\ stdin w = []
    /\ last (console w) = Some (lit "Goodbye!" ++ [NL]).
Proof.
  eexists. split; [vm_compute; reflexivity|].
  repeat split; try (vm_compute; reflexivity). by eexists.
Qed.

(** Ten hard questions that all time out: the raw score is -50, the score
    that is shown and stored is 0. *)
Example all_timed_out :
  exists (st : Quiz) (tr : list (Question * outcome)) (w : World),
    quizLoop 20 10 hard_quiz ticking_world = Done (st, tr) w
    /\ Forall (fun '(_, o) => o = TimedOut) tr
    /\ score st = -50 /\ correctCount st = 0 /\ wrongCount st = 10
    /\ files (endQuiz highScoreFile logFile st w) !! highScoreFile
       = Some (lit "Ann|0|" ++ [NL]).
Proof.
  eexists _, _, _. split; [vm_compute; reflexivity|].
  split; [by repeat constructor|].
  repeat split; vm_compute; reflexivity.
Qed.

Lemma wrap_small bits z :
  0 < bits -> - 2 ^ (bits - 1) <= z < 2 ^ (bits - 1) -> wrap bits z = z.
Proof.
  intros Hb Hz. unfold wrap.
  assert (2 ^ bits = 2 * 2 ^ (bits - 1)) as E.
  { rewrite <- Z.pow_succ_r by lia. f_equal. lia. }
  rewrite Z.mod_small; lia.
Qed.

(** ** Shuffling keeps the elements *)

Lemma swap_perm (arr : list Z) (i j : nat) :
  (i < length arr)%nat -> (j < length arr)%nat -> swap arr i j ≡ₚ arr.
Proof.
  intros Hi Hj. unfold swap.
  destruct (lookup_lt_is_Some_2 arr i Hi) as [x Hx].
  destruct (lookup_lt_is_Some_2 arr j Hj) as [y Hy].
  rewrite (nth_lookup_Some _ _ _ _ Hx), (nth_lookup_Some _ _ _ _ Hy).
  by apply Permutation_insert_swap.
Qed.

Lemma shuffle_from_perm (k : nat) : forall (arr : list Z) (w : World),
  (k < length arr)%nat -> (shuffle_from k arr w).1 ≡ₚ arr.
Proof.
  induction k as [|k IH]; intros arr w Hk; simpl; [done|].
  set (j := Z.to_nat _).
  assert (j <= S k)%nat as Hj.
  { subst j. pose proof (Z.mod_pos_bound
      (Z.of_N (rand_src w (draws w)) mod (RAND_MAX + 1)) (Z.of_nat (S k) + 1)). lia. }
  assert (swap arr (S k) j ≡ₚ arr) as Hs by (apply swap_perm; lia).
  rewrite IH; [done|]. rewrite (Permutation_length Hs). lia.
Qed.

Lemma shuffleIntArray_perm (arr : list Z) (n : nat) (w : World) :
  (n <= length arr)%nat -> (shuffleIntArray arr n w).1 ≡ₚ arr.
Proof.
  intros Hn. unfold shuffleIntArray.
  destruct n as [|n]; [done|]. apply shuffle_from_perm. lia.
Qed.

Lemma find_new_correct_spec (orig : Z) (idx : list Z) : forall (i nc : Z),
  ((orig ∉ idx) /\ find_new_correct idx i orig nc = nc) \/
  (exists k : nat, idx !! k = Some orig /\
                   find_new_correct idx i orig nc = i + Z.of_nat k).
Proof.
  induction idx as [|x idx IH]; intros i nc; simpl.
  - left. split; [apply not_elem_of_nil | done].
  - destruct (Z.eqb_spec x orig) as [->|Hne].
    + destruct (IH (i + 1) i) as [[_ ->]|(k & Hk & ->)].
      * right. exists 0%nat. split; [done | lia].
      * right. exists (S k). split; [done | lia].
    + destruct (IH (i + 1) nc) as [[Hn ->]|(k & Hk & ->)].
      * left. split; [|done]. rewrite not_elem_of_cons. done.
      * right. exists (S k). split; [done | lia].
Qed.

Lemma shuffleOptions_correct_slot (q : Question) (w : World) :
  0 <= originalCorrectIndex q < 4 ->
  exists k : nat,
    correctIndex (shuffleOptions q w).1 = Z.of_nat k /\
    (shuffleIntArray [0; 1; 2; 3] 4 w).1 !! k = Some (originalCorrectIndex q).
Proof.
  intros Hr. unfold shuffleOptions.
  destruct (shuffleIntArray [0; 1; 2; 3] 4 w) as [idx w1] eqn:E. simpl.
  assert (idx ≡ₚ [0; 1; 2; 3]) as Hp.
  { change idx with (idx, w1).1. rewrite <- E. by apply shuffleIntArray_perm. }
  destruct (find_new_correct_spec (originalCorrectIndex q) idx 0 0)
    as [[Hn _]|(k & Hk & ->)].
  - exfalso. apply Hn. rewrite Hp, !elem_of_cons. lia.
  - exists k. split; [lia | done].
Qed.

Lemma shuffleOptions_keeps (b : Question) (w : World) :
  well_formed b -> correct_kept b (shuffleOptions b w).1.
Proof.
  intros Hr. destruct (shuffleOptions_correct_slot b w Hr) as (k & Hk & Hidx).
  unfold correct_kept. rewrite Hk. revert Hk Hidx. unfold shuffleOptions.
  destruct (shuffleIntArray [0; 1; 2; 3] 4 w) as [idx w1] eqn:E. simpl.
  intros _ Hidx.
  assert (length idx = 4%nat) as Hlen.
  { change idx with (idx, w1).1. rewrite <- E.
    rewrite (Permutation_length (shuffleIntArray_perm [0; 1; 2; 3] 4 w ltac:(simpl; lia))).
    done. }
  split; [done|]. split.
  - apply lookup_lt_Some in Hidx. lia.
  - unfold at_index at 1. rewrite Nat2Z.id.
    apply nth_lookup_Some. by rewrite list_lookup_fmap, Hidx.
Qed.

(** C7. On a question whose [correctIndex] is one of the four slots,
    [apply5050] leaves exactly two visible indices, in ascending order: the
    correct index and one index of a wrong option. *)
Theorem apply5050_two_visible (q : Question) (vis : list Z) (w : World) :
  0 <= correctIndex q < 4 ->
  length vis = 4%nat ->
  exists (a b : Z) (tl : list Z),
    (apply5050 q vis w).1 = (a :: b :: tl, 2) /\
    a < b /\
    (exists wrong : Z,
        0 <= wrong < 4 /\ wrong <> correctIndex q /\
        ((a = correctIndex q /\ b = wrong) \/ (a = wrong /\ b = correctIndex q)) /\
        forall i : Z,
          is_visible (a :: b :: tl) 2 i = true <-> i = correctIndex q \/ i = wrong).
Proof.
  intros Hc Hvis4. unfold apply5050.
  set (wrongs := filter _ _).
  destruct (shuffleIntArray wrongs (length wrongs) w) as [wrongs' w1] eqn:E.
  assert (wrongs' ≡ₚ wrongs) as Hp.
  { change wrongs' with (wrongs', w1).1. rewrite <- E. by apply shuffleIntArray_perm. }
  assert (length wrongs = 3%nat) as Hlen.
  { subst wrongs.
    assert (correctIndex q = 0 \/ correctIndex q = 1 \/ correctIndex q = 2
            \/ correctIndex q = 3) as Hcases by lia.
    destruct Hcases as [-> | [-> | [-> | ->]]]; done. }
  destruct wrongs' as [|v1 rest].
  { apply Permutation_length in Hp. simpl in Hp. lia. }
  assert (v1 ∈ wrongs) as Hin by (rewrite <- Hp; left).
  subst wrongs. apply list_elem_of_filter in Hin as [Hne Hin].
  rewrite !elem_of_cons, elem_of_nil in Hin.
  assert (0 <= v1 < 4) as Hv by lia.
  change (at_index 0 (v1 :: rest) 0) with v1.
  destruct vis as [|x0 [|x1 tl]]; [done..|]. simpl.
  assert (forall a b i : Z, is_visible (a :: b :: tl) 2 i = true <-> i = a \/ i = b) as Hvis.
  { intros a b i. unfold is_visible. simpl.
    rewrite !orb_true_iff, !Z.eqb_eq. intuition congruence. }
  destruct (Z.ltb_spec v1 (correctIndex q)).
  - exists v1, (correctIndex q), tl. repeat split; try lia.
    exists v1. repeat split; try lia; rewrite Hvis; tauto.
  - exists (correctIndex q), v1, tl. repeat split; try lia.
    exists v1. repeat split; try lia; rewrite Hvis; tauto.
Qed.

(** The hypothesis of C7 holds for every question of a running quiz: the
    questions are passed through [shuffleOptions] before they are shown. *)
Lemma shuffleOptions_correctIndex_range (q : Question) (w : World) :
  0 <= correctIndex (shuffleOptions q w).1 < 4.
Proof.
  unfold shuffleOptions.
  destruct (shuffleIntArray [0; 1; 2; 3] 4 w) as [idx w1] eqn:E. simpl.
  assert (length idx = 4%nat) as Hlen.
  { change idx with (idx, w1).1. rewrite <- E.
    rewrite (Permutation_length (shuffleIntArray_perm [0; 1; 2; 3] 4 w ltac:(simpl; lia))).
    done. }
  destruct (find_new_correct_spec (originalCorrectIndex q) idx 0 0)
    as [[_ ->]|(k & Hk & ->)]; [lia|].
  apply lookup_lt_Some in Hk. lia.
Qed.

(** ** Decimal output and input are inverse *)

Lemma digit_char_spec (d : Z) :
  0 <= d < 10 -> is_digit (digit_char d) = true /\ digit_val (digit_char d) = d.
Proof.
  intros H.
  assert (d = 0 \/ d = 1 \/ d = 2 \/ d = 3 \/ d = 4 \/ d = 5 \/ d = 6 \/ d = 7
          \/ d = 8 \/ d = 9) as Hd by lia.
  repeat (destruct Hd as [-> | Hd]; [by vm_compute|]). subst d. by vm_compute.
Qed.

Lemma is_digit_not_special (c : ascii) :
  is_digit c = true ->
  is_space c = false /\ c <> NL /\ c <> BAR /\ c <> SPACE
  /\ ascii_eqb c "-"%char = false /\ ascii_eqb c "+"%char = false.
Proof.
  unfold is_digit, is_space, ascii_eqb. intros H.
  apply andb_true_iff in H as [H1 H2].
  apply Z.leb_le in H1. apply Z.leb_le in H2.
  assert (forall c' : ascii, code c' < 48 \/ 57 < code c' -> c <> c') as Hne.
  { intros c' Hc' ->. lia. }
  repeat split.
  - apply orb_false_iff. split; [apply Z.eqb_neq; lia|].
    apply andb_false_iff. right. apply Z.leb_gt. lia.
  - apply Hne. vm_compute. left. done.
  - apply Hne. vm_compute. right. done.
  - apply Hne. vm_compute. left. done.
  - apply Ascii.eqb_neq, Hne. vm_compute. left. done.
  - apply Ascii.eqb_neq, Hne. vm_compute. left. done.
Qed.

Lemma to_digits_app (fuel : nat) : forall (n : Z) (acc rest : str),
  to_digits fuel n (acc ++ rest) = to_digits fuel n acc ++ rest.
Proof.
  induction fuel as [|f IH]; intros n acc rest; simpl; [done|].
  destruct (n <? 10); [done|]. by rewrite <- IH.
Qed.

Lemma to_digits_digits (fuel : nat) : forall (n : Z) (acc : str),
  0 <= n ->
  Forall (fun c => is_digit c = true) acc ->
  Forall (fun c => is_digit c = true) (to_digits fuel n acc).
Proof.
  induction fuel as [|f IH]; intros n acc Hn Hacc; simpl; [done|].
  assert (is_digit (digit_char (n mod 10)) = true) as Hd.
  { apply digit_char_spec. apply Z.mod_pos_bound. lia. }
  destruct (n <? 10); [by constructor|].
  apply IH; [apply Z.div_pos; lia | by constructor].
Qed.

Lemma to_digits_nonempty (fuel : nat) (n : Z) (acc : str) :
  to_digits (S fuel) n acc <> [].
Proof.
  revert n acc. induction fuel as [|f IH]; intros n acc; simpl.
  - by destruct (n <? 10).
  - destruct (n <? 10); [done|]. apply (IH (n / 10)).
Qed.

Lemma to_digits_scan (fuel : nat) : forall (n : Z) (acc : str),
  0 <= n < 2 ^ Z.of_nat fuel ->
  scan_digits 0 (to_digits fuel n acc) = scan_digits n acc.
Proof.
  induction fuel as [|f IH]; intros n acc Hn.
  - simpl in *. by replace n with 0 by lia.
  - cbn [to_digits].
    destruct (digit_char_spec (n mod 10)) as [Hd Hv]; [apply Z.mod_pos_bound; lia|].
    destruct (Z.ltb_spec n 10) as [Hlt|Hge].
    + cbn [scan_digits]. rewrite Hd, Hv, Z.mod_small by lia. done.
    + rewrite IH.
      * cbn [scan_digits]. rewrite Hd, Hv. f_equal.
        pose proof (Z.div_mod n 10). lia.
      * rewrite Nat2Z.inj_succ, Z.pow_succ_r in Hn by lia.
        split; [apply Z.div_pos; lia|].
        apply Z.div_lt_upper_bound; lia.
Qed.

Lemma print_nat_fuel (n : Z) :
  0 <= n -> 0 <= n < 2 ^ Z.of_nat (S (Z.to_nat (Z.log2 n))).
Proof.
  intros Hn. split; [done|].
  rewrite Nat2Z.inj_succ, Z2Nat.id by apply Z.log2_nonneg.
  destruct (Z.eq_dec n 0) as [->|Hne]; [done|].
  apply Z.log2_spec. lia.
Qed.

Lemma print_nat_digits (n : Z) :
  0 <= n -> Forall (fun c => is_digit c = true) (print_nat n).
Proof. intros Hn. by apply to_digits_digits. Qed.

Lemma print_nat_head (n : Z) :
  0 <= n -> exists c s, print_nat n = c :: s /\ is_digit c = true.
Proof.
  intros Hn. pose proof (print_nat_digits n Hn) as Hd.
  pose proof (to_digits_nonempty (Z.to_nat (Z.log2 n)) n []) as Hne.
  fold (print_nat n) in Hne.
  destruct (print_nat n) as [|c s]; [done|].
  exists c, s. split; [done|]. by inversion Hd.
Qed.

Lemma scan_digits_print_nat (n : Z) (rest : str) :
  0 <= n -> scan_digits 0 (print_nat n ++ rest) = scan_digits n rest.
Proof.
  intros Hn. unfold print_nat.
  rewrite <- to_digits_app. simpl app.
  apply to_digits_scan, print_nat_fuel, Hn.
Qed.

Lemma scan_digits_stop (v : Z) (rest : str) :
  stops_scan rest -> scan_digits v rest = (v, rest).
Proof. destruct rest as [|c r]; simpl; [done|]. by intros ->. Qed.

Lemma scan_int_print_int (z : Z) (rest : str) :
  stops_scan rest -> scan_int (print_int z ++ rest) = Some (z, rest).
Proof.
  intros Hrest. unfold print_int, scan_int.
  destruct (Z.ltb_spec z 0) as [Hneg|Hpos].
  - destruct (print_nat_head (- z)) as (c & s & Hcs & Hc); [lia|].
    change (skip_spaces (("-"%char :: print_nat (- z)) ++ rest))
      with ("-"%char :: print_nat (- z) ++ rest).
    change (scan_sign ("-"%char :: print_nat (- z) ++ rest))
      with (true, print_nat (- z) ++ rest).
    cbv iota beta.
    rewrite scan_digits_print_nat, scan_digits_stop by (done || lia).
    rewrite Hcs. simpl. rewrite Hc. f_equal. f_equal. lia.
  - destruct (print_nat_head z) as (c & s & Hcs & Hc); [lia|].
    destruct (is_digit_not_special c Hc) as (Hsp & _ & _ & _ & Hm & Hp).
    assert (scan_sign (skip_spaces (print_nat z ++ rest)) = (false, print_nat z ++ rest)) as ->.
    { rewrite Hcs. simpl. rewrite Hsp. unfold scan_sign. by rewrite Hm, Hp. }
    rewrite scan_digits_print_nat, scan_digits_stop by (done || lia).
    rewrite Hcs. simpl. by rewrite Hc.
Qed.

Lemma stoi_print_int (z : Z) :
  in_int_range z = true -> stoi (print_int z) = Some z.
Proof.
  intros Hz. unfold stoi.
  rewrite <- (app_nil_r (print_int z)), scan_int_print_int by done.
  by rewrite Hz.
Qed.

(** The characters of a printed number are digits and at most a minus sign. *)
Lemma print_int_chars (z : Z) (c : ascii) :
  c ∈ print_int z -> is_digit c = true \/ c = "-"%char.
Proof.
  unfold print_int. destruct (Z.ltb_spec z 0) as [Hneg|Hpos].
  - rewrite elem_of_cons. intros [->|Hin]; [by right|left].
    pose proof (print_nat_digits (- z) ltac:(lia)) as Hd.
    rewrite List.Forall_forall in Hd. apply Hd. by apply list_elem_of_In.
  - intros Hin. left.
    pose proof (print_nat_digits z ltac:(lia)) as Hd.
    rewrite List.Forall_forall in Hd. apply Hd. by apply list_elem_of_In.
Qed.

Lemma print_int_no_bar_nl (z : Z) : (BAR ∉ print_int z) /\ (NL ∉ print_int z).
Proof.
  split; intros Hin; apply print_int_chars in Hin as [Hd|He];
    solve [by vm_compute in Hd | by vm_compute in He].
Qed.

(** ** Lines and fields *)

Lemma read_line_app (l rest : str) :
  NL ∉ l -> read_line (l ++ NL :: rest) = (l, rest).
Proof.
  induction l as [|c l IH]; intros Hnl; simpl.
  - done.
  - apply not_elem_of_cons in Hnl as [Hc Hl].
    unfold ascii_eqb. destruct (Ascii.eqb_spec c NL) as [->|_]; [done|].
    by rewrite IH.
Qed.

Lemma find_from_here (c : ascii) (l rest : str) :
  c ∉ l -> find_from c 0 (l ++ c :: rest) = Some (length l).
Proof.
  induction l as [|x l IH]; intros Hc; simpl.
  - unfold ascii_eqb. by rewrite Ascii.eqb_refl.
  - apply not_elem_of_cons in Hc as [Hx Hl].
    unfold ascii_eqb. destruct (Ascii.eqb_spec x c) as [->|_]; [done|].
    by rewrite IH.
Qed.

Lemma find_from_skip (c : ascii) (l s : str) (n : nat) :
  find_from c (length l + n) (l ++ s) = (fun k => (length l + k)%nat) <$> find_from c n s.
Proof.
  induction l as [|x l IH]; simpl.
  - by destruct (find_from c n s).
  - rewrite IH. by destruct (find_from c n s).
Qed.

Lemma parse_score_line_fields (nm sc dt : str) :
  BAR ∉ nm -> BAR ∉ sc ->
  parse_score_line (nm ++ BAR :: sc ++ BAR :: dt)
    = Some (mkScoreEntry nm (default 0 (stoi sc)) dt).
Proof.
  intros Hnm Hsc. unfold parse_score_line.
  rewrite find_from_here by done.
  rewrite find_from_skip. cbn [find_from fmap option_fmap option_map].
  rewrite find_from_here by done. cbn [fmap option_fmap option_map].
  unfold substr, substr_from. f_equal. f_equal.
  - by rewrite drop_0, take_app_length.
  - rewrite drop_app_add. cbn [skipn].
    replace (length nm + S (length sc) - length nm - 1)%nat with (length sc) by lia.
    by rewrite drop_0, take_app_length.
  - replace (length nm + S (length sc) + 1)%nat
      with (length nm + S (length sc + 1))%nat by lia.
    rewrite drop_app_add. cbn [skipn].
    rewrite drop_app_add. done.
Qed.

Lemma parse_score_line_format (e : ScoreEntry) :
  storable e ->
  parse_score_line (name e ++ lit "|" ++ print_int (e_score e) ++ lit "|" ++ datetime e)
    = Some e.
Proof.
  intros (Hsc & Hbar & _ & _). destruct e as [nm sc dt]. simpl in *.
  destruct (print_int_no_bar_nl sc) as [Hpb _].
  change (lit "|") with [BAR]. cbn [app].
  rewrite parse_score_line_fields by done.
  by rewrite stoi_print_int.
Qed.

Lemma format_entry_line (e : ScoreEntry) (rest : str) :
  storable e ->
  exists line, line <> [] /\
    getline (format_entry e ++ rest) = Some (line, rest) /\
    parse_score_line line = Some e.
Proof.
  intros He. pose proof He as (Hsc & Hbar & Hnn & Hnd).
  destruct (print_int_no_bar_nl (e_score e)) as [_ Hpn].
  exists (name e ++ lit "|" ++ print_int (e_score e) ++ lit "|" ++ datetime e).
  split; [|split].
  - change (lit "|") with [BAR]. by destruct (name e).
  - unfold format_entry.
    replace ((name e ++ lit "|" ++ print_int (e_score e) ++ lit "|" ++ datetime e ++ [NL]) ++ rest)
      with ((name e ++ lit "|" ++ print_int (e_score e) ++ lit "|" ++ datetime e) ++ NL :: rest)
      by (by rewrite <- !app_assoc).
    unfold getline.
    rewrite read_line_app.
    + change (lit "|") with [BAR]. by destruct (name e).
    + change (lit "|") with [BAR].
      intros Hin. rewrite !elem_of_app, !elem_of_cons, !elem_of_nil in Hin.
      assert (NL <> BAR) as Hnb by done.
      tauto.
  - by apply parse_score_line_format.
Qed.

Lemma read_scores_loop_formatted (es : list ScoreEntry) :
  forall (fuel : nat) (out : list ScoreEntry),
  Forall storable es ->
  (length (concat (map format_entry es)) < fuel)%nat ->
  (length out <= MAX_QUIZ_QUESTIONS)%nat ->
  read_scores_loop fuel (concat (map format_entry es)) out
    = take MAX_QUIZ_QUESTIONS (out ++ es).
Proof.
  induction es as [|e es IH]; intros fuel out Hes Hfuel Hout.
  - destruct fuel; simpl; rewrite app_nil_r, take_ge; done.
  - inversion Hes as [|? ? He Hes']; subst.
    destruct fuel as [|fuel]; [lia|].
    simpl map. simpl concat. simpl concat in Hfuel.
    destruct (format_entry_line e (concat (map format_entry es)) He)
      as (line & Hne & Hget & Hparse).
    cbn [read_scores_loop]. rewrite Hget.
    destruct line as [|c line]; [done|]. rewrite Hparse.
    assert (length (format_entry e) > 0)%nat as Hlen.
    { unfold format_entry. rewrite !length_app. simpl. lia. }
    rewrite length_app in Hfuel.
    destruct (Nat.ltb_spec (length out) MAX_QUIZ_QUESTIONS) as [Hlt|Hge].
    + rewrite IH; [|done|lia|rewrite length_app; simpl; lia].
      by rewrite <- app_assoc.
    + rewrite IH; [|done|lia|done].
      rewrite !take_app_le by lia. done.
Qed.

Lemma write_all_contents (fn : string) (es : list ScoreEntry) :
  forall (w : World),
  default [] (files (write_all fn es w) !! fn)
    = default [] (files w !! fn) ++ concat (map format_entry es).
Proof.
  unfold write_all.
  induction es as [|e es IH]; intros w; simpl.
  - by rewrite app_nil_r.
  - rewrite IH. unfold writeHighScore, file_append. simpl.
    rewrite lookup_insert_eq. simpl. by rewrite <- app_assoc.
Qed.

Lemma readHighScores_contents (fn : string) (w : World) :
  readHighScores fn w
    = let s := default [] (files w !! fn) in read_scores_loop (S (length s)) s [].
Proof. unfold readHighScores. by destruct (files w !! fn). Qed.

(** C4, as the code has it.  Written to a file that is absent or empty and
    read back, entries that the format can hold come back unchanged and in the
    order of writing, up to the 50 entries that [readHighScores] keeps. *)
Theorem highscore_roundtrip (fn : string) (entries : list ScoreEntry) (w : World) :
  default [] (files w !! fn) = [] ->
  Forall storable entries ->
  readHighScores fn (write_all fn entries w) = take MAX_QUIZ_QUESTIONS entries
  /\ ((length entries <= MAX_QUIZ_QUESTIONS)%nat ->
      readHighScores fn (write_all fn entries w) = entries).
Proof.
  intros Hfresh Hes.
  assert (readHighScores fn (write_all fn entries w) = take MAX_QUIZ_QUESTIONS entries) as E.
  { rewrite readHighScores_contents, write_all_contents, Hfresh. cbv zeta. simpl app.
    rewrite read_scores_loop_formatted; [done|done|lia|simpl; lia]. }
  split; [done|]. intros Hlen. rewrite E. by apply take_ge.
Qed.

Lemma highscore_roundtrip_witness :
  readHighScores highScoreFile (write_all highScoreFile [entry_ann; entry_ann] idle_world)
    = take MAX_QUIZ_QUESTIONS [entry_ann; entry_ann]
  /\ ((length [entry_ann; entry_ann] <= MAX_QUIZ_QUESTIONS)%nat ->
      readHighScores highScoreFile (write_all highScoreFile [entry_ann; entry_ann] idle_world)
        = [entry_ann; entry_ann]).
Proof.
  apply (highscore_roundtrip highScoreFile [entry_ann; entry_ann] idle_world).
  - reflexivity.
  - repeat constructor; apply (bool_decide_unpack _); by vm_compute.
Defined.

(** The claim as the spec words it fails twice: the reader keeps 50 entries
    at most, and a bar inside a name shifts the fields. *)
Lemma highscore_roundtrip_counterexample :
  readHighScores highScoreFile (write_all highScoreFile (replicate 51 entry_ann) idle_world)
    <> replicate 51 entry_ann
  /\ readHighScores highScoreFile (write_all highScoreFile [entry_bar] idle_world)
    <> [entry_bar].
Proof.
  split.
  - intros H. apply (f_equal length) in H. vm_compute in H. discriminate.
  - intros H. apply (f_equal (fun l => length (name (List.hd entry_ann l)))) in H.
    vm_compute in H. discriminate.
Qed.

(** ** What the question loops leave alone *)

Lemma frame_refl (st : Quiz) : frame st st.
Proof. by constructor. Qed.

Lemma frame_trans (a b c : Quiz) : frame a b -> frame b c -> frame a c.
Proof.
  intros [] []. constructor; try congruence; auto.
Qed.

Lemma files_shuffle_from (k : nat) : forall (arr : list Z) (w : World),
  files (shuffle_from k arr w).2 = files w.
Proof.
  induction k as [|k IH]; intros arr w; simpl; [done|]. by rewrite IH.
Qed.

Lemma files_shuffleIntArray (arr : list Z) (n : nat) (w : World) :
  files (shuffleIntArray arr n w).2 = files w.
Proof. apply files_shuffle_from. Qed.

Lemma files_shuffleOptions (qn : Question) (w : World) :
  files (shuffleOptions qn w).2 = files w.
Proof.
  unfold shuffleOptions.
  pose proof (files_shuffleIntArray [0; 1; 2; 3] 4 w) as H.
  by destruct (shuffleIntArray [0; 1; 2; 3] 4 w).
Qed.

Lemma files_apply5050 (qn : Question) (vis : list Z) (w : World) :
  files (apply5050 qn vis w).2 = files w.
Proof.
  unfold apply5050. set (wrongs := filter _ _).
  pose proof (files_shuffleIntArray wrongs (length wrongs) w) as H.
  by destruct (shuffleIntArray wrongs (length wrongs) w).
Qed.

Lemma files_replace_search (n : nat) (st : Quiz) : forall (w : World),
  files (replace_search n st w).2 = files w.
Proof.
  induction n as [|n IH]; intros w; simpl; [done|].
  case_bool_decide.
  - pose proof (files_shuffleOptions
      (at_index no_question (allQ st)
         ((Z.of_N (rand_src w (draws w)) mod (RAND_MAX + 1)) mod Z.of_nat (length (allQ st))))
      (set_draws w (S (draws w)))) as Hf.
    by destruct (shuffleOptions _ _).
  - by rewrite IH.
Qed.

Lemma files_getIntInRange_from (lines : list str) (minv maxv : Z) : forall (w : World),
  files (getIntInRange_from lines minv maxv w).2 = files w.
Proof.
  induction lines as [|s rest IH]; intros w; simpl; [done|].
  destruct (stoi s) as [v|]; [destruct (_ && _)|]; simpl; try done; by rewrite IH.
Qed.

Lemma files_getIntInRange (minv maxv : Z) (w : World) :
  files (getIntInRange minv maxv w).2 = files w.
Proof. apply files_getIntInRange_from. Qed.

(** Every call that threads the world is replaced by what it does to the
    files. *)
Ltac world_facts :=
  repeat match goal with
    | H : time_now ?w = (_, _) |- _ => unfold time_now in H; simplify_eq
    | H : apply5050 ?qn ?v ?w = (_, _, _) |- _ =>
        let F := fresh "Hfiles" in
        pose proof (files_apply5050 qn v w) as F; rewrite H in F; simpl in F; clear H
    | H : replace_search ?n ?st ?w = (_, _) |- _ =>
        let F := fresh "Hfiles" in
        pose proof (files_replace_search n st w) as F; rewrite H in F; simpl in F; clear H
    | H : getIntInRange ?a ?b ?w = (_, _) |- _ =>
        let F := fresh "Hfiles" in
        pose proof (files_getIntInRange a b w) as F; rewrite H in F; simpl in F; clear H
    end.

Ltac frame_done :=
  simpl;
  repeat match goal with
    | |- _ /\ _ => split
    | |- frame _ _ => constructor; simpl; try done; try by rewrite length_insert
    | |- userAns _ = _ =>
        unfold userAns; simpl; by apply nth_lookup_Some, list_lookup_insert_eq
    | |- files _ = files _ => simpl; congruence
    end; try done; try lia.

Lemma lifelineChoice_post (li : Z) (st : Quiz) (w : World) :
  slot_ok st ->
  let '(st', t, w') := lifelineChoice li st w in
  frame st st' /\ files w' = files w /\ tick_post st st' t /\ t <> KeepPolling.
Proof.
  intros Hslot. unfold lifelineChoice.
  repeat case_match; simplify_eq; world_facts; frame_done.
Qed.

Lemma lifelineMenu_post (st : Quiz) (w : World) :
  slot_ok st -> poll_post st w (lifelineMenu st w)
  /\ (forall st' w', lifelineMenu st w <> Done (st', KeepPolling) w').
Proof.
  intros Hslot. unfold lifelineMenu.
  destruct (time_now w) as [now w1] eqn:Hnow.
  set (st1 := set_remainingSeconds _ _).
  set (w8 := print _ _).
  destruct (getIntInRange 0 4 w8) as [[li|] w9] eqn:Hget.
  - assert (slot_ok st1) as Hslot1 by done.
    pose proof (lifelineChoice_post li st1 w9 Hslot1) as Hpost.
    destruct (lifelineChoice li st1 w9) as [[st2 t] w10].
    destruct Hpost as (Hfr & Hfiles & Htick & Hne).
    world_facts. split.
    + simpl. split; [|split].
      * eapply frame_trans; [|exact Hfr]. subst st1. by constructor.
      * rewrite Hfiles, Hfiles0. done.
      * destruct t as [| |[]]; simpl in *; try done.
    + intros st' w' E. by simplify_eq.
  - world_facts. split; [|done]. simpl. split; [|split]; try done.
Qed.

Lemma quickSkip_post (st : Quiz) (w : World) :
  slot_ok st ->
  let '(st', t, w') := quickSkip st w in
  frame st st' /\ files w' = files w /\ tick_post st st' t.
Proof.
  intros Hslot. unfold quickSkip. destruct (lif_skip st); frame_done.
Qed.

Lemma checkTimeout_post (st : Quiz) (w : World) :
  slot_ok st ->
  let '(st', t, w') := checkTimeout st w in
  frame st st' /\ files w' = files w /\ tick_post st st' t.
Proof.
  intros Hslot. unfold checkTimeout.
  repeat case_match; simplify_eq; world_facts; frame_done.
Qed.

Lemma files_pause (w : World) : files (pause w) = files w.
Proof. done. Qed.

Lemma endOfTurn_post (st st' : Quiz) (t : tick) (w w' : World) :
  poll_post st w (Done (st', t) w') -> poll_post st w (endOfTurn (st', t, w')).
Proof. by destruct t. Qed.

Lemma pollStep_post (st : Quiz) (w : World) :
  slot_ok st -> poll_post st w (pollStep st w).
Proof.
  intros Hslot. unfold pollStep.
  destruct (getNonBlockingKey w) as [k w1] eqn:Hkey.
  assert (files w1 = files w) as Hw1.
  { unfold getNonBlockingKey in Hkey. repeat case_match; by simplify_eq. }
  pose proof (checkTimeout_post st w1 Hslot) as Hto.
  destruct (checkTimeout st w1) as [[stt tt] wt].
  assert (poll_post st w (endOfTurn (stt, tt, wt))) as Hto'.
  { apply endOfTurn_post.
    simpl. destruct Hto as (? & ? & ?). split; [done|]. split; [congruence|done]. }
  destruct (negb (ascii_eqb k NUL)); [|done].
  destruct (_ && _) eqn:Hdigit.
  - unfold answerKey. repeat case_match; simplify_eq. world_facts. simpl.
    apply andb_true_iff in Hdigit as [?%Z.leb_le ?%Z.leb_le].
    frame_done.
  - destruct (_ || _).
    + destruct (lifelineMenu_post st w1 Hslot) as [Hpost _].
      destruct (lifelineMenu st w1) as [[st2 t2] w2|st2 w2]; simpl in *;
        destruct Hpost as (? & ? & ?); (split; [done|]); split; (congruence || done).
    + destruct (_ || _); [|done].
      pose proof (quickSkip_post st w1 Hslot) as Hqs.
      destruct (quickSkip st w1) as [[st1 t1] w2].
      destruct Hqs as (Hfr & Hf & Ht).
      destruct t1 as [| |o]; simpl in Ht.
      * assert (slot_ok st1) as Hslot1.
        { unfold slot_ok. by rewrite (fr_qCount _ _ Hfr), (fr_answers _ _ Hfr). }
        pose proof (checkTimeout_post st1 w2 Hslot1) as Hto1.
        destruct (checkTimeout st1 w2) as [[st3 t3] w3].
        destruct Hto1 as (Hfr3 & Hf3 & Ht3). apply endOfTurn_post. simpl.
        split; [by eapply frame_trans|]. split; [congruence|].
        destruct t3 as [| |[]]; simpl in *; unfold tally in *;
          repeat match goal with H : _ /\ _ |- _ => destruct H end;
          simplify_eq; repeat split; try congruence; try lia.
      * simpl. split; [done|]. split; [congruence|done].
      * simpl. split; [done|]. split; [congruence|done].
Qed.

Lemma tick_post_from (st0 st st' : Quiz) (t : tick) :
  tally st = tally st0 -> tick_post st st' t -> tick_post st0 st' t.
Proof.
  unfold tally. intros E H. simplify_eq.
  destruct t as [| |[]]; simpl in *; unfold tally in *;
    repeat match goal with H : _ /\ _ |- _ => destruct H end;
    simplify_eq; repeat split; congruence.
Qed.

Lemma tick_post_to (st st1 st2 : Quiz) (t : tick) :
  tally st2 = tally st1 -> userAns st2 = userAns st1 -> q st2 = q st1 ->
  tick_post st st1 t -> tick_post st st2 t.
Proof.
  intros E Hu Hq H.
  destruct t as [| |[]]; simpl in *; rewrite ?E, ?Hu, ?Hq; done.
Qed.

Lemma slot_ok_frame (st st' : Quiz) : frame st st' -> slot_ok st -> slot_ok st'.
Proof. intros Hfr. unfold slot_ok. by rewrite (fr_qCount _ _ Hfr), (fr_answers _ _ Hfr). Qed.

Lemma pollLoop_post (fuel : nat) : forall (st : Quiz) (w : World),
  slot_ok st ->
  poll_post st w (pollLoop fuel st w)
  /\ (forall st' w', pollLoop fuel st w <> Done (st', KeepPolling) w').
Proof.
  induction fuel as [|fuel IH]; intros st w Hslot; simpl.
  - split; [|done]. split; [apply frame_refl | done].
  - pose proof (pollStep_post st w Hslot) as Hstep.
    destruct (pollStep st w) as [[st1 t] w1|st1 w1]; [|done].
    destruct t as [| |o]; [|done..].
    destruct Hstep as (Hfr & Hf & Ht). simpl in Ht.
    destruct (IH st1 w1 (slot_ok_frame _ _ Hfr Hslot)) as [Hpost Hne].
    split; [|done].
    destruct (pollLoop fuel st1 w1) as [[st2 t2] w2|st2 w2]; simpl in *.
    + destruct Hpost as (Hfr2 & Hf2 & Ht2).
      split; [by eapply frame_trans|]. split; [congruence|].
      by eapply tick_post_from.
    + destruct Hpost as (Hfr2 & Hf2 & Ht2).
      split; [by eapply frame_trans|]. split; congruence.
Qed.

(** The save after the polling loop writes the counters as they are, and a
    zero for the remaining seconds once the question is completed. *)
Lemma autoSave_post (completed : bool) (st : Quiz) (w : World) :
  let '(st', w') := autoSave completed st w in
  frame st st' /\ tally st' = tally st /\ userAns st' = userAns st /\ q st' = q st
  /\ files w' !! saveFile st' = Some (progress_text (result st'))
  /\ r_score (result st') = score st'
  /\ (completed = true -> remainingSecondsForCurrent (result st') = 0).
Proof.
  unfold autoSave.
  repeat case_match; simplify_eq; world_facts; simpl;
    (split; [by constructor|]); repeat split; try done;
    unfold saveProgress, file_write; simpl; by rewrite lookup_insert_eq.
Qed.

Lemma files_display (st : Quiz) (w : World) : files (display st w) = files w.
Proof.
  unfold display, displayQuestionWithVisibleOptions, showRemainingSecondsLine. simpl.
  repeat case_match; done.
Qed.

Lemma questionLoop_post (fuel : nat) : forall (st : Quiz) (w : World),
  slot_ok st -> question_post st (questionLoop fuel st w).
Proof.
  induction fuel as [|fuel IH]; intros st w Hslot; simpl.
  - split; [apply frame_refl | done].
  - unfold drawAndPoll.
    destruct (pollLoop_post fuel st (display st w) Hslot) as [Hpost Hne].
    destruct (pollLoop fuel st (display st w)) as [[st1 t] w1|st1 w1];
      cbn [poll_post] in Hpost.
    + destruct Hpost as (Hfr & Hf & Ht). rewrite files_display in Hf.
      set (c := match t with Completed _ => true | _ => false end).
      pose proof (autoSave_post c st1 w1) as Hsave.
      destruct (autoSave c st1 w1) as [st2 w2].
      destruct Hsave as (Hfr2 & Hta & Hu & Hq & Hfile & _ & Hrem).
      assert (tick_post st st2 t) as Ht2 by (by eapply tick_post_to).
      assert (frame st st2) as Hfr02 by (by eapply frame_trans).
      destruct t as [| |o].
      * by destruct (Hne st1 w1).
      * specialize (IH st2 w2 (slot_ok_frame _ _ Hfr02 Hslot)).
        destruct (questionLoop fuel st2 w2) as [[st3 o3] w3|st3 w3];
          simpl in IH; simpl in Ht2; simpl.
        -- destruct IH as (Hfr3 & Ht3 & Hrest).
           split; [by eapply frame_trans|]. split; [|done].
           by eapply (tick_post_from st st2 st3 (Completed o3)).
        -- destruct IH as (Hfr3 & Ht3).
           split; [by eapply frame_trans|]. congruence.
      * simpl. split; [done|]. split; [done|]. split; [done|]. by apply Hrem.
    + destruct Hpost as (Hfr & Hf & Ht). done.
Qed.

(** ** Scoring *)

Lemma to_int_small (z : Z) : INT_MIN <= z <= INT_MAX -> to_int z = z.
Proof.
  unfold INT_MIN, INT_MAX. intros H. unfold to_int. apply wrap_small; lia.
Qed.

Lemma points_range (d : Z) : 10 <= points d <= 20.
Proof. unfold points. repeat case_match; lia. Qed.

Lemma penalty_range (d : Z) : 2 <= penalty d <= 5.
Proof. unfold penalty. repeat case_match; lia. Qed.

Lemma int_add_small (a b : Z) :
  -2000000 <= a <= 2000000 -> -100 <= b <= 100 -> int_add a b = a + b.
Proof. intros. unfold int_add. apply to_int_small. unfold INT_MIN, INT_MAX. lia. Qed.

Lemma int_sub_small (a b : Z) :
  -2000000 <= a <= 2000000 -> -100 <= b <= 100 -> int_sub a b = a - b.
Proof. intros. unfold int_sub. apply to_int_small. unfold INT_MIN, INT_MAX. lia. Qed.

Lemma evaluate_post (st : Quiz) (w : World) :
  within 1000100 (tally st) ->
  let '(st', w') := evaluate st w in
  frame st st' /\ result st' = result st /\ q st' = q st /\ files w' = files w
  /\ tally st' = if userAns st =? 0 then tally st
                 else scored (q st) (Answered (userAns st)) (tally st).
Proof.
  unfold within, tally. intros (Hsc & Hcc & Hwc & Hsk).
  pose proof (points_range (difficulty (q st))) as Hp.
  pose proof (penalty_range (difficulty (q st))) as Hq.
  unfold evaluate, scored, bonus.
  rewrite !(int_add_small (score st)), !(int_add_small (streak st)),
    !(int_add_small (correctCount st)), !(int_add_small (wrongCount st)),
    !(int_sub_small (score st)), !int_add_small by lia.
  repeat case_match; simplify_eq; simpl;
    (split; [by constructor|]); repeat split; try done;
    rewrite ?Z.add_0_r; try done; f_equal; lia.
Qed.

Lemma beginQuestion_post (st : Quiz) (w : World) :
  let '(st', w') := beginQuestion st w in
  frame st st' /\ tally st' = tally st /\ files w' = files w.
Proof.
  unfold beginQuestion. repeat case_match; simplify_eq; world_facts; simpl;
    (split; [constructor; simpl; try done; by rewrite length_insert|]); done.
Qed.

Lemma finishQuestion_post (st : Quiz) (w : World) :
  let '(st', w') := finishQuestion st w in
  tally st' = tally st /\ q st' = q st
  /\ saveFile st' = saveFile st /\ allQ st' = allQ st /\ qi st' = qi st
  /\ qCount (result st') = S (qCount (result st))
  /\ length (answers (result st')) = length (answers (result st))
  /\ playerName (result st') = playerName (result st)
  /\ lif_extra st' = lif_extra st
  /\ files w' !! saveFile st' = Some (progress_text (result st'))
  /\ (r_score (result st') = score st' /\ r_correct (result st') = correctCount st'
      /\ r_wrong (result st') = wrongCount st')
  /\ remainingSecondsForCurrent (result st') = remainingSecondsForCurrent (result st).
Proof.
  unfold finishQuestion. simpl. repeat split; try done.
  unfold saveProgress, file_write. simpl. by rewrite lookup_insert_eq.
Qed.

(** One question from its first line to the save that follows its
    evaluation. *)
Lemma runQuestion_post (fuel : nat) (st : Quiz) (w : World) :
  slot_ok st -> small (tally st) ->
  match runQuestion fuel st w with
  | Done (st', o) w' =>
      tally st' = scored (q st') o (tally st)
      /\ (o = Skipped \/ o = TimedOut \/ exists k, o = Answered k /\ 1 <= k <= 4)
      /\ saveFile st' = saveFile st /\ allQ st' = allQ st /\ qi st' = qi st
      /\ qCount (result st') = S (qCount (result st))
      /\ length (answers (result st')) = length (answers (result st))
      /\ playerName (result st') = playerName (result st)
      /\ (lif_extra st = false -> lif_extra st' = false)
      /\ files w' !! saveFile st' = Some (progress_text (result st'))
      /\ (r_score (result st') = score st' /\ r_correct (result st') = correctCount st'
          /\ r_wrong (result st') = wrongCount st')
      /\ remainingSecondsForCurrent (result st') = 0
  | Killed st' w' => frame st st' /\ tally st' = tally st
  end.
Proof.
  intros Hslot Hsmall. unfold runQuestion.
  pose proof (beginQuestion_post st w) as Hb.
  destruct (beginQuestion st w) as [st1 w1]. destruct Hb as (Hfr1 & Ht1 & Hf1).
  pose proof (questionLoop_post fuel st1 w1 (slot_ok_frame _ _ Hfr1 Hslot)) as Hq.
  destruct (questionLoop fuel st1 w1) as [[st2 o] w2|st2 w2]; cbn [question_post] in Hq.
  - destruct Hq as (Hfr2 & Htick & Hfile2 & Hrem2).
    assert (small (tally st1)) as Hsmall1 by (by rewrite Ht1).
    pose proof (penalty_range (difficulty (q st2))) as Hpen.
    assert (within 1000100 (tally st2) /\
            (if userAns st2 =? 0 then tally st2
             else scored (q st2) (Answered (userAns st2)) (tally st2))
            = scored (q st2) o (tally st1)
            /\ (o = Skipped \/ o = TimedOut \/ exists k, o = Answered k /\ 1 <= k <= 4))
      as (Hsmall2 & Hsc & Ho).
    { unfold small, within, tally in *. destruct Hsmall1 as (? & ? & ? & ?).
      destruct o as [k| |]; cbn [tick_post] in Htick.
      - destruct Htick as (E & Hu & Hk). injection E as -> -> -> ->. rewrite Hu.
        split; [lia|]. split; [|eauto].
        destruct (Z.eqb_spec k 0); [lia|done].
      - destruct Htick as (E & Hu). injection E as -> -> -> ->. rewrite Hu.
        simpl. split; [lia|]. eauto.
      - destruct Htick as (E & Hu). rewrite Hu.
        rewrite int_sub_small, int_add_small in E by lia.
        injection E as -> -> -> ->. simpl.
        split; [lia|]. eauto. }
    pose proof (evaluate_post st2 w2 Hsmall2) as He.
    destruct (evaluate st2 w2) as [st3 w3].
    destruct He as (Hfr3 & Hres3 & Hq3 & Hf3 & Ht3).
    pose proof (finishQuestion_post st3 w3) as Hfin.
    destruct (finishQuestion st3 w3) as [st4 w4].
    destruct Hfin as (Ht4 & Hq4 & Hs4 & Ha4 & Hi4 & Hc4 & Hl4 & Hn4 & Hx4 & Hfile4 & Hr4 & Hrem4).
    pose proof (frame_trans _ _ _ Hfr1 (frame_trans _ _ _ Hfr2 Hfr3)) as Hfr.
    destruct Hfr.
    split; [by rewrite Ht4, Hq4, Hq3, Ht3, Hsc, Ht1|].
    split; [done|].
    destruct Hr4 as (? & ? & ?).
    repeat split; try congruence.
    intros Hx. rewrite Hx4. auto.
  - destruct Hq as (Hfr2 & Ht2). split; [by eapply frame_trans | congruence].
Qed.

Lemma quizLoop_easy_run (n : nat) :
  forall (fuel : nat) (st : Quiz) (w : World) (st' : Quiz)
         (tr : list (Question * outcome)) (w' : World) (i : Z),
  quizLoop fuel n st w = Done (st', tr) w' ->
  (qCount (result st) + n <= length (answers (result st)))%nat ->
  0 <= i -> i + Z.of_nat n <= 1000 ->
  tally st = (easy_run_score i, i, 0, i) ->
  Forall (fun '(qn, o) =>
            difficulty qn = 1 /\ exists k, o = Answered k /\ k - 1 = correctIndex qn) tr ->
  tally st' = (easy_run_score (i + Z.of_nat n), i + Z.of_nat n, 0, i + Z.of_nat n).
Proof.
  induction n as [|n IH]; intros fuel st w st' tr w' i Hrun Hslot Hi Hn Htally Htr.
  - simpl in Hrun. simplify_eq. by rewrite Z.add_0_r.
  - cbn [quizLoop] in Hrun.
    assert (slot_ok st) as Hslot0 by (unfold slot_ok; lia).
    assert (small (tally st)) as Hsmall.
    { rewrite Htally. unfold small, within, easy_run_score. repeat case_match; lia. }
    pose proof (runQuestion_post fuel st w Hslot0 Hsmall) as Hq.
    destruct (runQuestion fuel st w) as [[st1 o] w1|]; [|done].
    destruct Hq as (Ht1 & _ & _ & _ & _ & Hc1 & Hl1 & _).
    destruct (quizLoop fuel n (set_qi st1 (S (qi st1))) w1) as [[st2 os] w2|] eqn:Hrest;
      [|done].
    simplify_eq. apply Forall_cons in Htr as [Hhd Hos].
    destruct Hhd as (Hd & k & -> & Hk).
    apply (IH _ _ _ _ _ _ (i + 1)) in Hrest; try done; try lia.
    + by replace (i + 1 + Z.of_nat n) with (i + Z.of_nat (S n)) in Hrest by lia.
    + simpl. lia.
    + change (tally (set_qi st1 (S (qi st1)))) with (tally st1).
      rewrite Ht1, Htally. unfold scored.
      apply Z.eqb_eq in Hk. rewrite Hk, Hd.
      unfold easy_run_score, points, bonus. simpl.
      repeat case_match; f_equal; try f_equal; try f_equal; lia.
Qed.

(** C1. A question answered correctly adds 10, 15 or 20 points for difficulty
    1, 2 or 3, adds one to [correctCount] and to [streak], and adds a bonus of
    5 when the streak reaches 3 and of 15 when it reaches 5.  Ten correct
    answers in a row at difficulty 1, from a fresh quiz, end with a score of
    120, ten correct and no wrong answers. *)
Theorem correct_answer_scoring :
  (forall (fuel : nat) (st : Quiz) (w : World) (st' : Quiz) (k : Z) (w' : World),
      runQuestion fuel st w = Done (st', Answered k) w' ->
      slot_ok st -> small (tally st) ->
      k - 1 = correctIndex (q st') ->
      let s := streak st + 1 in
      score st' = score st + points (difficulty (q st'))
                  + (if s =? 3 then 5 else if s =? 5 then 15 else 0)
      /\ correctCount st' = correctCount st + 1
      /\ streak st' = s
      /\ wrongCount st' = wrongCount st)
  /\ (points 1 = 10 /\ points 2 = 15 /\ points 3 = 20)
  /\ (forall (fuel : nat) (st : Quiz) (w : World) (st' : Quiz)
             (tr : list (Question * outcome)) (w' : World),
         quizLoop fuel 10 st w = Done (st', tr) w' ->
         (qCount (result st) + 10 <= length (answers (result st)))%nat ->
         tally st = (0, 0, 0, 0) ->
         Forall (fun '(qn, o) =>
                   difficulty qn = 1 /\
                   exists k, o = Answered k /\ k - 1 = correctIndex qn) tr ->
         score st' = 120 /\ correctCount st' = 10 /\ wrongCount st' = 0).
Proof.
  split; [|split; [done|]].
  - intros fuel st w st' k w' Hrun Hslot Hsmall Hk s.
    pose proof (runQuestion_post fuel st w Hslot Hsmall) as Hq.
    rewrite Hrun in Hq. destruct Hq as (Ht & _).
    unfold scored, tally, bonus in Ht.
    apply Z.eqb_eq in Hk. rewrite Hk in Ht. by simplify_eq.
  - intros fuel st w st' tr w' Hrun Hslot Htally Htr.
    pose proof (quizLoop_easy_run 10 fuel st w st' tr w' 0 Hrun Hslot
                  ltac:(lia) ltac:(lia) Htally Htr) as Hfin.
    unfold tally in Hfin. by simplify_eq.
Qed.

(** C2. A question that is answered wrongly or that times out takes 2, 3 or
    5 points for difficulty 1, 2 or 3, once, adds one to [wrongCount] and
    resets [streak]; a skipped question leaves the four counters alone. *)
Theorem wrong_timeout_skip_scoring
    (fuel : nat) (st : Quiz) (w : World) (st' : Quiz) (o : outcome) (w' : World) :
  runQuestion fuel st w = Done (st', o) w' ->
  slot_ok st -> small (tally st) ->
  let lost :=
    score st' = score st - penalty (difficulty (q st'))
    /\ correctCount st' = correctCount st
    /\ wrongCount st' = wrongCount st + 1
    /\ streak st' = 0 in
  match o with
  | TimedOut => lost
  | Answered k => k - 1 <> correctIndex (q st') -> lost
  | Skipped =>
      score st' = score st /\ correctCount st' = correctCount st
      /\ wrongCount st' = wrongCount st /\ streak st' = streak st
  end
  /\ (penalty 1 = 2 /\ penalty 2 = 3 /\ penalty 3 = 5).
Proof.
  intros Hrun Hslot Hsmall lost. split; [|done].
  pose proof (runQuestion_post fuel st w Hslot Hsmall) as Hq.
  rewrite Hrun in Hq. destruct Hq as (Ht & _).
  unfold scored, tally in Ht. subst lost.
  destruct o as [k| |].
  - intros Hk. apply Z.eqb_neq in Hk. rewrite Hk in Ht. by simplify_eq.
  - by simplify_eq.
  - by simplify_eq.
Qed.

Lemma correct_answer_scoring_witness :
  (exists st' w',
      runQuestion 3 sample_quiz (typing_world "2") = Done (st', Answered 2) w'
      /\ score st' = 10 /\ correctCount st' = 1 /\ streak st' = 1 /\ wrongCount st' = 0)
  /\ (exists st' tr w',
         quizLoop 3 10 sample_quiz (typing_world "2") = Done (st', tr) w'
         /\ score st' = 120 /\ correctCount st' = 10 /\ wrongCount st' = 0).
Proof.
  destruct correct_answer_scoring as (Hone & _ & Hten). split.
  - eexists _, _. split; [vm_compute; reflexivity|].
    eapply (Hone 3%nat sample_quiz (typing_world "2")).
    + vm_compute; reflexivity.
    + vm_compute; lia.
    + vm_compute; intuition discriminate.
    + reflexivity.
  - eexists _, _, _. split; [vm_compute; reflexivity|].
    eapply (Hten 3%nat sample_quiz (typing_world "2")).
    + vm_compute; reflexivity.
    + vm_compute; lia.
    + reflexivity.
    + repeat constructor; eexists; split; reflexivity.
Defined.

Lemma wrong_timeout_skip_scoring_witness :
  exists st' w',
    runQuestion 20 sample_quiz ticking_world = Done (st', TimedOut) w'
    /\ (score st' = 0 - penalty (difficulty (q st'))
        /\ correctCount st' = 0 /\ wrongCount st' = 0 + 1 /\ streak st' = 0)
    /\ (penalty 1 = 2 /\ penalty 2 = 3 /\ penalty 3 = 5).
Proof.
  eexists _, _. split; [vm_compute; reflexivity|].
  eapply (wrong_timeout_skip_scoring 20%nat sample_quiz ticking_world _ TimedOut).
  - vm_compute; reflexivity.
  - vm_compute; lia.
  - vm_compute; intuition discriminate.
Defined.

(** ** The polling loop and the lifelines *)

Lemma seconds_left_expired (st : Quiz) (now : Z) :
  endTime st <= now -> INT_MIN <= endTime st - now -> seconds_left st now = 0.
Proof.
  unfold INT_MIN. intros Hle Hge. unfold seconds_left, time_sub, to_time_t.
  rewrite wrap_small by lia. rewrite to_int_small by (unfold INT_MIN, INT_MAX; lia).
  destruct (Z.ltb_spec (endTime st - now) 0); [done | lia].
Qed.

(** C5. A key from 1 to 4 found by the poll ends the question as answered
    with that option, whatever the clock reads: the test of the clock comes
    after the key and is not reached.  When the time is up at that moment, the
    remaining seconds stored with the answer are 0. *)
Theorem answer_key_beats_expiry (st : Quiz) (w : World) (ch : ascii) (fuel : nat) :
  keyboard w (polls w) = KeyCode ch ->
  49 <= code ch <= 52 ->
  slot_ok st ->
  let k := code ch - 48 in
  let now := clock w (ticks w) in
  exists st' w',
    pollStep st w = Done (st', Completed (Answered k)) w'
    /\ pollLoop (S fuel) st w = Done (st', Completed (Answered k)) w'
    /\ userAns st' = k
    /\ tally st' = tally st
    /\ remainingSecondsForCurrent (result st') = seconds_left st now
    /\ (endTime st <= now -> INT_MIN <= endTime st - now ->
        remainingSecondsForCurrent (result st') = 0).
Proof.
  intros Hkey Hch Hslot k now.
  assert (pollStep st w
          = Done ((answerKey ch st (set_polls w (S (polls w)))).1, Completed (Answered k))
                 (answerKey ch st (set_polls w (S (polls w)))).2)
    as Hstep.
  { unfold pollStep, getNonBlockingKey. rewrite Hkey.
    assert ((code ch =? 0) || (code ch =? 224) = false) as ->.
    { apply orb_false_iff. split; apply Z.eqb_neq; lia. }
    assert (negb (ascii_eqb ch NUL) = true) as ->.
    { apply negb_true_iff, Ascii.eqb_neq. intros E. rewrite E in Hch.
      change (code NUL) with 0 in Hch. lia. }
    assert ((49 <=? code ch) && (code ch <=? 52) = true) as ->.
    { apply andb_true_iff. split; apply Z.leb_le; lia. }
    by destruct (answerKey ch st (set_polls w (S (polls w)))). }
  eexists _, _. split; [exact Hstep|].
  split; [cbn [pollLoop]; by rewrite Hstep|].
  unfold answerKey. simpl.
  split; [unfold userAns; simpl; by apply nth_lookup_Some, list_lookup_insert_eq|].
  split; [done|]. split; [done|].
  apply seconds_left_expired.
Qed.

Lemma answer_key_beats_expiry_witness :
  exists st' w',
    pollStep sample_quiz (typing_world "3") = Done (st', Completed (Answered 3)) w'
    /\ pollLoop 1 sample_quiz (typing_world "3") = Done (st', Completed (Answered 3)) w'
    /\ userAns st' = 3
    /\ tally st' = tally sample_quiz
    /\ remainingSecondsForCurrent (result st') = seconds_left sample_quiz 1000
    /\ (endTime sample_quiz <= 1000 -> INT_MIN <= endTime sample_quiz - 1000 ->
        remainingSecondsForCurrent (result st') = 0).
Proof.
  apply (answer_key_beats_expiry sample_quiz (typing_world "3") "3"%char 0%nat).
  - reflexivity.
  - vm_compute. intuition discriminate.
  - vm_compute. lia.
Defined.

Lemma lif_extra_evaluate (st : Quiz) (w : World) :
  lif_extra (evaluate st w).1 = lif_extra st.
Proof. unfold evaluate. by repeat case_match. Qed.

Lemma runQuestion_extra (fuel : nat) (st : Quiz) (w : World) :
  slot_ok st -> lif_extra st = false ->
  match runQuestion fuel st w with
  | Done (st', _) _ => lif_extra st' = false
  | Killed st' _ => lif_extra st' = false
  end.
Proof.
  intros Hslot Hx. unfold runQuestion.
  pose proof (beginQuestion_post st w) as Hb.
  destruct (beginQuestion st w) as [st1 w1]. destruct Hb as (Hfr1 & _).
  pose proof (questionLoop_post fuel st1 w1 (slot_ok_frame _ _ Hfr1 Hslot)) as Hq.
  destruct (questionLoop fuel st1 w1) as [[st2 o] w2|st2 w2]; cbn [question_post] in Hq.
  - destruct Hq as (Hfr2 & _).
    pose proof (lif_extra_evaluate st2 w2) as He.
    destruct (evaluate st2 w2) as [st3 w3]. simpl in He.
    simpl. rewrite He. apply (fr_extra _ _ Hfr2), (fr_extra _ _ Hfr1), Hx.
  - destruct Hq as (Hfr2 & _). apply (fr_extra _ _ Hfr2), (fr_extra _ _ Hfr1), Hx.
Qed.

Lemma quizLoop_extra (n : nat) : forall (fuel : nat) (st : Quiz) (w : World),
  (qCount (result st) + n <= length (answers (result st)))%nat ->
  lif_extra st = false ->
  match quizLoop fuel n st w with
  | Done (st', _) _ => lif_extra st' = false
  | Killed st' _ => lif_extra st' = false
  end.
Proof.
  induction n as [|n IH]; intros fuel st w Hslot Hx; simpl; [done|].
  assert (slot_ok st) as Hslot0 by (unfold slot_ok; lia).
  pose proof (runQuestion_extra fuel st w Hslot0 Hx) as Hq.
  assert (match runQuestion fuel st w with
          | Done (st', _) _ =>
              qCount (result st') = S (qCount (result st))
              /\ length (answers (result st')) = length (answers (result st))
          | Killed _ _ => True
          end) as Hc.
  { unfold runQuestion.
    pose proof (beginQuestion_post st w) as Hb.
    destruct (beginQuestion st w) as [st1 w1]. destruct Hb as (Hfr1 & _).
    pose proof (questionLoop_post fuel st1 w1 (slot_ok_frame _ _ Hfr1 Hslot0)) as Hq2.
    destruct (questionLoop fuel st1 w1) as [[st2 o] w2|st2 w2]; [|done].
    destruct Hq2 as (Hfr2 & _).
    assert (result (evaluate st2 w2).1 = result st2) as He
      by (unfold evaluate; by repeat case_match).
    destruct (evaluate st2 w2) as [st3 w3]. simpl in *.
    rewrite He, (fr_qCount _ _ Hfr2), (fr_qCount _ _ Hfr1),
      (fr_answers _ _ Hfr2), (fr_answers _ _ Hfr1). done. }
  destruct (runQuestion fuel st w) as [[st1 o] w1|]; [|done].
  destruct Hc as [Hc Hl].
  specialize (IH fuel (set_qi st1 (S (qi st1))) w1).
  simpl in IH. rewrite Hc, Hl in IH. specialize (IH ltac:(lia) Hq).
  by destruct (quizLoop fuel n (set_qi st1 (S (qi st1))) w1) as [[st2 os] w2|].
Qed.

(** C8. Chosen in the lifeline menu while it is still available, ExtraTime
    is refused with a notice when no second remains, and the lifeline stays
    available; with time left it is marked used, adds 10 to
    [remainingSeconds] and sets [endTime] to the clock plus the new remaining
    seconds.  Once used it is refused for all later questions of the quiz. *)
Theorem extra_time_lifeline :
  (forall (st : Quiz) (w : World),
      lif_extra st = true -> remainingSeconds st = 0 ->
      lifelineChoice 4 st w
        = (st, Redraw,
           print (lit "Cannot use Extra Time: question already expired." ++ [NL]) w))
  /\ (forall (st : Quiz) (w : World),
         lif_extra st = true ->
         0 < remainingSeconds st <= INT_MAX - EXTRA_TIME_AMOUNT ->
         let now := clock w (ticks w) in
         0 <= now < 2 ^ 62 ->
         exists st' w',
           lifelineChoice 4 st w = (st', Redraw, w')
           /\ lif_extra st' = false
           /\ remainingSeconds st' = remainingSeconds st + 10
           /\ endTime st' = now + remainingSeconds st'
           /\ tally st' = tally st /\ q st' = q st
           /\ lif_5050 st' = lif_5050 st /\ lif_skip st' = lif_skip st
           /\ lif_replace st' = lif_replace st)
  /\ (forall (st : Quiz) (w : World),
         lif_extra st = false ->
         lifelineChoice 4 st w
           = (st, Redraw, print (lit "Extra Time already used." ++ [NL]) w))
  /\ (forall (fuel n : nat) (st : Quiz) (w : World),
         lif_extra st = false ->
         (qCount (result st) + n <= length (answers (result st)))%nat ->
         match quizLoop fuel n st w with
         | Done (st', _) _ => lif_extra st' = false
         | Killed st' _ => lif_extra st' = false
         end).
Proof.
  split; [|split; [|split]].
  - intros st w Hx Hrem. unfold lifelineChoice. simpl. by rewrite Hx, Hrem.
  - intros st w Hx Hrem now Hnow. unfold lifelineChoice. simpl. rewrite Hx. simpl.
    destruct (Z.leb_spec (remainingSeconds st) 0); [lia|].
    eexists _, _. split; [reflexivity|]. simpl.
    assert (int_add (remainingSeconds st) EXTRA_TIME_AMOUNT = remainingSeconds st + 10) as ->.
    { unfold int_add. apply to_int_small.
      unfold INT_MIN, INT_MAX, EXTRA_TIME_AMOUNT in *. lia. }
    repeat split; try done.
    unfold time_add, to_time_t. apply wrap_small; [lia|].
    unfold INT_MAX, EXTRA_TIME_AMOUNT in *. subst now. lia.
  - intros st w Hx. unfold lifelineChoice. simpl. by rewrite Hx.
  - intros fuel n st w Hx Hslot. by apply quizLoop_extra.
Qed.

Lemma extra_time_lifeline_witness :
  lifelineChoice 4 (set_remainingSeconds lone_quiz 0) idle_world
    = (set_remainingSeconds lone_quiz 0, Redraw,
       print (lit "Cannot use Extra Time: question already expired." ++ [NL]) idle_world)
  /\ (exists st' w',
         lifelineChoice 4 lone_quiz idle_world = (st', Redraw, w')
         /\ lif_extra st' = false
         /\ remainingSeconds st' = 7 + 10
         /\ endTime st' = 1000 + remainingSeconds st'
         /\ lifelineChoice 4 st' w'
            = (st', Redraw, print (lit "Extra Time already used." ++ [NL]) w')).
Proof.
  destruct extra_time_lifeline as (Hrefuse & Hgrant & Hused & _). split.
  - apply Hrefuse; reflexivity.
  - destruct (Hgrant lone_quiz idle_world) as (st' & w' & E & Hx & Hr & He & _).
    + reflexivity.
    + vm_compute. intuition discriminate.
    + vm_compute. intuition discriminate.
    + exists st', w'. repeat split; try done. by apply Hused.
Defined.

(** ** The Replace lifeline *)

Lemma replace_search_none (n : nat) (st : Quiz) : forall (w : World),
  (forall i : Z, text (at_index no_question (allQ st) i) = text (q st)) ->
  (replace_search n st w).1 = None.
Proof.
  induction n as [|n IH]; intros w Hsame; simpl; [done|].
  rewrite bool_decide_eq_false_2; [by apply IH|].
  intros Hne. apply Hne, Hsame.
Qed.

(** When every question of the bank has the text of the current one, Replace
    prints its notice and stays consumed: the next attempt is turned down. *)
Lemma replace_without_alternative (st : Quiz) (w : World) :
  lif_replace st = true ->
  (forall i : Z, text (at_index no_question (allQ st) i) = text (q st)) ->
  exists st' w',
    lifelineChoice 3 st w = (st', Redraw, w')
    /\ lif_replace st' = false
    /\ q st' = q st
    /\ last (console w') = Some (lit "No replacement found." ++ [NL])
    /\ lifelineChoice 3 st' w'
       = (st', Redraw, print (lit "Replace already used." ++ [NL]) w').
Proof.
  intros Hr Hsame. unfold lifelineChoice at 1. simpl. rewrite Hr. simpl.
  pose proof (replace_search_none (length (allQ st)) (set_lif_replace st false) w Hsame) as Hnone.
  destruct (replace_search _ _ w) as [found w1]. simpl in Hnone. subst found.
  eexists _, _. split; [reflexivity|]. simpl.
  split; [done|]. split; [done|]. split; [by rewrite last_snoc|].
  unfold lifelineChoice. simpl. done.
Qed.

(** C3, on a bank of one question: after Replace has found no other
    question, the notice is printed, the lifeline is marked used, and a second
    attempt is refused as already used. *)
Theorem replace_not_refunded :
  let '(st', t, w') := lifelineChoice 3 lone_quiz idle_world in
  lif_replace lone_quiz = true
  /\ t = Redraw
  /\ console w' = [lit "No replacement found." ++ [NL]]
  /\ lif_replace st' = false
  /\ console (lifelineChoice 3 st' w').2
     = [lit "No replacement found." ++ [NL]; lit "Replace already used." ++ [NL]].
Proof. vm_compute. repeat split. Qed.

Lemma at_index_elem (allQ : list Question) (i : Z) :
  0 <= i < Z.of_nat (length allQ) -> at_index no_question allQ i ∈ allQ.
Proof.
  intros Hi. unfold at_index.
  destruct (lookup_lt_is_Some_2 allQ (Z.to_nat i)) as [b Hb]; [lia|].
  rewrite (nth_lookup_Some _ _ _ _ Hb). by eapply list_elem_of_lookup_2.
Qed.

Lemma copy_and_shuffle_keeps (allQ : list Question) (chosen : list Z) :
  forall (w : World),
  Forall well_formed allQ ->
  Forall (fun i => 0 <= i < Z.of_nat (length allQ)) chosen ->
  Forall2 (fun i qn => correct_kept (at_index no_question allQ i) qn)
          chosen (copy_and_shuffle allQ chosen w).1.
Proof.
  intros w Hwf Hch. revert w.
  induction Hch as [|i chosen Hi Hch IH]; intros w; cbn [copy_and_shuffle];
    [constructor|].
  pose proof (shuffleOptions_keeps (at_index no_question allQ i) w) as Hk.
  destruct (shuffleOptions (at_index no_question allQ i) w) as [qn w1].
  specialize (IH w1). destruct (copy_and_shuffle allQ chosen w1) as [qs w2].
  cbn [fst] in *. constructor; [|done].
  apply Hk. rewrite Forall_forall in Hwf. by apply Hwf, at_index_elem.
Qed.

Lemma replace_search_found (n : nat) (st : Quiz) :
  forall (w : World) (cand : Question) (w' : World),
  allQ st <> [] ->
  replace_search n st w = (Some cand, w') ->
  exists (b : Question) (w1 : World),
    b ∈ allQ st /\ text b <> text (q st) /\ cand = (shuffleOptions b w1).1.
Proof.
  induction n as [|n IH]; intros w cand w' Hne Hs; [done|].
  cbn [replace_search] in Hs. unfold rand in Hs. cbv beta iota zeta in Hs.
  case_bool_decide as Htext.
  - set (i := _ mod Z.of_nat (length (allQ st))) in *.
    set (w1 := set_draws w (S (draws w))) in *.
    exists (at_index no_question (allQ st) i), w1.
    split; [|split; [done|]].
    + apply at_index_elem. subst i. apply Z.mod_pos_bound.
      destruct (allQ st); [done|simpl; lia].
    + destruct (shuffleOptions (at_index no_question (allQ st) i) w1). by simplify_eq.
  - by eapply IH.
Qed.

(** C6. Wherever the program shuffles the options of a question -- when the
    quiz is put together and in the Replace lifeline, each time on a fresh copy
    from the bank -- the option under the new [correctIndex] is the text that
    the bank has under [originalCorrectIndex]. *)
Theorem shuffled_options_keep_correct :
  (forall (b : Question) (w : World),
      well_formed b -> correct_kept b (shuffleOptions b w).1)
  /\ (forall (allQ : list Question) (chosen : list Z) (w : World),
         Forall well_formed allQ ->
         Forall (fun i => 0 <= i < Z.of_nat (length allQ)) chosen ->
         Forall2 (fun i qn => correct_kept (at_index no_question allQ i) qn)
                 chosen (copy_and_shuffle allQ chosen w).1)
  /\ (forall (st : Quiz) (w : World),
         lif_replace st = true ->
         Forall well_formed (allQ st) -> allQ st <> [] ->
         (qi st < length (quizQuestions st))%nat ->
         let st' := (lifelineChoice 3 st w).1.1 in
         q st' = q st
         \/ exists b : Question,
              b ∈ allQ st /\ text b <> text (q st) /\ correct_kept b (q st')).
Proof.
  split; [apply shuffleOptions_keeps|]. split; [apply copy_and_shuffle_keeps|].
  intros st w Hr Hwf Hne Hqi. unfold lifelineChoice. simpl. rewrite Hr. simpl.
  destruct (replace_search (length (allQ st)) (set_lif_replace st false) w)
    as [[cand|] w1] eqn:Hs; simpl; [|by left].
  right.
  destruct (replace_search_found _ (set_lif_replace st false) _ _ _ Hne Hs)
    as (b & w0 & Hb & Htext & ->).
  exists b. split; [done|]. split; [done|].
  unfold q at 1. simpl.
  rewrite (nth_lookup_Some _ _ _ (shuffleOptions b w0).1)
    by (by apply list_lookup_insert_eq).
  apply shuffleOptions_keeps. rewrite Forall_forall in Hwf. by apply Hwf.
Qed.

Lemma shuffled_options_keep_correct_witness :
  correct_kept lone_question (shuffleOptions lone_question idle_world).1
  /\ Forall2 (fun i qn => correct_kept (at_index no_question sample_bank i) qn)
             [3; 0; 7] (copy_and_shuffle sample_bank [3; 0; 7] idle_world).1
  /\ (let st' := (lifelineChoice 3 sample_quiz idle_world).1.1 in
      q st' = q sample_quiz
      \/ exists b : Question,
           b ∈ allQ sample_quiz /\ text b <> text (q sample_quiz)
           /\ correct_kept b (q st')).
Proof.
  destruct shuffled_options_keep_correct as (Hone & Hall & Hrep).
  split; [|split].
  - apply Hone. vm_compute. intuition discriminate.
  - apply Hall.
    + repeat constructor; vm_compute; intuition discriminate.
    + repeat constructor; vm_compute; intuition discriminate.
  - apply Hrep.
    + reflexivity.
    + repeat constructor; vm_compute; intuition discriminate.
    + discriminate.
    + vm_compute. lia.
Defined.

Lemma apply5050_two_visible_witness :
  exists (a b : Z) (tl : list Z),
    (apply5050 lone_question [0; 1; 2; 3] idle_world).1 = (a :: b :: tl, 2) /\
    a < b /\
    (exists wrong : Z,
        0 <= wrong < 4 /\ wrong <> correctIndex lone_question /\
        ((a = correctIndex lone_question /\ b = wrong)
         \/ (a = wrong /\ b = correctIndex lone_question)) /\
        forall i : Z,
          is_visible (a :: b :: tl) 2 i = true
          <-> i = correctIndex lone_question \/ i = wrong).
Proof.
  apply (apply5050_two_visible lone_question [0; 1; 2; 3] idle_world).
  - vm_compute. intuition discriminate.
  - reflexivity.
Defined.

(** ** Resume *)

Lemma getIntInRange_from_frame (lines : list str) (minv maxv : Z) : forall (w : World),
  let w' := (getIntInRange_from lines minv maxv w).2 in
  files w' = files w /\ draws w' = draws w /\ ticks w' = ticks w /\ polls w' = polls w.
Proof.
  induction lines as [|s rest IH]; intros w; cbn [getIntInRange_from]; [done|].
  set (w1 := print _ (set_stdin w rest)).
  destruct (IH w1) as (E1 & E2 & E3 & E4).
  destruct (stoi s) as [v|]; [destruct (_ && _)|]; cbv zeta;
    rewrite ?E1, ?E2, ?E3, ?E4; done.
Qed.

(** Whatever the progress file and the input are, the Resume branch leaves
    the files, the random source, the clock and the keyboard untouched. *)
Lemma resumeBranch_frame (v : World) :
  match resumeBranch v with
  | Returned v' | Stuck v' =>
      files v' = files v /\ draws v' = draws v /\ ticks v' = ticks v /\ polls v' = polls v
  end.
Proof.
  unfold resumeBranch.
  destruct (loadProgress saveFileName fresh_result v) as [r|]; [|done].
  pose proof (getIntInRange_from_frame (stdin (resume_prompts r v)) 1 5
                (resume_prompts r v)) as H.
  fold (getIntInRange 1 5 (resume_prompts r v)) in H.
  by destruct (getIntInRange 1 5 (resume_prompts r v)) as [[cat|] v2].
Qed.

(** C10. With a progress file that loads, the Resume entry of the menu
    prints the saved name and score, asks for a category, prints the saved
    remaining seconds and a note, and goes back to the menu.  It calls nothing
    else: the three chunks printed after the category is read are the only
    output, no random number is drawn, the clock and the keyboard are not
    read and no file changes -- in this and in every other run of the branch --
    so no quiz is started and the saved state goes nowhere. *)
Theorem resume_is_informational
    (turns fuel : nat) (w0 w : World) (r : QuizResult) (cat : Z) (w2 : World) :
  getIntInRange 1 4 (print menu_text (print banner w0)) = (Some 3, w) ->
  loadProgress saveFileName fresh_result w = Some r ->
  getIntInRange 1 5 (resume_prompts r w) = (Some cat, w2) ->
  (exists w' : World,
      resumeBranch w = Returned w'
      /\ menuTurn fuel w0 = (true, Returned w')
      /\ mainLoop (S turns) fuel w0 = mainLoop turns fuel w'
      /\ console (resume_prompts r w)
         = console w ++ [resume_report r;
                         lit "This simplified resume will restore your name, score, and remaining seconds for the next question." ++ [NL];
                         lit "To continue, select category to play (pick the same category you used earlier if possible)." ++ [NL];
                         category_menu]
      /\ console w'
         = console w2 ++ [resume_remaining r;
                          lit "Press Enter to start resumed quiz...";
                          resume_note]
      /\ stdin w' = tail (tail (stdin w2))
      /\ files w' = files w0 /\ draws w' = draws w0
      /\ ticks w' = ticks w0 /\ polls w' = polls w0)
  /\ (forall v : World,
         match resumeBranch v with
         | Returned v' | Stuck v' =>
             files v' = files v /\ draws v' = draws v
             /\ ticks v' = ticks v /\ polls v' = polls v
         end).
Proof.
  intros Hchoice Hload Hcat. split; [|apply resumeBranch_frame].
  assert (resumeBranch w
          = Returned (cin_ignore (print resume_note
              (cin_ignore (print (lit "Press Enter to start resumed quiz...")
                 (print (resume_remaining r) w2)))))) as Hres.
  { unfold resumeBranch. by rewrite Hload, Hcat. }
  eexists. split; [exact Hres|].
  assert (menuTurn fuel w0 = (true, resumeBranch w)) as Hturn.
  { unfold menuTurn. by rewrite Hchoice. }
  split; [by rewrite Hturn, Hres|].
  split; [cbn [mainLoop]; by rewrite Hturn, Hres|].
  split; [unfold resume_prompts, print; simpl; by rewrite <- !app_assoc|].
  split; [unfold print; simpl; by rewrite <- !app_assoc|].
  split; [done|].
  pose proof (getIntInRange_from_frame (stdin (print menu_text (print banner w0))) 1 4
                (print menu_text (print banner w0))) as H1.
  pose proof (getIntInRange_from_frame (stdin (resume_prompts r w)) 1 5
                (resume_prompts r w)) as H2.
  fold (getIntInRange 1 4 (print menu_text (print banner w0))) in H1.
  fold (getIntInRange 1 5 (resume_prompts r w)) in H2.
  rewrite Hchoice in H1. rewrite Hcat in H2. simpl in H1, H2.
  destruct H1 as (? & ? & ? & ?), H2 as (? & ? & ? & ?).
  simpl. repeat split; congruence.
Qed.

Lemma resume_is_informational_witness :
  exists w' : World,
    menuTurn 0 resume_world = (true, Returned w')
    /\ mainLoop 1 0 resume_world = mainLoop 0 0 w'
    /\ last (console w') = Some resume_note
    /\ files w' = files resume_world /\ draws w' = 0%nat
    /\ ticks w' = 0%nat /\ polls w' = 0%nat.
Proof.
  edestruct (resume_is_informational 0 0 resume_world)
    as [(w' & _ & Hturn & Hmain & _ & Hout & _ & Hrest) _].
  - vm_compute. reflexivity.
  - vm_compute. reflexivity.
  - vm_compute. reflexivity.
  - exists w'. split; [exact Hturn|]. split; [exact Hmain|].
    split; [|exact Hrest]. rewrite Hout. vm_compute. reflexivity.
Defined.

(** ** The progress file is read back *)

Lemma getline_line (l rest : str) :
  NL ∉ l -> getline (l ++ NL :: rest) = Some (l, rest).
Proof.
  intros Hnl. unfold getline. rewrite read_line_app by done.
  by destruct l.
Qed.

Lemma print_ints_no_nl (l : list Z) : NL ∉ print_ints l.
Proof.
  unfold print_ints. change (lit " ") with [SPACE].
  induction l as [|a l IH]; simpl; [apply not_elem_of_nil|].
  rewrite !elem_of_app, elem_of_cons, elem_of_nil.
  destruct (print_int_no_bar_nl a) as [_ Ha].
  intros [[?|[?|[]]]|?]; done.
Qed.

Lemma scan_int_space (s : str) : scan_int (SPACE :: s) = scan_int s.
Proof. done. Qed.

Lemma saturate64_small (z : Z) : - 2 ^ 63 <= z < 2 ^ 63 -> saturate64 z = z.
Proof. unfold saturate64. lia. Qed.

Lemma scanf_d_small (z : Z) : in_int_range z = true -> scanf_d z = z.
Proof.
  unfold in_int_range, INT_MIN, INT_MAX.
  intros [?%Z.leb_le ?%Z.leb_le]%andb_true_iff.
  unfold scanf_d. rewrite saturate64_small by lia.
  apply to_int_small. unfold INT_MIN, INT_MAX. lia.
Qed.

Lemma scanf_lld_small (z : Z) : - 2 ^ 63 <= z < 2 ^ 63 -> scanf_lld z = z.
Proof. apply saturate64_small. Qed.

Lemma scan4_totals_line (r : QuizResult) :
  scan4 (totals_line r)
    = Some (scanf_d (r_score r), scanf_d (r_correct r), scanf_d (r_wrong r),
            scanf_lld (timestamp r)).
Proof.
  unfold scan4, totals_line.
  rewrite scan_int_print_int by done. rewrite scan_int_space.
  rewrite scan_int_print_int by done. rewrite scan_int_space.
  rewrite scan_int_print_int by done. rewrite scan_int_space.
  rewrite <- (app_nil_r (print_int (timestamp r))).
  by rewrite scan_int_print_int.
Qed.

Lemma totals_line_no_nl (r : QuizResult) : NL ∉ totals_line r.
Proof.
  unfold totals_line.
  repeat (rewrite elem_of_app || rewrite elem_of_cons).
  pose proof (print_int_no_bar_nl (r_score r)) as [_ ?].
  pose proof (print_int_no_bar_nl (r_correct r)) as [_ ?].
  pose proof (print_int_no_bar_nl (r_wrong r)) as [_ ?].
  pose proof (print_int_no_bar_nl (timestamp r)) as [_ ?].
  assert (NL <> SPACE) by done. tauto.
Qed.

Lemma progress_text_lines (r : QuizResult) :
  progress_text r
    = playerName r ++ NL :: totals_line r
        ++ NL :: print_ints (take (qCount r) (answers r))
        ++ NL :: print_ints (take (qCount r) (questionIndices r))
        ++ NL :: print_int (remainingSecondsForCurrent r) ++ [NL].
Proof.
  unfold progress_text, totals_line. change (lit " ") with [SPACE].
  repeat (rewrite <- ?app_assoc; simpl app). done.
Qed.



Lemma wrap_range (bits z : Z) :
  0 < bits -> - 2 ^ (bits - 1) <= wrap bits z < 2 ^ (bits - 1).
Proof.
  intros Hb. unfold wrap.
  assert (2 ^ bits = 2 * 2 ^ (bits - 1)) as E.
  { rewrite <- Z.pow_succ_r by lia. f_equal. lia. }
  assert (0 < 2 ^ (bits - 1)) by (apply Z.pow_pos_nonneg; lia).
  pose proof (Z.mod_pos_bound (z + 2 ^ (bits - 1)) (2 ^ bits)). lia.
Qed.





Lemma evaluate_files (st : Quiz) (w : World) : files (evaluate st w).2 = files w.
Proof.
  unfold evaluate. destruct (userAns st =? 0); [done|].
  destruct (_ =? correctIndex _); [|done].
  destruct (_ =? 3); [done|]. by destruct (_ =? 5).
Qed.




(** The time-out of the fifth question, run.  Four questions are answered
    for 45 points and the fifth is left to time out: when the question loop
    is left, and until the question is closed, the file on disk shows 43
    points and still four recorded questions. *)
Example fifth_question_times_out :
  exists (st4 : Quiz) (tr : list (Question * outcome)) (w4 : World)
         (st5 : Quiz) (w5 : World),
    quizLoop 3 4 sample_quiz crash_world = Done (st4, tr) w4
    /\ score st4 = 45
    /\ (let '(stb, wb) := beginQuestion st4 w4 in questionLoop 200 stb wb)
       = Done (st5, TimedOut) w5
    /\ files (evaluate st5 w5).2 !! saveFileName
       = Some (lit "Ann" ++ [NL] ++ lit "43 4 1 1012" ++ [NL] ++ lit "2 2 2 2 " ++ [NL]
                 ++ lit "0 1 2 3 " ++ [NL] ++ lit "0" ++ [NL]).
Proof.
  eexists _, _, _, _, _. split; [vm_compute; reflexivity|].
  split; [reflexivity|]. split; [vm_compute; reflexivity|].
  vm_compute. reflexivity.
Qed.


(** ** The questions of a quiz come from the bank *)

Lemma iota_range (n : nat) (i : Z) : i ∈ iota n -> 0 <= i < Z.of_nat n.
Proof.
  unfold iota. rewrite list_elem_of_fmap. intros (k & -> & Hk).
  apply elem_of_seq in Hk. lia.
Qed.

Lemma make_pool_range (allQ : list Question) (diff i : Z) :
  i ∈ make_pool allQ diff -> 0 <= i < Z.of_nat (length allQ).
Proof.
  unfold make_pool. case_match.
  - apply iota_range.
  - intros [_ Hin]%list_elem_of_filter. by apply iota_range.
Qed.

(** The indices that [startQuiz] hands to [copy_and_shuffle] lie inside the
    bank, as the second part of C6 asks. *)
Lemma chosen_in_range (allQ : list Question) (diff : Z) (n : nat) (w : World) :
  let pool := make_pool allQ diff in
  Forall (fun i => 0 <= i < Z.of_nat (length allQ))
         (take n (shuffleIntArray pool (length pool) w).1).
Proof.
  intros pool. apply Forall_take, Forall_forall. intros i Hi.
  rewrite (shuffleIntArray_perm pool (length pool) w ltac:(lia)) in Hi.
  by eapply make_pool_range.
Qed.

(** * Further properties of the code *)

(** ** Shuffles *)

Lemma shuffle_from_world (k : nat) : forall (arr : list Z) (w : World),
  (shuffle_from k arr w).2 = set_draws w (draws w + k).
Proof.
  induction k as [|k IH]; intros arr w; simpl.
  - destruct w. unfold set_draws. simpl. f_equal. lia.
  - rewrite IH. unfold set_draws. simpl. f_equal. lia.
Qed.

(** X1. [shuffleIntArray] on the first [n] cells of an array rearranges its
    elements: none is lost, none is added.  It draws [n - 1] random numbers
    and touches nothing else of the world. *)
Theorem shuffleIntArray_rearranges (arr : list Z) (n : nat) (w : World) :
  (n <= length arr)%nat ->
  let '(arr', w') := shuffleIntArray arr n w in
  arr' ≡ₚ arr
  /\ length arr' = length arr
  /\ w' = set_draws w (draws w + (n - 1)).
Proof.
  intros Hn.
  pose proof (shuffleIntArray_perm arr n w Hn) as Hp.
  pose proof (shuffle_from_world (n - 1) arr w) as Hw.
  fold (shuffleIntArray arr n w) in Hw.
  destruct (shuffleIntArray arr n w) as [arr' w']. simpl in *.
  split; [done|]. split; [by rewrite Hp | done].
Qed.

Lemma shuffleIntArray_rearranges_witness :
  let '(arr', w') := shuffleIntArray [10; 20; 30; 40; 50] 5 idle_world in
  arr' ≡ₚ [10; 20; 30; 40; 50]
  /\ length arr' = length [10; 20; 30; 40; 50]
  /\ w' = set_draws idle_world (draws idle_world + (5 - 1)).
Proof.
  apply (shuffleIntArray_rearranges [10; 20; 30; 40; 50] 5 idle_world).
  simpl. lia.
Defined.

(** X2. [shuffleOptions] keeps the four option texts, in some order, and the
    text, difficulty and original index of the question.  The new
    [correctIndex] is always one of the four slots; when the original index
    names no option it is slot 0. *)
Theorem shuffleOptions_rearranges (qn : Question) (w : World) :
  length (options qn) = 4%nat ->
  let qn' := (shuffleOptions qn w).1 in
  options qn' ≡ₚ options qn
  /\ text qn' = text qn /\ difficulty qn' = difficulty qn
  /\ originalCorrectIndex qn' = originalCorrectIndex qn
  /\ 0 <= correctIndex qn' < 4
  /\ (~ (0 <= originalCorrectIndex qn < 4) -> correctIndex qn' = 0).
Proof.
  intros Hlen qn'.
  pose proof (shuffleOptions_correctIndex_range qn w) as Hrange.
  subst qn'. revert Hrange. unfold shuffleOptions.
  pose proof (shuffleIntArray_perm [0; 1; 2; 3] 4 w ltac:(simpl; lia)) as Hp.
  destruct (shuffleIntArray [0; 1; 2; 3] 4 w) as [idx w1]. simpl in *.
  intros Hrange. split; [|repeat split; try done; try lia].
  - rewrite Hp.
    destruct (options qn) as [|o0 [|o1 [|o2 [|o3 [|]]]]]; simplify_eq. done.
  - intros Hout.
    destruct (find_new_correct_spec (originalCorrectIndex qn) idx 0 0)
      as [[_ ->]|(k & Hk & _)]; [done|].
    exfalso. apply Hout.
    assert (originalCorrectIndex qn ∈ idx) as Hin by (by eapply list_elem_of_lookup_2).
    rewrite Hp, !elem_of_cons, elem_of_nil in Hin. lia.
Qed.

Lemma shuffleOptions_rearranges_witness :
  let qn' := (shuffleOptions lone_question idle_world).1 in
  options qn' ≡ₚ options lone_question
  /\ text qn' = text lone_question /\ difficulty qn' = difficulty lone_question
  /\ originalCorrectIndex qn' = originalCorrectIndex lone_question
  /\ 0 <= correctIndex qn' < 4
  /\ (~ (0 <= originalCorrectIndex lone_question < 4) -> correctIndex qn' = 0).
Proof. apply (shuffleOptions_rearranges lone_question idle_world). reflexivity. Defined.

(** ** Console input *)

Lemma getIntInRange_from_spec (lines : list str) (minv maxv : Z) : forall (w : World),
  match getIntInRange_from lines minv maxv w with
  | (Some v, w') =>
      minv <= v <= maxv
      /\ exists (skipped : list str) (line : str),
           lines = skipped ++ line :: stdin w'
           /\ Forall (turned_down minv maxv) skipped
           /\ stoi line = Some v
           /\ length (console w') = (length (console w) + length skipped)%nat
  | (None, w') =>
      Forall (turned_down minv maxv) lines /\ stdin w' = []
  end.
Proof.
  induction lines as [|s rest IH]; intros w; cbn [getIntInRange_from].
  - split; [constructor | done].
  - set (w1 := set_stdin w rest).
    set (w2 := print _ w1).
    assert (forall (Hbad : turned_down minv maxv s),
               match getIntInRange_from rest minv maxv w2 with
               | (Some v, w') =>
                   minv <= v <= maxv
                   /\ exists (skipped : list str) (line : str),
                        s :: rest = skipped ++ line :: stdin w'
                        /\ Forall (turned_down minv maxv) skipped
                        /\ stoi line = Some v
                        /\ length (console w') = (length (console w) + length skipped)%nat
               | (None, w') =>
                   Forall (turned_down minv maxv) (s :: rest) /\ stdin w' = []
               end) as Hretry.
    { intros Hbad. specialize (IH w2).
      destruct (getIntInRange_from rest minv maxv w2) as [[v|] w'].
      - destruct IH as (Hv & skipped & line & -> & Hsk & Hline & Hlen).
        split; [done|]. exists (s :: skipped), line.
        split; [done|]. split; [by constructor|]. split; [done|].
        rewrite Hlen. subst w2 w1. unfold print. simpl. rewrite length_app. simpl. lia.
      - destruct IH as [Hall Hnil]. split; [by constructor | done]. }
    destruct (stoi s) as [v|] eqn:Hs.
    + destruct (Z.leb_spec minv v) as [Hlo|Hlo]; simpl.
      * destruct (Z.leb_spec v maxv) as [Hhi|Hhi].
        -- split; [lia|]. exists [], s. subst w1. simpl.
           split; [done|]. split; [constructor|]. split; [done | lia].
        -- apply Hretry. intros v' Hv'. simplify_eq. lia.
      * apply Hretry. intros v' Hv'. simplify_eq. lia.
    + apply Hretry. intros v' Hv'. congruence.
Qed.

(** X3. When [getIntInRange] returns, its value lies in the range asked
    for: it is the number on the first line of the input that holds one of the
    range, every earlier line was turned down with one prompt each, and the
    lines after it are left unread.  When the input ends before such a line
    the call never returns.  Either way no file, random number, clock or
    keyboard is touched. *)
Theorem getIntInRange_returns_in_range (minv maxv : Z) (w : World) :
  match getIntInRange minv maxv w with
  | (Some v, w') =>
      minv <= v <= maxv
      /\ exists (skipped : list str) (line : str),
           stdin w = skipped ++ line :: stdin w'
           /\ Forall (turned_down minv maxv) skipped
           /\ stoi line = Some v
           /\ length (console w') = (length (console w) + length skipped)%nat
  | (None, w') => Forall (turned_down minv maxv) (stdin w) /\ stdin w' = []
  end
  /\ (let w' := (getIntInRange minv maxv w).2 in
      files w' = files w /\ draws w' = draws w /\ ticks w' = ticks w /\ polls w' = polls w).
Proof.
  split; [apply getIntInRange_from_spec | apply getIntInRange_from_frame].
Qed.

(** ** The high-score reader *)

Lemma read_scores_loop_bounded (fuel : nat) : forall (s : str) (out : list ScoreEntry),
  (length out <= MAX_QUIZ_QUESTIONS)%nat ->
  (length (read_scores_loop fuel s out) <= MAX_QUIZ_QUESTIONS)%nat
  /\ out `prefix_of` read_scores_loop fuel s out.
Proof.
  induction fuel as [|fuel IH]; intros s out Hout; simpl; [done|].
  destruct (getline s) as [[line rest]|]; [|done].
  destruct line as [|c line]; [by apply IH|].
  destruct (parse_score_line (c :: line)) as [e|]; [|by apply IH].
  destruct (Nat.ltb_spec (length out) MAX_QUIZ_QUESTIONS) as [Hlt|Hge]; [|by apply IH].
  destruct (IH rest (out ++ [e])) as [Hlen Hpre].
  - rewrite length_app. simpl. lia.
  - split; [done|]. etrans; [|exact Hpre]. by apply prefix_app_r.
Qed.

(** X4. [readHighScores] never hands back more than the 50 entries its
    caller has room for, whatever the file holds, and a missing file reads as
    no entries. *)
Theorem readHighScores_bounded (fn : string) (w : World) :
  (length (readHighScores fn w) <= MAX_QUIZ_QUESTIONS)%nat
  /\ (files w !! fn = None -> readHighScores fn w = []).
Proof.
  unfold readHighScores. destruct (files w !! fn) as [s|].
  - split; [|done]. apply read_scores_loop_bounded. simpl. lia.
  - split; [simpl; lia | done].
Qed.

(** ** The high-score table *)

Lemma best_from_spec (scores : list ScoreEntry) (fuel : nat) : forall (j best : nat),
  let b := best_from scores j best fuel in
  (b = best \/ (j <= b < j + fuel)%nat)
  /\ score_at scores best <= score_at scores b
  /\ forall k, (j <= k < j + fuel)%nat -> score_at scores k <= score_at scores b.
Proof.
  induction fuel as [|fuel IH]; intros j best; simpl.
  - split; [by left|]. split; [lia|]. intros k Hk. lia.
  - fold (score_at scores best). fold (score_at scores j).
    destruct (Z.ltb_spec (score_at scores best) (score_at scores j)) as [Hlt|Hge].
    + destruct (IH (S j) j) as (Hb & Hbest & Hall).
      split; [right; lia|]. split; [lia|].
      intros k Hk. destruct (decide (k = j)) as [->|Hne]; [done|]. apply Hall. lia.
    + destruct (IH (S j) best) as (Hb & Hbest & Hall).
      split; [destruct Hb; [by left | right; lia]|]. split; [done|].
      intros k Hk. destruct (decide (k = j)) as [->|Hne]; [lia|]. apply Hall. lia.
Qed.

Lemma score_at_swap (l : list ScoreEntry) (i b k : nat) :
  (i < length l)%nat -> (b < length l)%nat ->
  let d := mkScoreEntry [] 0 [] in
  score_at (<[b := nth i l d]> (<[i := nth b l d]> l)) k
    = if decide (k = b) then score_at l i
      else if decide (k = i) then score_at l b else score_at l k.
Proof.
  intros Hi Hb d. unfold score_at. fold d. rewrite !(nth_lookup _ k).
  rewrite !list_lookup_insert, !length_insert.
  repeat case_decide; try done; try lia.
Qed.

Lemma selection_sort_spec (fuel : nat) : forall (scores : list ScoreEntry) (i : nat),
  (i + fuel < length scores \/ fuel = 0)%nat ->
  settled scores i ->
  selection_sort scores i fuel ≡ₚ scores
  /\ settled (selection_sort scores i fuel) (i + fuel).
Proof.
  induction fuel as [|fuel IH]; intros scores i Hlen Hset; cbn [selection_sort].
  - split; [done|]. by rewrite Nat.add_0_r.
  - destruct Hlen as [Hlen|]; [|done].
    set (d := mkScoreEntry [] 0 []).
    destruct (best_from_spec scores (length scores - S i) (S i) i) as (Hb & Hbest & Hall).
    set (best := best_from scores (S i) i (length scores - S i)) in *.
    assert (i <= best < length scores)%nat as Hrange by lia.
    clearbody best.
    set (scores' := if (best =? i)%nat then scores
                    else <[best := nth i scores d]> (<[i := nth best scores d]> scores)).
    assert (scores' ≡ₚ scores) as Hperm.
    { subst scores'. destruct (Nat.eqb_spec best i); [done|].
      destruct (lookup_lt_is_Some_2 scores i) as [x Hx]; [lia|].
      destruct (lookup_lt_is_Some_2 scores best) as [y Hy]; [lia|].
      rewrite (nth_lookup_Some _ _ _ _ Hx), (nth_lookup_Some _ _ _ _ Hy).
      by apply Permutation_insert_swap. }
    assert (forall k, score_at scores' k
                      = if decide (k = best) then score_at scores i
                        else if decide (k = i) then score_at scores best
                             else score_at scores k) as Hat.
    { intros k. subst scores'. destruct (Nat.eqb_spec best i) as [E|Hne].
      - subst best. repeat case_decide; congruence.
      - apply score_at_swap; lia. }
    assert (settled scores' (S i)) as Hset'.
    { intros a b Ha Hb2. rewrite (Permutation_length Hperm) in Hb2.
      rewrite !Hat.
      assert (forall k, (i <= k < length scores)%nat ->
                        score_at scores k <= score_at scores best) as Hmax.
      { intros k Hk. destruct (decide (k = i)) as [->|]; [done|]. apply Hall. lia. }
      destruct (decide (a = i)) as [->|Hai].
      - repeat case_decide; subst; try lia; apply Hmax; lia.
      - assert (a < i)%nat as Ha' by lia.
        repeat case_decide; subst; try lia; apply Hset; lia. }
    assert (S i + fuel < length scores' \/ fuel = 0)%nat as Hlen'.
    { rewrite (Permutation_length Hperm). lia. }
    destruct (IH scores' (S i) Hlen' Hset') as [Hp Hs].
    split; [by rewrite Hp|]. by replace (i + S fuel)%nat with (S i + fuel)%nat by lia.
Qed.

(** X5. The selection sort of [displayTopHighScores] rearranges the entries
    read from the file so that scores never increase from one line to the
    next; no entry is lost or invented.  The table shows the first five. *)
Theorem selection_sort_sorts (scores : list ScoreEntry) :
  let sorted := selection_sort scores 0 (length scores - 1) in
  sorted ≡ₚ scores
  /\ forall (a b : nat) (x y : ScoreEntry),
       (a <= b)%nat -> sorted !! a = Some x -> sorted !! b = Some y ->
       e_score y <= e_score x.
Proof.
  intros sorted.
  destruct (selection_sort_spec (length scores - 1) scores 0) as [Hp Hs].
  - destruct scores; simpl; lia.
  - intros a b Ha. lia.
  - split; [done|]. intros a b x y Hab Hx Hy.
    fold sorted in Hs, Hp.
    pose proof (lookup_lt_Some _ _ _ Hy) as Hlt.
    destruct (decide (a = b)) as [->|Hne]; [by simplify_eq|].
    specialize (Hs a b ltac:(rewrite (Permutation_length Hp) in Hlt; lia) ltac:(lia)).
    unfold score_at in Hs.
    by rewrite (nth_lookup_Some _ _ _ _ Hx), (nth_lookup_Some _ _ _ _ Hy) in Hs.
Qed.

(** ** The progress file, in full *)

Lemma print_int_no_space (z : Z) : SPACE ∉ print_int z.
Proof.
  intros Hin. apply print_int_chars in Hin as [Hd|He]; [by vm_compute in Hd | done].
Qed.

Lemma skip_to_blank_app (l rest : str) :
  SPACE ∉ l -> skip_to_blank (l ++ SPACE :: rest) = SPACE :: rest.
Proof.
  induction l as [|c l IH]; intros Hl; [done|].
  cbn [app skip_to_blank].
  apply not_elem_of_cons in Hl as [Hc Hl].
  unfold ascii_eqb. destruct (Ascii.eqb_spec c SPACE) as [->|_]; [done|]. by apply IH.
Qed.

Lemma length_print_ints (l : list Z) : (length l <= length (print_ints l))%nat.
Proof.
  unfold print_ints. induction l as [|a l IH]; simpl; [lia|].
  rewrite !length_app. simpl. lia.
Qed.

Lemma scan_numbers_print_ints (l : list Z) :
  forall (fuel : nat) (arr : list Z) (count : nat),
  (length l < fuel)%nat ->
  (count + length l <= MAX_QUIZ_QUESTIONS)%nat ->
  (count + length l <= length arr)%nat ->
  Forall (fun a => in_int_range a = true) l ->
  scan_numbers fuel (print_ints l) arr count
    = (take count arr ++ l ++ drop (count + length l) arr, (count + length l)%nat).
Proof.
  unfold print_ints. change (lit " ") with [SPACE].
  induction l as [|a l IH]; intros fuel arr count Hfuel Hmax Harr Hl.
  - destruct fuel; [simpl in Hfuel; lia|]. simpl.
    rewrite Nat.add_0_r, take_drop. done.
  - destruct fuel as [|fuel]; [simpl in Hfuel; lia|].
    inversion Hl as [|? ? Ha Hl']; subst.
    simpl map. simpl concat. rewrite <- app_assoc. simpl app.
    cbn [scan_numbers].
    rewrite scan_int_print_int by done.
    rewrite skip_to_blank_app by apply print_int_no_space.
    simpl length in *.
    destruct (Nat.ltb_spec count MAX_QUIZ_QUESTIONS) as [_|?]; [|lia].
    rewrite IH; [|lia|lia|rewrite length_insert; lia|done].
    f_equal; [|lia].
    assert (scanf_d a = a) as -> by (by apply scanf_d_small).
    rewrite (take_S_r _ _ a) by (apply list_lookup_insert_eq; lia).
    rewrite take_insert_ge by lia.
    rewrite (drop_insert_lt arr (S count + length l) count a) by (simpl; lia).
    replace (count + S (length l))%nat with (S count + length l)%nat by lia.
    by rewrite <- app_assoc.
Qed.

(** X6. What [saveProgress] writes, [loadProgress] reads back: the name, the
    four totals, the number of questions, the answers and the question
    indices recorded so far; the remaining seconds come back as saved, or as
    0 when a negative number was saved.  The cells of the two arrays beyond
    [qCount] are those of the object handed to [loadProgress]. *)
Theorem progress_roundtrip (fn : string) (r r0 : QuizResult) (w : World) :
  savable r ->
  (MAX_QUIZ_QUESTIONS <= length (answers r0))%nat ->
  (MAX_QUIZ_QUESTIONS <= length (questionIndices r0))%nat ->
  loadProgress fn r0 (saveProgress fn r w)
    = Some (mkQuizResult
              (playerName r) (r_score r) (r_correct r) (r_wrong r) (timestamp r)
              (take (qCount r) (questionIndices r) ++ drop (qCount r) (questionIndices r0))
              (take (qCount r) (answers r) ++ drop (qCount r) (answers r0))
              (qCount r)
              (if remainingSecondsForCurrent r <? 0 then 0
               else remainingSecondsForCurrent r)).
Proof.
  intros (Hname & Hsc & Hcr & Hwr & Hts & Hrem & Hq & Hqa & Hqi & Hans & Hidx) Ha0 Hi0.
  unfold loadProgress, saveProgress, file_write. simpl files.
  rewrite lookup_insert_eq, progress_text_lines.
  rewrite getline_line by done.
  rewrite getline_line by apply totals_line_no_nl.
  rewrite scan4_totals_line.
  rewrite getline_line by apply print_ints_no_nl.
  rewrite scan_numbers_print_ints; cycle 1.
  { pose proof (length_print_ints (take (qCount r) (answers r))). lia. }
  { rewrite length_take. simpl. lia. }
  { rewrite length_take. simpl. lia. }
  { done. }
  rewrite getline_line by apply print_ints_no_nl.
  rewrite scan_numbers_print_ints; cycle 1.
  { pose proof (length_print_ints (take (qCount r) (questionIndices r))). lia. }
  { rewrite length_take. simpl. lia. }
  { rewrite length_take. simpl. lia. }
  { done. }
  rewrite getline_line by apply print_int_no_bar_nl.
  rewrite stoi_print_int by done.
  rewrite !length_take, !Nat.min_l by lia. simpl.
  rewrite Nat.ltb_irrefl.
  rewrite !scanf_d_small by done. by rewrite scanf_lld_small by lia.
Qed.
Lemma scan_numbers_count (fuel : nat) : forall (p : str) (arr : list Z) (count : nat),
  (count <= MAX_QUIZ_QUESTIONS)%nat ->
  ((scan_numbers fuel p arr count).2 <= MAX_QUIZ_QUESTIONS)%nat
  /\ length (scan_numbers fuel p arr count).1 = length arr.
Proof.
  induction fuel as [|fuel IH]; intros p arr count Hc; cbn [scan_numbers]; [done|].
  destruct (scan_int p) as [[val rest]|]; [|done].
  destruct (Nat.ltb_spec count MAX_QUIZ_QUESTIONS) as [Hlt|Hge].
  - destruct (skip_to_blank p) as [|c p']; [simpl; split; [lia | by rewrite length_insert]|].
    destruct (IH p' (<[count:=scanf_d val]> arr) (S count) ltac:(lia)) as [H1 H2].
    split; [done|]. by rewrite H2, length_insert.
  - destruct (skip_to_blank p) as [|c p']; [done|]. by apply IH.
Qed.

(** X7. Whatever the progress file holds, a result that [loadProgress]
    accepts has at most 50 recorded questions, no negative remaining seconds,
    and arrays of the size it was given; without the file nothing is loaded. *)
Theorem loadProgress_bounds (fn : string) (r0 r : QuizResult) (w : World) :
  loadProgress fn r0 w = Some r ->
  is_Some (files w !! fn)
  /\ (qCount r <= MAX_QUIZ_QUESTIONS)%nat
  /\ 0 <= remainingSecondsForCurrent r
  /\ length (answers r) = length (answers r0)
  /\ length (questionIndices r) = length (questionIndices r0).
Proof.
  unfold loadProgress. intros H.
  destruct (files w !! fn) as [fin|]; [|done]. split; [by eexists|].
  destruct (getline fin) as [[pname fin1]|]; [|done].
  destruct (getline fin1) as [[line fin2]|]; [|done].
  destruct (scan4 line) as [[[[sc cr] wr] ts]|]; [|done].
  destruct (getline fin2) as [[line3 fin3]|]; [|done].
  destruct (scan_numbers_count (S (length line3)) line3 (answers r0) 0 ltac:(simpl; lia))
    as [Hc Hl].
  destruct (scan_numbers (S (length line3)) line3 (answers r0) 0) as [ans cnt].
  destruct (getline fin3) as [[line4 fin4]|]; [|done].
  destruct (scan_numbers_count (S (length line4)) line4 (questionIndices r0) 0
              ltac:(simpl; lia)) as [Hc2 Hl2].
  destruct (scan_numbers (S (length line4)) line4 (questionIndices r0) 0) as [qis idx].
  simplify_eq. simpl in *.
  split; [case_match; lia|]. split; [|done].
  unfold DEFAULT_TIME_PER_QUESTION. repeat case_match; lia.
Qed.

Lemma old_progress_text_lines (r : QuizResult) :
  old_progress_text r
    = playerName r ++ NL :: totals_line r
        ++ NL :: print_ints (take (qCount r) (answers r))
        ++ NL :: print_ints (take (qCount r) (questionIndices r)) ++ [NL].
Proof.
  unfold old_progress_text, totals_line. change (lit " ") with [SPACE].
  repeat (rewrite <- ?app_assoc; simpl app). done.
Qed.

(** X8. A progress file that ends after the line of question indices, as
    written before the remaining seconds were saved, still loads: all fields
    come back and the remaining seconds are the full 10 of a new question. *)
Theorem loadProgress_old_format (fn : string) (r r0 : QuizResult) (w : World) :
  savable r ->
  (MAX_QUIZ_QUESTIONS <= length (answers r0))%nat ->
  (MAX_QUIZ_QUESTIONS <= length (questionIndices r0))%nat ->
  files w !! fn = Some (old_progress_text r) ->
  loadProgress fn r0 w
    = Some (mkQuizResult
              (playerName r) (r_score r) (r_correct r) (r_wrong r) (timestamp r)
              (take (qCount r) (questionIndices r) ++ drop (qCount r) (questionIndices r0))
              (take (qCount r) (answers r) ++ drop (qCount r) (answers r0))
              (qCount r) DEFAULT_TIME_PER_QUESTION).
Proof.
  intros (Hname & Hsc & Hcr & Hwr & Hts & Hrem & Hq & Hqa & Hqi & Hans & Hidx) Ha0 Hi0 Hfile.
  unfold loadProgress.
  rewrite Hfile, old_progress_text_lines.
  rewrite getline_line by done.
  rewrite getline_line by apply totals_line_no_nl.
  rewrite scan4_totals_line.
  rewrite getline_line by apply print_ints_no_nl.
  rewrite scan_numbers_print_ints; cycle 1.
  { pose proof (length_print_ints (take (qCount r) (answers r))). lia. }
  { rewrite length_take. simpl. lia. }
  { rewrite length_take. simpl. lia. }
  { done. }
  rewrite <- (app_nil_r (print_ints (take (qCount r) (questionIndices r)) ++ [NL])).
  rewrite <- app_assoc. simpl app.
  rewrite getline_line by apply print_ints_no_nl.
  rewrite scan_numbers_print_ints; cycle 1.
  { pose proof (length_print_ints (take (qCount r) (questionIndices r))). lia. }
  { rewrite length_take. simpl. lia. }
  { rewrite length_take. simpl. lia. }
  { done. }
  rewrite !length_take, !Nat.min_l by lia. simpl.
  rewrite Nat.ltb_irrefl.
  rewrite !scanf_d_small by done. by rewrite scanf_lld_small by lia.
Qed.

(** ** The question file *)

Lemma to_int_range (z : Z) : INT_MIN <= to_int z <= INT_MAX.
Proof.
  unfold to_int, INT_MIN, INT_MAX.
  pose proof (wrap_range 32 z ltac:(lia)) as H. change (32 - 1) with 31 in H. lia.
Qed.

Lemma stoi_range (s : str) (v : Z) : stoi s = Some v -> INT_MIN <= v <= INT_MAX.
Proof.
  unfold stoi. destruct (scan_int s) as [[v' rest]|]; [|done].
  destruct (in_int_range v') eqn:E; [|done]. intros ?; simplify_eq.
  unfold in_int_range in E. apply andb_true_iff in E as [?%Z.leb_le ?%Z.leb_le]. lia.
Qed.

Lemma load_questions_loop_shape (fuel : nat) :
  forall (fin : str) (out l : list Question),
  load_questions_loop fuel fin out = Some l ->
  Forall loaded_shape out -> (Z.of_nat (length out) <= MAX_QUESTIONS) ->
  Forall loaded_shape l /\ Z.of_nat (length l) <= MAX_QUESTIONS /\ out `prefix_of` l.
Proof.
  induction fuel as [|fuel IH]; intros fin out l Hl Hout Hlen; cbn [load_questions_loop] in Hl.
  - by simplify_eq.
  - destruct (getline fin) as [[txt fin1]|]; [|by simplify_eq].
    destruct txt as [|c txt]; [by eapply IH|].
    destruct (getline fin1) as [[o0 f2]|]; [|done]. cbn [mbind option_bind fst snd] in Hl.
    destruct (getline f2) as [[o1 f3]|]; [|done]. cbn [mbind option_bind fst snd] in Hl.
    destruct (getline f3) as [[o2 f4]|]; [|done]. cbn [mbind option_bind fst snd] in Hl.
    destruct (getline f4) as [[o3 f5]|]; [|done]. cbn [mbind option_bind fst snd] in Hl.
    destruct (getline f5) as [[corr f6]|]; [|done]. cbn [mbind option_bind fst snd] in Hl.
    destruct (getline f6) as [[diff f7]|]; [|done]. cbn [mbind option_bind fst snd] in Hl.
    destruct (stoi corr) as [cv|] eqn:Hc; [|done]. cbn [mbind option_bind] in Hl.
    destruct (stoi diff) as [dv|] eqn:Hd; [|done]. cbn [mbind option_bind] in Hl.
    apply IH in Hl.
    + destruct Hl as (H1 & H2 & H3). split; [done|]. split; [done|].
      etrans; [|exact H3]. destruct (_ <? _); [by apply prefix_app_r | done].
    + destruct (_ <? _); [|done]. apply Forall_app. split; [done|].
      constructor; [|constructor].
      unfold loaded_shape. simpl. repeat split; try done;
        try apply to_int_range; try (by eapply stoi_range).
    + destruct (_ <? _) eqn:E; [|done]. apply Z.ltb_lt in E.
      rewrite length_app. simpl. unfold MAX_QUESTIONS in *. lia.
Qed.

(** X9. What [loadQuestionsFromFile] accepts is never an empty bank and
    never more than 500 questions; every question has a text, four options
    and a current correct index equal to the original one.  The index itself
    is not checked against the four options.  A missing file is refused. *)
Theorem loadQuestionsFromFile_shape (fn : string) (w : World) (l : list Question) :
  loadQuestionsFromFile fn w = Some l ->
  is_Some (files w !! fn)
  /\ l <> [] /\ Z.of_nat (length l) <= MAX_QUESTIONS
  /\ Forall loaded_shape l.
Proof.
  unfold loadQuestionsFromFile. intros H.
  destruct (files w !! fn) as [fin|]; [|done]. split; [by eexists|].
  destruct (load_questions_loop (S (length fin)) fin []) as [[|qn qs]|] eqn:E; [done| |done].
  simplify_eq.
  apply load_questions_loop_shape in E as (H1 & H2 & _); [|constructor|simpl; unfold MAX_QUESTIONS; lia].
  done.
Qed.
Lemma in_int_range_true (z : Z) : INT_MIN <= z <= INT_MAX -> in_int_range z = true.
Proof. intros. unfold in_int_range. apply andb_true_iff. split; apply Z.leb_le; lia. Qed.

Lemma load_questions_loop_records (rs : list (Question * str)) :
  forall (fuel : nat) (out : list Question),
  Forall recordable rs ->
  (length (concat (map question_record rs)) < fuel)%nat ->
  Z.of_nat (length out) <= MAX_QUESTIONS ->
  load_questions_loop fuel (concat (map question_record rs)) out
    = Some (take (Z.to_nat MAX_QUESTIONS) (out ++ rs.*1)).
Proof.
  induction rs as [|[qn sep] rs IH]; intros fuel out Hrs Hfuel Hout.
  - destruct fuel; simpl; rewrite app_nil_r, take_ge; try done; lia.
  - apply Forall_cons in Hrs as [Hr Hrs].
    destruct Hr as (Htxt & Htnl & Hlen & Hopts & Hci & Hoci & Hdiff & Hsep).
    cbn [fst snd] in *.
    destruct fuel as [|fuel]; [lia|].
    destruct qn as [txt opts ci oci diff]. cbn [text options correctIndex originalCorrectIndex difficulty] in *.
    destruct opts as [|o0 [|o1 [|o2 [|o3 [|? ?]]]]]; try done.
    apply Forall_cons in Hopts as [H0 Hopts]. apply Forall_cons in Hopts as [H1 Hopts].
    apply Forall_cons in Hopts as [H2 Hopts]. apply Forall_cons in Hopts as [H3 _].
    pose proof (print_int_no_bar_nl (oci + 1)) as [_ Hc].
    pose proof (print_int_no_bar_nl diff) as [_ Hd].
    cbn [map concat]. cbn [map concat] in Hfuel.
    set (tl := concat (map question_record rs)) in *.
    unfold question_record in *. cbn [fst snd text options correctIndex originalCorrectIndex difficulty map concat] in *.
    rewrite !app_nil_r in *. rewrite <- !app_assoc in *. cbn [app] in *.
    cbn [load_questions_loop]. rewrite getline_line by done.
    destruct txt as [|c txt]; [done|].
    rewrite getline_line by done. cbn [mbind option_bind fst snd].
    rewrite getline_line by done. cbn [mbind option_bind fst snd].
    rewrite getline_line by done. cbn [mbind option_bind fst snd].
    rewrite getline_line by done. cbn [mbind option_bind fst snd].
    rewrite getline_line by done. cbn [mbind option_bind fst snd].
    rewrite getline_line by done. cbn [mbind option_bind fst snd].
    rewrite stoi_print_int by (apply in_int_range_true; unfold INT_MIN, INT_MAX in *; lia). cbn [mbind option_bind].
    rewrite stoi_print_int by (apply in_int_range_true; unfold INT_MIN, INT_MAX in *; lia). cbn [mbind option_bind].
    rewrite getline_line by done.
    replace (int_sub (oci + 1) 1) with oci
      by (unfold int_sub; rewrite to_int_small by (unfold INT_MIN, INT_MAX in *; lia); lia).
    subst ci.
    repeat (progress rewrite ?length_app, ?length_cons in Hfuel).
    destruct (Z.ltb_spec (Z.of_nat (length out)) MAX_QUESTIONS) as [Hlt|Hge].
    + rewrite IH; [|done|lia|rewrite length_app; simpl; lia].
      by rewrite <- app_assoc.
    + rewrite IH; [|done|lia|done].
      rewrite !take_app_le by lia. done.
Qed.

(** X10. A file made of well-formed records, each followed by one further
    line, is loaded back question by question, up to the first 500.  What the
    line after the difficulty holds makes no difference: it is dropped
    unread. *)
Theorem loadQuestionsFromFile_records (fn : string) (w : World)
    (rs : list (Question * str)) :
  rs <> [] ->
  Forall recordable rs ->
  files w !! fn = Some (concat (map question_record rs)) ->
  loadQuestionsFromFile fn w = Some (take (Z.to_nat MAX_QUESTIONS) rs.*1).
Proof.
  intros Hne Hrs Hfile. unfold loadQuestionsFromFile. rewrite Hfile.
  rewrite load_questions_loop_records; [|done|lia|simpl; unfold MAX_QUESTIONS; lia].
  cbn [app]. destruct rs as [|r rs]; [done|]. done.
Qed.
Lemma progress_roundtrip_witness :
  loadProgress saveFileName fresh_result (saveProgress saveFileName saved_result idle_world)
    = Some (mkQuizResult
              (playerName saved_result) (r_score saved_result) (r_correct saved_result)
              (r_wrong saved_result) (timestamp saved_result)
              (take (qCount saved_result) (questionIndices saved_result)
                 ++ drop (qCount saved_result) (questionIndices fresh_result))
              (take (qCount saved_result) (answers saved_result)
                 ++ drop (qCount saved_result) (answers fresh_result))
              (qCount saved_result)
              (if remainingSecondsForCurrent saved_result <? 0 then 0
               else remainingSecondsForCurrent saved_result)).
Proof.
  apply (progress_roundtrip saveFileName saved_result fresh_result idle_world).
  - unfold savable.
    split; [apply (bool_decide_unpack _); by vm_compute|].
    do 3 (split; [vm_compute; reflexivity|]).
    split; [simpl; lia|].
    split; [vm_compute; reflexivity|].
    do 3 (split; [simpl; unfold MAX_QUIZ_QUESTIONS; lia|]).
    split; repeat constructor.
  - vm_compute. lia.
  - vm_compute. lia.
Defined.

Lemma loadProgress_bounds_witness :
  exists r : QuizResult,
    loadProgress saveFileName fresh_result resume_world = Some r
    /\ is_Some (files resume_world !! saveFileName)
    /\ (qCount r <= MAX_QUIZ_QUESTIONS)%nat
    /\ 0 <= remainingSecondsForCurrent r
    /\ length (answers r) = length (answers fresh_result)
    /\ length (questionIndices r) = length (questionIndices fresh_result).
Proof.
  eexists. split; [vm_compute; reflexivity|].
  apply (loadProgress_bounds saveFileName fresh_result _ resume_world).
  vm_compute. reflexivity.
Defined.

Lemma loadProgress_old_format_witness :
  remainingSecondsForCurrent
    <$> loadProgress saveFileName fresh_result
          (set_files idle_world {[ saveFileName := old_progress_text saved_result ]})
  = Some DEFAULT_TIME_PER_QUESTION.
Proof.
  rewrite (loadProgress_old_format saveFileName saved_result fresh_result
             (set_files idle_world {[ saveFileName := old_progress_text saved_result ]})).
  - reflexivity.
  - unfold savable.
    split; [apply (bool_decide_unpack _); by vm_compute|].
    do 3 (split; [vm_compute; reflexivity|]).
    split; [simpl; lia|].
    split; [vm_compute; reflexivity|].
    do 3 (split; [simpl; unfold MAX_QUIZ_QUESTIONS; lia|]).
    split; repeat constructor.
  - vm_compute. lia.
  - vm_compute. lia.
  - vm_compute. reflexivity.
Defined.

Lemma loadQuestionsFromFile_shape_witness :
  exists l : list Question,
    loadQuestionsFromFile scienceFile session_world = Some l
    /\ is_Some (files session_world !! scienceFile)
    /\ l <> [] /\ Z.of_nat (length l) <= MAX_QUESTIONS /\ Forall loaded_shape l.
Proof.
  eexists. split; [vm_compute; reflexivity|].
  apply (loadQuestionsFromFile_shape scienceFile session_world).
  vm_compute. reflexivity.
Defined.

Lemma loadQuestionsFromFile_records_witness :
  loadQuestionsFromFile scienceFile
    (set_files idle_world
       {[ scienceFile := concat (map question_record [(lone_question, lit "any line")]) ]})
  = Some (take (Z.to_nat MAX_QUESTIONS) [(lone_question, lit "any line")].*1).
Proof.
  apply (loadQuestionsFromFile_records scienceFile _ [(lone_question, lit "any line")]).
  - discriminate.
  - constructor; [|constructor]. unfold recordable.
    split; [discriminate|].
    split; [apply (bool_decide_unpack _); by vm_compute|].
    split; [reflexivity|].
    split; [repeat constructor; apply (bool_decide_unpack _); by vm_compute|].
    split; [reflexivity|].
    split; [simpl; unfold INT_MIN, INT_MAX; lia|].
    split; [simpl; unfold INT_MIN, INT_MAX; lia|].
    apply (bool_decide_unpack _); by vm_compute.
  - vm_compute. reflexivity.
Defined.

(** ** What a question never undoes *)

Lemma spent_refl (st : Quiz) : spent st st.
Proof. by constructor. Qed.

Lemma spent_trans (a b c : Quiz) : spent a b -> spent b c -> spent a c.
Proof.
  intros [] []. constructor; try congruence; auto.
  - intros H. rewrite sp_same1 by auto. auto.
  - intros H. rewrite sp_once1 by done. apply sp_once0.
    destruct (lif_replace b) eqn:E; [done|]. rewrite sp_replace1 in H; done.
Qed.

Lemma keeps_refl (st : Quiz) : keeps st st.
Proof. by constructor; [apply spent_refl|..]. Qed.

Lemma keeps_trans (a b c : Quiz) : keeps a b -> keeps b c -> keeps a c.
Proof.
  intros [] []. constructor; try congruence.
  - by eapply spent_trans.
  - intros j Hj. rewrite kp_answers1 by congruence. auto.
  - intros j Hj. rewrite kp_others1 by congruence. auto.
Qed.

Ltac keeps_done :=
  constructor; [constructor|..]; simpl; intros; try done;
  rewrite ?length_insert; try done;
  try (by rewrite list_lookup_insert_ne);
  repeat match goal with
    | H : negb _ = true |- _ => apply negb_true_iff in H
    | H : negb _ = false |- _ => apply negb_false_iff in H
    end; try congruence.

Lemma lifelineChoice_keeps (li : Z) (st : Quiz) (w : World) :
  keeps st (lifelineChoice li st w).1.1.
Proof.
  unfold lifelineChoice. repeat case_match; simplify_eq; simpl; keeps_done.
Qed.

Lemma lifelineMenu_keeps (st : Quiz) (w : World) : kept st (lifelineMenu st w).
Proof.
  unfold lifelineMenu.
  destruct (time_now w) as [now w1].
  set (st1 := set_remainingSeconds _ _).
  set (w8 := print _ _).
  assert (keeps st st1) as H1 by (subst st1; keeps_done).
  destruct (getIntInRange 0 4 w8) as [[li|] w9]; [|done].
  pose proof (lifelineChoice_keeps li st1 w9) as H2.
  destruct (lifelineChoice li st1 w9) as [[st2 t] w10]. simpl in *.
  by eapply keeps_trans.
Qed.

Lemma quickSkip_keeps (st : Quiz) (w : World) : keeps st (quickSkip st w).1.1.
Proof. unfold quickSkip. destruct (lif_skip st) eqn:E; simpl; keeps_done. Qed.

Lemma checkTimeout_keeps (st : Quiz) (w : World) : keeps st (checkTimeout st w).1.1.
Proof. unfold checkTimeout. repeat case_match; simplify_eq; simpl; keeps_done. Qed.

Lemma answerKey_keeps (k : ascii) (st : Quiz) (w : World) : keeps st (answerKey k st w).1.
Proof. unfold answerKey. repeat case_match; simplify_eq; simpl; keeps_done. Qed.

Lemma pollStep_keeps (st : Quiz) (w : World) : kept st (pollStep st w).
Proof.
  unfold pollStep.
  destruct (getNonBlockingKey w) as [k w1].
  pose proof (checkTimeout_keeps st w1) as Hto.
  destruct (checkTimeout st w1) as [[stt tt] wt]. simpl in Hto.
  assert (kept st (endOfTurn (stt, tt, wt))) as Hto' by (by destruct tt).
  destruct (negb (ascii_eqb k NUL)); [|done].
  destruct (_ && _).
  - pose proof (answerKey_keeps k st w1) as Hk.
    by destruct (answerKey k st w1).
  - destruct (_ || _); [apply lifelineMenu_keeps|].
    destruct (_ || _); [|done].
    pose proof (quickSkip_keeps st w1) as Hqs.
    destruct (quickSkip st w1) as [[st1 t1] w2]. simpl in Hqs.
    destruct t1; try done.
    pose proof (checkTimeout_keeps st1 w2) as Hto1.
    destruct (checkTimeout st1 w2) as [[st3 t3] w3]. simpl in Hto1.
    assert (keeps st st3) as H3 by (by eapply keeps_trans).
    by destruct t3.
Qed.

Lemma kept_trans {A : Type} (st st1 : Quiz) (r : run (Quiz * A)) :
  keeps st st1 -> kept st1 r -> kept st r.
Proof. intros H. destruct r as [[st2 a] w2|st2 w2]; simpl; by apply keeps_trans. Qed.

Lemma pollLoop_keeps (fuel : nat) : forall (st : Quiz) (w : World),
  kept st (pollLoop fuel st w).
Proof.
  induction fuel as [|fuel IH]; intros st w; simpl; [apply keeps_refl|].
  pose proof (pollStep_keeps st w) as Hstep.
  destruct (pollStep st w) as [[st1 t] w1|st1 w1]; [|done].
  destruct t; try done. by eapply kept_trans.
Qed.

Lemma autoSave_keeps (completed : bool) (st : Quiz) (w : World) :
  keeps st (autoSave completed st w).1.
Proof. unfold autoSave. repeat case_match; simplify_eq; simpl; keeps_done. Qed.

Lemma questionLoop_keeps (fuel : nat) : forall (st : Quiz) (w : World),
  kept st (questionLoop fuel st w).
Proof.
  induction fuel as [|fuel IH]; intros st w; simpl; [apply keeps_refl|].
  unfold drawAndPoll.
  pose proof (pollLoop_keeps fuel st (display st w)) as Hpoll.
  destruct (pollLoop fuel st (display st w)) as [[st1 t] w1|st1 w1]; [|done].
  simpl in Hpoll.
  set (c := match t with Completed _ => true | _ => false end).
  pose proof (autoSave_keeps c st1 w1) as Hsave.
  destruct (autoSave c st1 w1) as [st2 w2]. simpl in Hsave.
  assert (keeps st st2) as H02 by (by eapply keeps_trans).
  destruct t; try done; by eapply kept_trans.
Qed.

Lemma evaluate_keeps (st : Quiz) (w : World) : keeps st (evaluate st w).1.
Proof. unfold evaluate. repeat case_match; simplify_eq; simpl; keeps_done. Qed.

Lemma beginQuestion_keeps (st : Quiz) (w : World) :
  let st' := (beginQuestion st w).1 in
  spent st st' /\ qi st' = qi st /\ quizQuestions st' = quizQuestions st
  /\ qCount (result st') = qCount (result st)
  /\ answers (result st') = <[qCount (result st) := 0]> (answers (result st))
  /\ questionIndices (result st')
     = <[qCount (result st) := Z.of_nat (qi st)]> (questionIndices (result st)).
Proof.
  unfold beginQuestion. cbn [with_answer with_index remainingSecondsForCurrent].
  destruct (0 <? _); simpl; (split; [by constructor|done]).
Qed.

Lemma finishQuestion_keeps (st : Quiz) (w : World) :
  let st' := (finishQuestion st w).1 in
  spent st st' /\ qi st' = qi st /\ quizQuestions st' = quizQuestions st
  /\ qCount (result st') = S (qCount (result st))
  /\ answers (result st') = answers (result st)
  /\ questionIndices (result st') = questionIndices (result st).
Proof. unfold finishQuestion. simpl. split; [by constructor|done]. Qed.

Lemma evaluate_result (st : Quiz) (w : World) :
  result (evaluate st w).1 = result st /\ quizQuestions (evaluate st w).1 = quizQuestions st.
Proof. unfold evaluate. by repeat case_match. Qed.

Lemma runQuestion_keeps (fuel : nat) (st : Quiz) (w : World) :
  match runQuestion fuel st w with
  | Done (st', _) _ =>
      spent st st' /\ qi st' = qi st
      /\ (forall j : nat, j <> qi st -> quizQuestions st' !! j = quizQuestions st !! j)
      /\ qCount (result st') = S (qCount (result st))
      /\ (forall j : nat, j <> qCount (result st) ->
          answers (result st') !! j = answers (result st) !! j)
      /\ questionIndices (result st')
         = <[qCount (result st) := Z.of_nat (qi st)]> (questionIndices (result st))
  | Killed st' _ =>
      spent st st'
      /\ (forall j : nat, j <> qi st -> quizQuestions st' !! j = quizQuestions st !! j)
  end.
Proof.
  unfold runQuestion.
  pose proof (beginQuestion_keeps st w) as Hb.
  destruct (beginQuestion st w) as [st1 w1]. cbn [fst] in Hb.
  destruct Hb as (Hsp1 & Hqi1 & Hqq1 & Hqc1 & Hans1 & Hidx1).
  pose proof (questionLoop_keeps fuel st1 w1) as Hq.
  destruct (questionLoop fuel st1 w1) as [[st2 o] w2|st2 w2]; cbn [kept] in Hq.
  - destruct Hq as [Hsp2 Hqi2 Hqc2 Hidx2 Hans2 Hoth2].
    pose proof (evaluate_keeps st2 w2) as He.
    destruct (evaluate_result st2 w2) as [Hres Hqq3].
    destruct (evaluate st2 w2) as [st3 w3]. cbn [fst] in *.
    destruct He as [Hsp3 Hqi3 _ _ _ _].
    pose proof (finishQuestion_keeps st3 w3) as Hf.
    destruct (finishQuestion st3 w3) as [st4 w4]. cbn [fst] in Hf.
    destruct Hf as (Hsp4 & Hqi4 & Hqq4 & Hqc4 & Hans4 & Hidx4).
    split; [eauto using spent_trans|].
    split; [congruence|].
    split; [intros j Hj; rewrite Hqq4, Hqq3, Hoth2 by congruence; by rewrite Hqq1|].
    split; [congruence|].
    split.
    + intros j Hj. rewrite Hans4, Hres, Hans2 by congruence.
      rewrite Hans1. by apply list_lookup_insert_ne.
    + congruence.
  - destruct Hq as [Hsp2 _ _ _ _ Hoth2]. split; [by eapply spent_trans|].
    intros j Hj. rewrite Hoth2 by congruence. by rewrite Hqq1.
Qed.

Lemma runQuestion_answer (fuel : nat) (st st' : Quiz) (o : outcome) (w w' : World) :
  slot_ok st ->
  runQuestion fuel st w = Done (st', o) w' ->
  answers (result st') = <[qCount (result st) := recorded o]> (answers (result st)).
Proof.
  intros Hslot Hrun.
  pose proof (runQuestion_keeps fuel st w) as Hk. rewrite Hrun in Hk.
  destruct Hk as (_ & _ & _ & _ & Hans & _).
  unfold runQuestion in Hrun.
  pose proof (beginQuestion_keeps st w) as Hb.
  pose proof (beginQuestion_post st w) as Hbp.
  destruct (beginQuestion st w) as [st1 w1]. cbn [fst] in Hb.
  destruct Hb as (_ & _ & _ & Hqc1 & Hans1 & _).
  destruct Hbp as (Hfr1 & _).
  assert (slot_ok st1) as Hslot1 by (by eapply slot_ok_frame).
  pose proof (questionLoop_post fuel st1 w1 Hslot1) as Hq.
  destruct (questionLoop fuel st1 w1) as [[st2 o2] w2|st2 w2]; [|done].
  cbn [question_post] in Hq. destruct Hq as (Hfr2 & Htick & _).
  destruct (evaluate_result st2 w2) as [Hres _].
  destruct (evaluate st2 w2) as [st3 w3]. cbn [fst] in Hres.
  pose proof (finishQuestion_keeps st3 w3) as Hf.
  destruct (finishQuestion st3 w3) as [st4 w4]. cbn [fst] in Hf.
  destruct Hf as (_ & _ & _ & _ & Hans4 & _).
  simplify_eq.
  assert (userAns st2 = recorded o) as Hu.
  { destruct o; simpl in Htick; simpl; tauto. }
  assert (length (answers (result st')) = length (answers (result st))) as Hlen.
  { rewrite Hans4, Hres, (fr_answers _ _ Hfr2), (fr_answers _ _ Hfr1). done. }
  apply list_eq. intros j. destruct (decide (j = qCount (result st))) as [->|Hne].
  - rewrite list_lookup_insert_eq by done.
    unfold slot_ok in Hslot.
    destruct (lookup_lt_is_Some_2 (answers (result st')) (qCount (result st)))
      as [x Hx]; [lia|].
    rewrite Hx. f_equal. rewrite <- Hu. unfold userAns.
    rewrite (fr_qCount _ _ Hfr2), Hqc1, <- Hres, <- Hans4.
    symmetry. by apply nth_lookup_Some.
  - rewrite Hans by done. by rewrite list_lookup_insert_ne.
Qed.

Lemma quizLoop_spent (n : nat) : forall (fuel : nat) (st : Quiz) (w : World),
  match quizLoop fuel n st w with
  | Done (st', _) _ | Killed st' _ =>
      spent st st'
      /\ exists j : nat, forall i : nat, i <> j ->
           quizQuestions st' !! i = quizQuestions st !! i
  end.
Proof.
  induction n as [|n IH]; intros fuel st w; cbn [quizLoop].
  - split; [apply spent_refl|]. by exists 0%nat.
  - pose proof (runQuestion_keeps fuel st w) as Hrun.
    destruct (runQuestion fuel st w) as [[st1 o] w1|st1 w1].
    + destruct Hrun as (Hsp1 & _ & Hoth & _).
      specialize (IH fuel (set_qi st1 (S (qi st1))) w1).
      assert (forall st', spent (set_qi st1 (S (qi st1))) st' /\
                (exists j : nat, forall i : nat, i <> j ->
                   quizQuestions st' !! i = quizQuestions (set_qi st1 (S (qi st1))) !! i) ->
              spent st st' /\
                (exists j : nat, forall i : nat, i <> j ->
                   quizQuestions st' !! i = quizQuestions st !! i)) as Hgo.
      { intros st' [Hsp2 [j Hj]].
        assert (spent st1 st') as Hsp2'.
        { destruct Hsp2. by constructor. }
        split; [by eapply spent_trans|].
        destruct (lif_replace st1) eqn:E.
        - exists j. intros i Hi. rewrite Hj by done. simpl.
          by rewrite (sp_once _ _ Hsp1 E).
        - exists (qi st). intros i Hi.
          rewrite (sp_same _ _ Hsp2' E). by apply Hoth. }
      destruct (quizLoop fuel n (set_qi st1 (S (qi st1))) w1) as [[st2 os] w2|st2 w2];
        by apply Hgo.
    + destruct Hrun as [Hsp Hoth]. split; [done|]. by exists (qi st).
Qed.

(** X11. A lifeline that has been used stays used to the end of the quiz,
    whether the quiz is completed or cut short: none of the four flags is
    ever set again. *)
Theorem lifelines_stay_used (n fuel : nat) (st : Quiz) (w : World) :
  match quizLoop fuel n st w with
  | Done (st', _) _ | Killed st' _ =>
      (lif_5050 st = false -> lif_5050 st' = false)
      /\ (lif_skip st = false -> lif_skip st' = false)
      /\ (lif_replace st = false -> lif_replace st' = false)
      /\ (lif_extra st = false -> lif_extra st' = false)
  end.
Proof.
  pose proof (quizLoop_spent n fuel st w) as H.
  destruct (quizLoop fuel n st w) as [[st' tr] w'|st' w'];
    destruct H as [[] _]; done.
Qed.

(** X12. During a quiz the bank is never changed and the number of quiz
    questions stays the same; the quiz questions differ from the chosen ones
    in at most one place, and not at all when Replace was already used before
    or is still available afterwards. *)
Theorem quiz_questions_change_once (n fuel : nat) (st : Quiz) (w : World) :
  match quizLoop fuel n st w with
  | Done (st', _) _ | Killed st' _ =>
      allQ st' = allQ st
      /\ length (quizQuestions st') = length (quizQuestions st)
      /\ (lif_replace st = false -> quizQuestions st' = quizQuestions st)
      /\ (lif_replace st' = true -> quizQuestions st' = quizQuestions st)
      /\ exists j : nat, forall i : nat, i <> j ->
           quizQuestions st' !! i = quizQuestions st !! i
  end.
Proof.
  pose proof (quizLoop_spent n fuel st w) as H.
  destruct (quizLoop fuel n st w) as [[st' tr] w'|st' w'];
    destruct H as [[] ?]; done.
Qed.

(** X13. A completed run of [n] questions advances [qi] and [qCount] by [n]
    and fills the next [n] cells of the two arrays of [result]: [answers]
    with the option chosen, or 0 for a question that was skipped or timed
    out, and [questionIndices] with the positions [qi, qi+1, ...] of the
    questions in the quiz, which are not their indices in the bank.  The
    cells recorded before are left as they were. *)
Theorem quiz_records_answers (n : nat) :
  forall (fuel : nat) (st : Quiz) (w : World) (st' : Quiz)
         (tr : list (Question * outcome)) (w' : World),
  quizLoop fuel n st w = Done (st', tr) w' ->
  (qCount (result st) + n <= length (answers (result st)))%nat ->
  (qCount (result st) + n <= length (questionIndices (result st)))%nat ->
  length tr = n
  /\ qi st' = (qi st + n)%nat
  /\ qCount (result st') = (qCount (result st) + n)%nat
  /\ length (answers (result st')) = length (answers (result st))
  /\ length (questionIndices (result st')) = length (questionIndices (result st))
  /\ take (qCount (result st')) (answers (result st'))
     = take (qCount (result st)) (answers (result st)) ++ map (fun x => recorded x.2) tr
  /\ take (qCount (result st')) (questionIndices (result st'))
     = take (qCount (result st)) (questionIndices (result st))
       ++ map Z.of_nat (seq (qi st) n).
Proof.
  induction n as [|n IH]; intros fuel st w st' tr w' Hrun Ha Hi; cbn [quizLoop] in Hrun.
  - simplify_eq. simpl. rewrite !Nat.add_0_r, !app_nil_r. done.
  - destruct (runQuestion fuel st w) as [[st1 o] w1|st1 w1] eqn:Hone; [|done].
    destruct (quizLoop fuel n (set_qi st1 (S (qi st1))) w1)
      as [[st2 os] w2|st2 w2] eqn:Hrest; [|done].
    simplify_eq.
    assert (slot_ok st) as Hslot by (unfold slot_ok; lia).
    pose proof (runQuestion_answer fuel st st1 o w w1 Hslot Hone) as Hans.
    pose proof (runQuestion_keeps fuel st w) as Hk. rewrite Hone in Hk.
    destruct Hk as (_ & Hqi & _ & Hqc & _ & Hidx).
    apply IH in Hrest; cbn [set_qi result qi] in *;
      [|rewrite Hqc, Hans, length_insert; lia|rewrite Hqc, Hidx, length_insert; lia].
    destruct Hrest as (Hlen & Hqi' & Hqc' & Hla & Hli & Hta & Hti).
    rewrite Hqc', Hqc in *. rewrite Hqi', Hqi.
    rewrite Hla, Hli, Hans, Hidx, !length_insert.
    rewrite Hta, Hti.
    rewrite Hans, Hidx.
    assert (<[qCount (result st) := recorded o]> (answers (result st))
              !! qCount (result st) = Some (recorded o)) as Ea
      by (apply list_lookup_insert_eq; lia).
    assert (<[qCount (result st) := Z.of_nat (qi st)]> (questionIndices (result st))
              !! qCount (result st) = Some (Z.of_nat (qi st))) as Ei
      by (apply list_lookup_insert_eq; lia).
    rewrite (take_S_r _ _ _ Ea), (take_S_r _ _ _ Ei).
    rewrite !take_insert_ge by lia.
    cbn [map seq length snd]. rewrite <- !app_assoc. cbn [app].
    rewrite Hqi. repeat split; try done; try lia.
Qed.

Lemma quiz_records_answers_witness :
  exists st' tr w',
    quizLoop 3 2 sample_quiz (typing_world "2") = Done (st', tr) w'
    /\ length tr = 2%nat
    /\ qi st' = (qi sample_quiz + 2)%nat
    /\ qCount (result st') = (qCount (result sample_quiz) + 2)%nat
    /\ length (answers (result st')) = length (answers (result sample_quiz))
    /\ length (questionIndices (result st')) = length (questionIndices (result sample_quiz))
    /\ take (qCount (result st')) (answers (result st'))
       = take (qCount (result sample_quiz)) (answers (result sample_quiz))
         ++ map (fun x => recorded x.2) tr
    /\ take (qCount (result st')) (questionIndices (result st'))
       = take (qCount (result sample_quiz)) (questionIndices (result sample_quiz))
         ++ map Z.of_nat (seq (qi sample_quiz) 2).
Proof.
  eexists _, _, _. split; [vm_compute; reflexivity|].
  eapply (quiz_records_answers 2 3 sample_quiz (typing_world "2")).
  - vm_compute; reflexivity.
  - vm_compute; lia.
  - vm_compute; lia.
Defined.

(** ** A question that is left alone *)

Lemma pollStep_unbound (st : Quiz) (w : World) :
  unbound (keyboard w (polls w)) ->
  pollStep st w = endOfTurn (checkTimeout st (set_polls w (S (polls w)))).
Proof.
  intros Hk. unfold pollStep, getNonBlockingKey.
  destruct (keyboard w (polls w)) as [|ch]; [done|].
  destruct Hk as (Hd & HL & Hl & HS & Hs).
  destruct (_ || _); [done|].
  destruct (negb (ascii_eqb ch NUL)); [|done].
  destruct (Z.leb_spec 49 (code ch)), (Z.leb_spec (code ch) 52); try lia; cbn [andb];
    unfold ascii_eqb;
    destruct (Ascii.eqb_spec ch "L"), (Ascii.eqb_spec ch "l"),
             (Ascii.eqb_spec ch "S"), (Ascii.eqb_spec ch "s"); done.
Qed.

(** X14. A question that is left alone ends by itself.  Every turn of the
    polling loop polls the keyboard once and reads the clock for the test of
    the time-out; a turn that goes on reads the clock once more in its pause,
    so that the test sees every second reading.  When the polls find no key,
    or only keys without a binding, and the test first finds [endTime]
    reached in the turn [j] from now, the polling loop ends in that turn with
    a time-out, after [j + 1] polls and [2 j + 1] readings of the clock: the
    answer 0 is recorded, the penalty of the difficulty is taken off, the
    wrong counter goes up and the streak is reset. *)
Theorem unattended_question_times_out (j : nat) :
  forall (fuel : nat) (st : Quiz) (w : World),
  (j < fuel)%nat ->
  slot_ok st ->
  (forall i : nat, (i <= j)%nat -> unbound (keyboard w (polls w + i))) ->
  (forall i : nat, (i < j)%nat -> clock w (ticks w + 2 * i) < endTime st) ->
  endTime st <= clock w (ticks w + 2 * j) ->
  exists st' w',
    pollLoop fuel st w = Done (st', Completed TimedOut) w'
    /\ polls w' = (polls w + S j)%nat /\ ticks w' = (ticks w + 2 * j + 1)%nat
    /\ files w' = files w /\ stdin w' = stdin w
    /\ userAns st' = 0 /\ remainingSecondsForCurrent (result st') = 0
    /\ score st' = int_sub (score st) (penalty (difficulty (q st)))
    /\ correctCount st' = correctCount st
    /\ wrongCount st' = int_add (wrongCount st) 1
    /\ streak st' = 0.
Proof.
  induction j as [|j IH]; intros fuel st w Hfuel Hslot Hkeys Hearly Hlate;
    (destruct fuel as [|fuel]; [lia|]); cbn [pollLoop];
    rewrite pollStep_unbound
      by (specialize (Hkeys 0%nat ltac:(lia)); by rewrite Nat.add_0_r in Hkeys);
    unfold checkTimeout, time_now; cbn [ticks set_polls clock].
  - rewrite Nat.mul_0_r, Nat.add_0_r in Hlate.
    destruct (Z.leb_spec (endTime st) (clock w (ticks w))) as [_|?]; [|lia].
    cbn [endOfTurn].
    eexists _, _. split; [reflexivity|]. simpl.
    repeat split; try done; try lia.
    unfold userAns. simpl. by apply nth_lookup_Some, list_lookup_insert_eq.
  - pose proof (Hearly 0%nat ltac:(lia)) as H0. rewrite Nat.mul_0_r, Nat.add_0_r in H0.
    destruct (Z.leb_spec (endTime st) (clock w (ticks w))) as [?|_]; [lia|].
    cbn [endOfTurn].
    set (w2 := pause _).
    assert (polls w2 = S (polls w) /\ ticks w2 = S (S (ticks w))
            /\ keyboard w2 = keyboard w /\ clock w2 = clock w
            /\ files w2 = files w /\ stdin w2 = stdin w) as (Hp2 & Ht2 & Hk2 & Hc2 & Hf2 & Hs2).
    { subst w2. unfold pause, time_now, showRemainingSecondsLine, print. simpl. done. }
    clearbody w2.
    destruct (IH fuel st w2) as (st' & w' & Hrun & Hp & Ht & Hf & Hs & Hrest);
      [lia|done|..].
    + intros i Hi. rewrite Hk2, Hp2.
      replace (S (polls w) + i)%nat with (polls w + S i)%nat by lia.
      apply Hkeys. lia.
    + intros i Hi. rewrite Hc2, Ht2.
      replace (S (S (ticks w)) + 2 * i)%nat with (ticks w + 2 * S i)%nat by lia.
      apply Hearly. lia.
    + rewrite Hc2, Ht2.
      replace (S (S (ticks w)) + 2 * j)%nat with (ticks w + 2 * S j)%nat by lia. done.
    + exists st', w'. split; [done|].
      rewrite Hp, Ht, Hf, Hs, Hp2, Ht2, Hf2, Hs2.
      repeat split; try tauto; try lia.
Qed.

Lemma unattended_question_times_out_witness :
  exists st' w',
    pollLoop 20 lone_quiz ticking_world = Done (st', Completed TimedOut) w'
    /\ polls w' = (polls ticking_world + 5)%nat
    /\ ticks w' = (ticks ticking_world + 2 * 4 + 1)%nat
    /\ files w' = files ticking_world /\ stdin w' = stdin ticking_world
    /\ userAns st' = 0 /\ remainingSecondsForCurrent (result st') = 0
    /\ score st' = int_sub (score lone_quiz) (penalty (difficulty (q lone_quiz)))
    /\ correctCount st' = correctCount lone_quiz
    /\ wrongCount st' = int_add (wrongCount lone_quiz) 1
    /\ streak st' = 0.
Proof.
  apply (unattended_question_times_out 4 20 lone_quiz ticking_world).
  - lia.
  - vm_compute. lia.
  - intros i _. exact I.
  - intros i Hi. simpl. lia.
  - simpl. lia.
Defined.

(** ** From one question to the next *)

(** X15. Whatever happened during a question, the next one starts with the
    default ten seconds: the seconds left over, and those added by Extra
    Time, are not carried along. *)
Theorem next_question_default_time (fuel : nat) (st st' : Quiz) (o : outcome)
    (w w' : World) :
  slot_ok st ->
  runQuestion fuel st w = Done (st', o) w' ->
  let st2 := (beginQuestion (set_qi st' (S (qi st'))) w').1 in
  remainingSecondsForCurrent (result st') = 0
  /\ remainingSeconds st2 = DEFAULT_TIME_PER_QUESTION
  /\ endTime st2 = time_add (clock w' (ticks w')) DEFAULT_TIME_PER_QUESTION.
Proof.
  intros Hslot Hrun.
  assert (remainingSecondsForCurrent (result st') = 0) as Hrem.
  { unfold runQuestion in Hrun.
    pose proof (beginQuestion_post st w) as Hb.
    destruct (beginQuestion st w) as [st1 w1]. destruct Hb as (Hfr1 & _).
    pose proof (questionLoop_post fuel st1 w1 (slot_ok_frame _ _ Hfr1 Hslot)) as Hq.
    destruct (questionLoop fuel st1 w1) as [[st2 o2] w2|st2 w2]; [|done].
    cbn [question_post] in Hq. destruct Hq as (_ & _ & _ & Hrem).
    destruct (evaluate_result st2 w2) as [Hres _].
    destruct (evaluate st2 w2) as [st3 w3]. cbn [fst] in Hres.
    pose proof (finishQuestion_post st3 w3) as Hf.
    destruct (finishQuestion st3 w3) as [st4 w4].
    destruct Hf as (_ & _ & _ & _ & _ & _ & _ & _ & _ & _ & _ & Hrem4).
    simplify_eq. congruence. }
  split; [done|].
  unfold beginQuestion, time_now.
  cbn [with_answer with_index remainingSecondsForCurrent set_qi result].
  rewrite Hrem. simpl. done.
Qed.

Lemma next_question_default_time_witness :
  exists st' w',
    runQuestion 3 sample_quiz (typing_world "2") = Done (st', Answered 2) w'
    /\ remainingSecondsForCurrent (result st') = 0
    /\ remainingSeconds (beginQuestion (set_qi st' (S (qi st'))) w').1
       = DEFAULT_TIME_PER_QUESTION
    /\ endTime (beginQuestion (set_qi st' (S (qi st'))) w').1
       = time_add (clock w' (ticks w')) DEFAULT_TIME_PER_QUESTION.
Proof.
  eexists _, _. split; [vm_compute; reflexivity|].
  eapply (next_question_default_time 3 sample_quiz _ (Answered 2) (typing_world "2")).
  - vm_compute. lia.
  - vm_compute. reflexivity.
Defined.

(** X16. Over a completed run of [n] questions every question is counted
    once, as correct, as wrong or as skipped; each question takes at most 5
    points off the score and adds at most 35, the 20 of a hard question and
    the 15 of the big streak. *)
Theorem quiz_score_bounds (n : nat) :
  forall (fuel : nat) (st : Quiz) (w : World) (st' : Quiz)
         (tr : list (Question * outcome)) (w' : World) (m : Z),
  quizLoop fuel n st w = Done (st', tr) w' ->
  (qCount (result st) + n <= length (answers (result st)))%nat ->
  within m (tally st) -> 0 <= m -> m + 35 * Z.of_nat n <= 1000000 ->
  correctCount st' + wrongCount st' + skips tr
    = correctCount st + wrongCount st + Z.of_nat n
  /\ correctCount st <= correctCount st'
  /\ wrongCount st <= wrongCount st'
  /\ score st - 5 * Z.of_nat n <= score st' <= score st + 35 * Z.of_nat n
  /\ 0 <= streak st' <= streak st + Z.of_nat n.
Proof.
  induction n as [|n IH]; intros fuel st w st' tr w' m Hrun Hroom Hin Hm Hbig;
    cbn [quizLoop] in Hrun.
  - simplify_eq. unfold within, tally in Hin. cbn [skips fold_right]. lia.
  - assert (slot_ok st) as Hslot by (unfold slot_ok; lia).
    assert (small (tally st)) as Hsmall.
    { unfold small, within, tally in *. lia. }
    pose proof (runQuestion_post fuel st w Hslot Hsmall) as Hone.
    destruct (runQuestion fuel st w) as [[st1 o] w1|st1 w1]; [|done].
    destruct Hone as (Htally & _ & _ & _ & _ & Hqc & Hlen & _).
    destruct (quizLoop fuel n (set_qi st1 (S (qi st1))) w1)
      as [[st2 os] w2|st2 w2] eqn:Hrest; [|done].
    simplify_eq.
    pose proof (points_range (difficulty (q st1))) as Hpts.
    pose proof (penalty_range (difficulty (q st1))) as Hpen.
    assert (within (m + 35) (tally st1)
            /\ correctCount st1 + wrongCount st1 + (if is_skipped o then 1 else 0)
               = correctCount st + wrongCount st + 1
            /\ correctCount st <= correctCount st1 /\ wrongCount st <= wrongCount st1
            /\ score st - 5 <= score st1 <= score st + 35
            /\ 0 <= streak st1 <= streak st + 1) as (Hin1 & Hcnt & Hc & Hw & Hsc & Hsk).
    { unfold within, tally, scored, bonus in *.
      destruct o; cbn [is_skipped]; repeat case_match; simplify_eq; lia. }
    eapply (IH _ _ _ _ _ _ (m + 35)) in Hrest;
      [|cbn [set_qi result]; lia|exact Hin1|lia|lia].
    cbn [set_qi score correctCount wrongCount streak] in Hrest.
    cbn [skips fold_right snd] in *. fold (skips os).
    destruct (is_skipped o); lia.
Qed.

Lemma quiz_score_bounds_witness :
  exists st' tr w',
    quizLoop 3 10 sample_quiz (typing_world "2") = Done (st', tr) w'
    /\ correctCount st' + wrongCount st' + skips tr
       = correctCount sample_quiz + wrongCount sample_quiz + Z.of_nat 10
    /\ correctCount sample_quiz <= correctCount st'
    /\ wrongCount sample_quiz <= wrongCount st'
    /\ score sample_quiz - 5 * Z.of_nat 10 <= score st'
       <= score sample_quiz + 35 * Z.of_nat 10
    /\ 0 <= streak st' <= streak sample_quiz + Z.of_nat 10.
Proof.
  eexists _, _, _. split; [vm_compute; reflexivity|].
  eapply (quiz_score_bounds 10 3 sample_quiz (typing_world "2") _ _ _ 0).
  - vm_compute; reflexivity.
  - vm_compute; lia.
  - unfold within, tally; simpl; lia.
  - lia.
  - lia.
Defined.

Lemma load_questions_loop_app (rs : list (Question * str)) :
  forall (fuel : nat) (out : list Question) (tl : str),
  Forall recordable rs ->
  Z.of_nat (length out) <= MAX_QUESTIONS ->
  load_questions_loop (length rs + fuel) (concat (map question_record rs) ++ tl) out
    = load_questions_loop fuel tl (take (Z.to_nat MAX_QUESTIONS) (out ++ rs.*1)).
Proof.
  induction rs as [|[qn sep] rs IH]; intros fuel out tl Hrs Hout.
  - simpl. rewrite app_nil_r, take_ge; [done|lia].
  - apply Forall_cons in Hrs as [Hr Hrs].
    destruct Hr as (Htxt & Htnl & Hlen & Hopts & Hci & Hoci & Hdiff & Hsep).
    cbn [fst snd] in *.
    destruct qn as [txt opts ci oci diff].
    cbn [text options correctIndex originalCorrectIndex difficulty] in *.
    destruct opts as [|o0 [|o1 [|o2 [|o3 [|? ?]]]]]; try done.
    apply Forall_cons in Hopts as [H0 Hopts]. apply Forall_cons in Hopts as [H1 Hopts].
    apply Forall_cons in Hopts as [H2 Hopts]. apply Forall_cons in Hopts as [H3 _].
    pose proof (print_int_no_bar_nl (oci + 1)) as [_ Hc].
    pose proof (print_int_no_bar_nl diff) as [_ Hd].
    cbn [map concat length Nat.add].
    set (rest := concat (map question_record rs)) in *.
    unfold question_record.
    cbn [fst snd text options correctIndex originalCorrectIndex difficulty map concat].
    rewrite !app_nil_r. rewrite <- !app_assoc. cbn [app].
    cbn [load_questions_loop]. rewrite getline_line by done.
    destruct txt as [|c txt]; [done|].
    rewrite getline_line by done. cbn [mbind option_bind fst snd].
    rewrite getline_line by done. cbn [mbind option_bind fst snd].
    rewrite getline_line by done. cbn [mbind option_bind fst snd].
    rewrite getline_line by done. cbn [mbind option_bind fst snd].
    rewrite getline_line by done. cbn [mbind option_bind fst snd].
    rewrite getline_line by done. cbn [mbind option_bind fst snd].
    rewrite stoi_print_int by (apply in_int_range_true; unfold INT_MIN, INT_MAX in *; lia).
    cbn [mbind option_bind].
    rewrite stoi_print_int by (apply in_int_range_true; unfold INT_MIN, INT_MAX in *; lia).
    cbn [mbind option_bind].
    rewrite getline_line by done.
    replace (int_sub (oci + 1) 1) with oci
      by (unfold int_sub; rewrite to_int_small by (unfold INT_MIN, INT_MAX in *; lia); lia).
    subst ci.
    destruct (Z.ltb_spec (Z.of_nat (length out)) MAX_QUESTIONS) as [Hlt|Hge].
    + rewrite IH; [|done|rewrite length_app; simpl; lia].
      by rewrite <- app_assoc.
    + rewrite IH; [|done|done].
      rewrite !take_app_le by lia. done.
Qed.

Lemma length_question_records (rs : list (Question * str)) :
  (length rs <= length (concat (map question_record rs)))%nat.
Proof.
  induction rs as [|r rs IH]; [done|]. cbn [map concat].
  rewrite length_app. unfold question_record at 1. rewrite !length_app. simpl. lia.
Qed.

(** X17. One unreadable record spoils the whole file.  After any number of
    well-formed records, a record that is cut short by the end of the file,
    or whose correct option or difficulty is not a number, makes the loader
    give up: the questions read before it are lost with it. *)
Theorem loadQuestionsFromFile_broken_record (fn : string) (w : World)
    (rs : list (Question * str)) (txt : str) (rest : list str) :
  Forall recordable rs ->
  txt <> [] ->
  Forall (fun l => NL ∉ l) (txt :: rest) ->
  ((length rest < 6)%nat \/ stoi (nth 4 rest []) = None \/ stoi (nth 5 rest []) = None) ->
  files w !! fn = Some (concat (map question_record rs) ++ lines_text (txt :: rest)) ->
  loadQuestionsFromFile fn w = None.
Proof.
  intros Hrs Htxt Hnl Hbad Hfile. unfold loadQuestionsFromFile. rewrite Hfile.
  set (tl := lines_text (txt :: rest)).
  assert (load_questions_loop (S (length (concat (map question_record rs) ++ tl)))
            (concat (map question_record rs) ++ tl) [] = None) as ->; [|done].
  pose proof (length_question_records rs) as Hlen.
  rewrite length_app.
  replace (S (length (concat (map question_record rs)) + length tl))
    with (length rs + S (length (concat (map question_record rs)) - length rs + length tl))%nat
    by lia.
  rewrite load_questions_loop_app; [|done|simpl; unfold MAX_QUESTIONS; lia].
  set (out := take _ _). set (fuel := (_ - _ + _)%nat). clearbody out fuel.
  subst tl. unfold lines_text.
  apply Forall_cons in Hnl as [Ht Hnl].
  cbn [map concat load_questions_loop]. rewrite <- app_assoc. cbn [app].
  rewrite getline_line by done.
  destruct txt as [|c txt]; [done|].
  repeat (destruct rest as [|? rest];
          [cbn [map concat getline mbind option_bind]; done|];
          apply Forall_cons in Hnl as [? Hnl];
          cbn [map concat]; rewrite <- app_assoc; cbn [app];
          rewrite getline_line by done; cbn [mbind option_bind fst snd]).
  cbn [nth length] in Hbad.
  destruct Hbad as [?|[->| ->]]; [lia|done|].
  by destruct (stoi _).
Qed.

(** ** The choice of the questions *)

Lemma NoDup_iota (n : nat) : NoDup (iota n).
Proof.
  unfold iota. apply NoDup_fmap_2; [|apply NoDup_seq].
  intros a b. lia.
Qed.

Lemma length_iota (n : nat) : length (iota n) = n.
Proof. unfold iota. by rewrite length_map, length_seq. Qed.

Lemma filter_indices_length (diff : Z) (l : list Question) :
  forall (pre : list Question),
  length (filter (fun i => difficulty (at_index no_question (pre ++ l) i) = diff)
                 (map Z.of_nat (seq (length pre) (length l))))
  = length (matching l diff).
Proof.
  unfold matching.
  induction l as [|x l IH]; intros pre; [done|].
  cbn [length seq map]. rewrite !filter_cons.
  assert (at_index no_question (pre ++ x :: l) (Z.of_nat (length pre)) = x) as ->.
  { unfold at_index. rewrite Nat2Z.id. by rewrite app_nth2, Nat.sub_diag by lia. }
  specialize (IH (pre ++ [x])).
  rewrite <- app_assoc, length_app in IH. cbn [app length] in IH.
  rewrite Nat.add_1_r in IH.
  destruct (decide (difficulty x = diff)); cbn [length]; by rewrite IH.
Qed.

Lemma make_pool_cases (allQ : list Question) (diff : Z) :
  let pool := make_pool allQ diff in
  NoDup pool
  /\ ((length (matching allQ diff) < 10)%nat -> pool = iota (length allQ))
  /\ ((10 <= length (matching allQ diff))%nat ->
      length pool = length (matching allQ diff)
      /\ Forall (fun i => difficulty (at_index no_question allQ i) = diff) pool).
Proof.
  unfold make_pool.
  pose proof (filter_indices_length diff allQ []) as Hlen. cbn [app length] in Hlen.
  fold (iota (length allQ)) in Hlen.
  set (pool := filter _ _) in *.
  destruct (Nat.ltb_spec (length pool) 10) as [Hlt|Hge].
  - split; [apply NoDup_iota|]. split; [done|lia].
  - split; [apply NoDup_filter, NoDup_iota|]. split; [lia|].
    intros _. split; [done|].
    apply Forall_forall. intros i Hi. subst pool.
    by apply list_elem_of_filter in Hi as [Hi _].
Qed.

(** X18. The questions of a quiz are chosen without repetition.  When at
    least ten questions of the bank have the chosen difficulty, ten different
    questions of that difficulty are taken; otherwise the difficulty is
    ignored and the quiz takes ten different questions of the whole bank, or
    all of them when the bank has fewer than ten. *)
Theorem quiz_selection (allQ : list Question) (diff : Z) (w : World) :
  let pool := make_pool allQ diff in
  let shuffled := (shuffleIntArray pool (length pool) w).1 in
  let quizCount := if (10 <? length shuffled)%nat then 10%nat else length shuffled in
  let chosen := take quizCount shuffled in
  NoDup chosen
  /\ Forall (fun i => 0 <= i < Z.of_nat (length allQ)) chosen
  /\ ((10 <= length (matching allQ diff))%nat ->
      length chosen = 10%nat
      /\ Forall (fun i => difficulty (at_index no_question allQ i) = diff) chosen)
  /\ ((length (matching allQ diff) < 10)%nat ->
      length chosen = Nat.min 10 (length allQ)).
Proof.
  intros pool shuffled quizCount chosen.
  destruct (make_pool_cases allQ diff) as (Hnd & Hfew & Hmany). fold pool in Hnd, Hfew, Hmany.
  assert (shuffled ≡ₚ pool) as Hperm by (apply shuffleIntArray_perm; lia).
  assert (length chosen = Nat.min 10 (length pool)) as Hlen.
  { subst chosen quizCount. rewrite length_take, (Permutation_length Hperm).
    destruct (Nat.ltb_spec 10 (length pool)); lia. }
  split; [|split; [|split]].
  - subst chosen. apply (sublist_NoDup _ shuffled); [by rewrite Hperm|apply sublist_take].
  - apply chosen_in_range.
  - intros H10. destruct (Hmany H10) as [Hl Hall]. split; [lia|].
    subst chosen. apply Forall_take. by rewrite Hperm.
  - intros Hlt. rewrite Hlen, (Hfew Hlt), length_iota. done.
Qed.

(** ** The end of a quiz *)

Lemma nowString_world (w : World) :
  (nowString w).2 = set_ticks w (S (ticks w)).
Proof. unfold nowString, time_now. by repeat case_match. Qed.

(** X19. At the end of a quiz the progress file is removed, the high-score
    file grows by exactly one line, which carries the player's name and the
    final score with a negative score raised to 0, and the session log grows
    at its end; no other file is touched.  The line of the log still shows
    the score as it was recorded, which may be negative. *)
Theorem endQuiz_files (hs lg : string) (st : Quiz) (w : World) :
  hs <> lg -> hs <> saveFile st -> lg <> saveFile st ->
  let w' := endQuiz hs lg st w in
  files w' !! saveFile st = None
  /\ (exists dt : str,
        files w' !! hs
        = Some (default [] (files w !! hs)
                ++ format_entry (mkScoreEntry (playerName (result st))
                                              (Z.max 0 (score st)) dt)))
  /\ (exists now_s tl : str,
        files w' !! lg
        = Some (default [] (files w !! lg)
                ++ lit "Player: " ++ playerName (result st) ++ lit " | Score: "
                ++ print_int (r_score (result st)) ++ lit " | Correct: "
                ++ print_int (r_correct (result st)) ++ lit " | Wrong: "
                ++ print_int (r_wrong (result st)) ++ lit " | Time: " ++ now_s
                ++ [NL] ++ tl))
  /\ (forall f : string, f <> hs -> f <> lg -> f <> saveFile st ->
      files w' !! f = files w !! f)
  /\ stdin w' = tail (stdin w)
  /\ ticks w' = (ticks w + 2)%nat /\ draws w' = draws w /\ polls w' = polls w.
Proof.
  intros Hhl Hhs Hls. unfold endQuiz.
  set (sc := if score st <? 0 then 0 else score st).
  assert (sc = Z.max 0 (score st)) as Hsc.
  { subst sc. destruct (Z.ltb_spec (score st) 0); lia. }
  set (w1 := print _ w).
  pose proof (nowString_world w1) as Hn1.
  destruct (nowString w1) as [dt w2]. cbn [snd] in Hn1. subst w2.
  unfold logSession.
  set (w3 := writeHighScore _ _ _).
  pose proof (nowString_world w3) as Hn3.
  destruct (nowString w3) as [now_s w4]. cbn [snd] in Hn3. subst w4.
  subst w3 w1. unfold writeHighScore, file_append, cin_ignore, print.
  cbn [files set_files set_ticks set_console set_stdin stdin ticks draws polls console].
  split; [by rewrite lookup_delete_eq|].
  split.
  { exists dt. rewrite lookup_delete_ne, lookup_insert_ne, lookup_insert_eq by done.
    by rewrite Hsc. }
  split.
  { eexists now_s, _. rewrite lookup_delete_ne, lookup_insert_eq by done.
    rewrite lookup_insert_ne by done. reflexivity. }
  split.
  { intros f ? ? ?. by rewrite lookup_delete_ne, !lookup_insert_ne by done. }
  repeat split; lia.
Qed.

Lemma endQuiz_files_witness :
  files (endQuiz highScoreFile logFile sample_quiz idle_world) !! saveFileName = None
  /\ stdin (endQuiz highScoreFile logFile sample_quiz idle_world) = tail (stdin idle_world).
Proof.
  destruct (endQuiz_files highScoreFile logFile sample_quiz idle_world)
    as (Hgone & _ & _ & _ & Hin & _); [discriminate..|].
  split; [exact Hgone | exact Hin].
Defined.

(** ** The files of a running quiz *)

Lemma files_but_refl (fn : string) (w : World) : files_but fn w w.
Proof. by intros f _. Qed.

Lemma files_but_trans (fn : string) (a b c : World) :
  files_but fn a b -> files_but fn b c -> files_but fn a c.
Proof. intros H1 H2 f Hf. by rewrite H2, H1. Qed.

Lemma files_but_same (fn : string) (w w' : World) :
  files w' = files w -> files_but fn w w'.
Proof. intros E f _. by rewrite E. Qed.

Lemma autoSave_files_but (completed : bool) (st : Quiz) (w : World) :
  files_but (saveFile st) w (autoSave completed st w).2.
Proof.
  unfold autoSave, time_now, saveProgress, file_write.
  destruct completed; intros f Hf; simpl; by rewrite lookup_insert_ne.
Qed.

Lemma finishQuestion_files_but (st : Quiz) (w : World) :
  files_but (saveFile st) w (finishQuestion st w).2.
Proof.
  unfold finishQuestion, time_now, saveProgress, file_write.
  intros f Hf; simpl; by rewrite lookup_insert_ne.
Qed.

Lemma questionLoop_files_but (fuel : nat) : forall (st : Quiz) (w : World),
  slot_ok st ->
  match questionLoop fuel st w with
  | Done _ w' | Killed _ w' => files_but (saveFile st) w w'
  end.
Proof.
  induction fuel as [|fuel IH]; intros st w Hslot; simpl; [apply files_but_refl|].
  unfold drawAndPoll.
  destruct (pollLoop_post fuel st (display st w) Hslot) as [Hpost _].
  destruct (pollLoop fuel st (display st w)) as [[st1 t] w1|st1 w1];
    cbn [poll_post] in Hpost; destruct Hpost as (Hfr & Hf & _);
    rewrite files_display in Hf; [|by apply files_but_same].
  set (c := match t with Completed _ => true | _ => false end).
  pose proof (autoSave_files_but c st1 w1) as Hsave.
  pose proof (autoSave_post c st1 w1) as Hpost.
  destruct (autoSave c st1 w1) as [st2 w2]. cbn [snd] in Hsave.
  destruct Hpost as (Hfr2 & _).
  rewrite (fr_saveFile _ _ Hfr) in Hsave.
  assert (files_but (saveFile st) w w2) as H02.
  { eapply files_but_trans; [by apply files_but_same|done]. }
  assert (frame st st2) as Hfr02 by (by eapply frame_trans).
  destruct t as [| |o]; try done.
  - specialize (IH st2 w2 (slot_ok_frame _ _ Hfr02 Hslot)).
    rewrite (fr_saveFile _ _ Hfr02) in IH.
    destruct (questionLoop fuel st2 w2) as [[st3 o3] w3|st3 w3];
      by eapply files_but_trans.
  - specialize (IH st2 w2 (slot_ok_frame _ _ Hfr02 Hslot)).
    rewrite (fr_saveFile _ _ Hfr02) in IH.
    destruct (questionLoop fuel st2 w2) as [[st3 o3] w3|st3 w3];
      by eapply files_but_trans.
Qed.

Lemma runQuestion_files_but (fuel : nat) (st : Quiz) (w : World) :
  slot_ok st ->
  match runQuestion fuel st w with
  | Done (st', _) w' =>
      saveFile st' = saveFile st /\ files_but (saveFile st) w w'
      /\ files w' !! saveFile st = Some (progress_text (result st'))
  | Killed st' w' =>
      saveFile st' = saveFile st /\ files_but (saveFile st) w w'
  end.
Proof.
  intros Hslot. unfold runQuestion.
  pose proof (beginQuestion_post st w) as Hb.
  destruct (beginQuestion st w) as [st1 w1]. destruct Hb as (Hfr1 & _ & Hf1).
  assert (slot_ok st1) as Hslot1 by (by eapply slot_ok_frame).
  pose proof (questionLoop_files_but fuel st1 w1 Hslot1) as Hq.
  pose proof (questionLoop_post fuel st1 w1 Hslot1) as Hqp.
  rewrite (fr_saveFile _ _ Hfr1) in Hq.
  destruct (questionLoop fuel st1 w1) as [[st2 o] w2|st2 w2].
  - cbn [question_post] in Hqp. destruct Hqp as (Hfr2 & _).
    pose proof (evaluate_files st2 w2) as He.
    pose proof (evaluate_keeps st2 w2) as Hek.
    assert (saveFile (evaluate st2 w2).1 = saveFile st2) as Hes.
    { unfold evaluate. destruct (userAns st2 =? 0); [done|].
      destruct (_ =? correctIndex _); [|done].
      destruct (_ =? 3); [done|]. by destruct (_ =? 5). }
    destruct (evaluate st2 w2) as [st3 w3]. cbn [fst snd] in *.
    pose proof (finishQuestion_files_but st3 w3) as Hf.
    pose proof (finishQuestion_post st3 w3) as Hfp.
    destruct (finishQuestion st3 w3) as [st4 w4]. cbn [snd] in Hf.
    destruct Hfp as (_ & _ & Hs4 & _ & _ & _ & _ & _ & _ & Hfile4 & _).
    rewrite Hes, (fr_saveFile _ _ Hfr2), (fr_saveFile _ _ Hfr1) in Hf.
    assert (saveFile st4 = saveFile st) as Hs.
    { rewrite Hs4, Hes, (fr_saveFile _ _ Hfr2); by apply fr_saveFile. }
    split; [done|]. split; [|by rewrite <- Hs].
    eapply files_but_trans; [|exact Hf].
    eapply files_but_trans; [|by apply files_but_same].
    eapply files_but_trans; [by apply files_but_same|exact Hq].
  - destruct Hqp as (Hfr2 & _).
    split; [rewrite (fr_saveFile _ _ Hfr2); by apply fr_saveFile|].
    eapply files_but_trans; [by apply files_but_same|exact Hq].
Qed.

Lemma quizLoop_files_but (n : nat) : forall (fuel : nat) (st : Quiz) (w : World),
  (qCount (result st) + n <= length (answers (result st)))%nat ->
  match quizLoop fuel n st w with
  | Done (st', _) w' =>
      saveFile st' = saveFile st /\ files_but (saveFile st) w w'
      /\ ((0 < n)%nat -> files w' !! saveFile st = Some (progress_text (result st')))
  | Killed st' w' =>
      saveFile st' = saveFile st /\ files_but (saveFile st) w w'
  end.
Proof.
  induction n as [|n IH]; intros fuel st w Hroom; cbn [quizLoop].
  { split; [done|]. split; [apply files_but_refl|lia]. }
  assert (slot_ok st) as Hslot by (unfold slot_ok; lia).
  pose proof (runQuestion_files_but fuel st w Hslot) as Hone.
  pose proof (runQuestion_keeps fuel st w) as Hk.
  pose proof (runQuestion_answer fuel st) as Hans.
  destruct (runQuestion fuel st w) as [[st1 o] w1|st1 w1] eqn:Hrun; [|done].
  destruct Hone as (Hs1 & Hf1 & Hfile1). destruct Hk as (_ & _ & _ & Hqc & _).
  specialize (Hans st1 o w w1 Hslot Hrun).
  specialize (IH fuel (set_qi st1 (S (qi st1))) w1).
  cbn [set_qi result saveFile] in IH.
  rewrite Hqc, Hans, length_insert, Hs1 in IH. specialize (IH ltac:(lia)).
  destruct n as [|n].
  - cbn [quizLoop] in *. split; [done|]. split; [done|]. by intros _.
  - destruct (quizLoop fuel (S n) (set_qi st1 (S (qi st1))) w1) as [[st2 os] w2|st2 w2].
    + destruct IH as (Hs2 & Hf2 & Hfile2). split; [done|].
      split; [by eapply files_but_trans|]. intros _. apply Hfile2. lia.
    + destruct IH as (Hs2 & Hf2). split; [done|]. by eapply files_but_trans.
Qed.

(** X20. A running quiz writes to its progress file and to no other file:
    the question files, the high-score file and the log are as they were when
    the quiz ends or is cut short.  After a completed run of at least one
    question the progress file holds the final [result]. *)
Theorem quiz_touches_only_progress_file (n fuel : nat) (st : Quiz) (w : World) :
  (qCount (result st) + n <= length (answers (result st)))%nat ->
  match quizLoop fuel n st w with
  | Done (st', _) w' =>
      saveFile st' = saveFile st
      /\ (forall f : string, f <> saveFile st -> files w' !! f = files w !! f)
      /\ ((0 < n)%nat -> files w' !! saveFile st = Some (progress_text (result st')))
  | Killed st' w' =>
      saveFile st' = saveFile st
      /\ (forall f : string, f <> saveFile st -> files w' !! f = files w !! f)
  end.
Proof. apply quizLoop_files_but. Qed.

Lemma quiz_touches_only_progress_file_witness :
  match quizLoop 3 10 sample_quiz (typing_world "2") with
  | Done (st', _) w' =>
      saveFile st' = saveFile sample_quiz
      /\ (forall f : string, f <> saveFile sample_quiz ->
           files w' !! f = files (typing_world "2") !! f)
      /\ ((0 < 10)%nat ->
          files w' !! saveFile sample_quiz = Some (progress_text (result st')))
  | Killed st' w' =>
      saveFile st' = saveFile sample_quiz
      /\ (forall f : string, f <> saveFile sample_quiz ->
           files w' !! f = files (typing_world "2") !! f)
  end.
Proof.
  apply (quiz_touches_only_progress_file 10 3 sample_quiz (typing_world "2")).
  vm_compute. lia.
Defined.

(** ** The main menu *)

Lemma print_rows_world {A : Type} (f : World -> A -> World) (l : list A) :
  (forall (w : World) (x : A), exists s : str, f w x = print s w) ->
  forall (w : World),
  let w' := foldl f w l in
  files w' = files w /\ stdin w' = stdin w /\ draws w' = draws w
  /\ ticks w' = ticks w /\ polls w' = polls w
  /\ length (console w') = (length (console w) + length l)%nat.
Proof.
  intros Hf. induction l as [|x l IH]; intros w; cbn [foldl].
  { repeat split; try done; simpl; lia. }
  destruct (Hf w x) as [s ->].
  destruct (IH (print s w)) as (? & ? & ? & ? & ? & Hlen).
  unfold print in *. cbn [files stdin draws ticks polls console set_console] in *.
  rewrite length_app in Hlen. cbn [length] in *. repeat split; try done. lia.
Qed.

(** X21. Viewing the high scores changes no file, draws no random number
    and reads one line of input; it prints one line for each of the best
    entries, five at most, between a heading and the prompt, or two lines
    when there is no entry. *)
Theorem displayTopHighScores_shows_five (fn : string) (w : World) :
  let w' := displayTopHighScores fn w in
  files w' = files w /\ stdin w' = tail (stdin w) /\ draws w' = draws w
  /\ ticks w' = ticks w /\ polls w' = polls w
  /\ length (console w')
     = (length (console w) + 2 + Nat.min 5 (length (readHighScores fn w)))%nat.
Proof.
  unfold displayTopHighScores.
  destruct (readHighScores fn w) as [|e es] eqn:E.
  - unfold cin_ignore, print. simpl. rewrite !length_app. simpl.
    repeat split; try done. lia.
  - set (scores := e :: es).
    set (sorted := selection_sort scores 0 (length scores - 1)).
    assert (length sorted = length scores) as Hlen.
    { apply Permutation_length.
      apply (selection_sort_spec (length scores - 1) scores 0).
      - left. simpl. lia.
      - intros a b Ha. lia. }
    set (w1 := print _ w).
    set (rows := imap (fun i e => (i, e)) (take 5 sorted)).
    match goal with |- context [foldl ?f w1 rows] =>
      pose proof (print_rows_world f rows) as H end.
    cbn zeta in H.
    destruct (H ltac:(intros v [i x]; by eexists) w1) as (Hf & Hs & Hd & Ht & Hp & Hc).
    clear H. set (w2 := foldl _ w1 rows) in *. clearbody w2.
    subst rows. rewrite length_imap, length_take, Hlen in Hc.
    subst w1. unfold cin_ignore, print in *.
    cbn [files stdin draws ticks polls console set_console set_stdin] in *.
    rewrite !length_app in *. cbn [length] in *.
    repeat split; try congruence. lia.
Qed.

Lemma banks_kept_refl (w : World) : banks_kept w w.
Proof. by intros f _. Qed.

Lemma banks_kept_trans (a b c : World) : banks_kept a b -> banks_kept b c -> banks_kept a c.
Proof. intros H1 H2 f Hf. by rewrite H2, H1. Qed.

Lemma banks_kept_same (w w' : World) : files w' = files w -> banks_kept w w'.
Proof. intros E f _. by rewrite E. Qed.

Lemma files_copy_and_shuffle (allQ : list Question) (chosen : list Z) :
  forall (w : World), files (copy_and_shuffle allQ chosen w).2 = files w.
Proof.
  induction chosen as [|i chosen IH]; intros w; cbn [copy_and_shuffle]; [done|].
  pose proof (files_shuffleOptions (at_index no_question allQ i) w) as H1.
  destruct (shuffleOptions _ w) as [qn w1].
  specialize (IH w1). destruct (copy_and_shuffle allQ chosen w1) as [qs w2].
  cbn [snd] in *. congruence.
Qed.

Lemma endQuiz_banks_kept (st : Quiz) (w : World) :
  saveFile st = saveFileName ->
  banks_kept w (endQuiz highScoreFile logFile st w).
Proof.
  intros Hs f Hf. unfold own_files in Hf.
  rewrite !not_elem_of_cons in Hf. destruct Hf as (Hh & Hl & Hsv & _).
  unfold endQuiz.
  set (w1 := print _ w).
  pose proof (nowString_world w1) as Hn1.
  destruct (nowString w1) as [dt w2]. cbn [snd] in Hn1. subst w2.
  unfold logSession.
  set (w3 := writeHighScore _ _ _).
  pose proof (nowString_world w3) as Hn3.
  destruct (nowString w3) as [now_s w4]. cbn [snd] in Hn3. subst w4.
  subst w3 w1. unfold writeHighScore, file_append, cin_ignore, print.
  cbn [files set_files set_ticks set_console set_stdin].
  rewrite Hs. by rewrite lookup_delete_ne, !lookup_insert_ne by done.
Qed.

Lemma startQuiz_banks_kept (fuel : nat) (categoryFile : string) (w : World) :
  match startQuiz fuel categoryFile highScoreFile logFile saveFileName w with
  | Returned w' | Stuck w' => banks_kept w w'
  end.
Proof.
  unfold startQuiz.
  destruct (loadQuestionsFromFile categoryFile w) as [allQ|]; [|by apply banks_kept_same].
  pose proof (files_shuffleIntArray (iota (length allQ)) (length allQ) w) as H1.
  destruct (shuffleIntArray (iota (length allQ)) (length allQ) w) as [idx w1].
  cbn [snd] in H1.
  set (w2 := print (lit "Enter your name: ") w1).
  assert (files (cin_getline w2).2 = files w) as H3.
  { unfold cin_getline. subst w2. by destruct (stdin _). }
  destruct (cin_getline w2) as [name w3]. cbn [snd] in H3.
  set (name' := match name with [] => lit "Player" | _ => name end).
  set (w4 := print _ w3).
  pose proof (files_getIntInRange 1 3 w4) as H5.
  destruct (getIntInRange 1 3 w4) as [[diff|] w5]; cbn [snd] in H5;
    [|apply banks_kept_same; subst w4; simpl in H5; congruence].
  set (pool := make_pool allQ diff).
  pose proof (files_shuffleIntArray pool (length pool) w5) as H6.
  destruct (shuffleIntArray pool (length pool) w5) as [pool' w6]. cbn [snd] in H6.
  set (quizCount := if (10 <? length pool')%nat then 10%nat else length pool').
  pose proof (files_copy_and_shuffle allQ (take quizCount pool') w6) as H7.
  destruct (copy_and_shuffle allQ (take quizCount pool') w6) as [qq w7]. cbn [snd] in H7.
  unfold time_now.
  set (st := mkQuiz _ _ _ _ _ _ _ _ _ _ _ _ _ _ _ _ _).
  set (w8 := cin_ignore _).
  assert (files w8 = files w) as H8.
  { subst w8 w4. unfold cin_ignore, print in *. simpl in *. congruence. }
  pose proof (quizLoop_files_but quizCount fuel st w8) as Hq.
  assert (quizCount <= 10)%nat as Hc.
  { subst quizCount. destruct (Nat.ltb_spec 10 (length pool')); lia. }
  specialize (Hq ltac:(subst st; cbn [result qCount answers]; unfold blank_array;
                        rewrite length_replicate; unfold MAX_QUIZ_QUESTIONS; lia)).
  assert (forall w9, files_but saveFileName w8 w9 -> banks_kept w w9) as Hgo.
  { intros w9 H9 f Hf. rewrite H9, H8; [done|].
    intros ->. apply Hf. unfold own_files. rewrite !elem_of_cons. auto. }
  destruct (quizLoop fuel quizCount st w8) as [[st' tr] w9|st' w9].
  - destruct Hq as (Hs & Hf & _).
    eapply banks_kept_trans; [by apply Hgo|].
    apply endQuiz_banks_kept. by rewrite Hs.
  - destruct Hq as (Hs & Hf). by apply Hgo.
Qed.

Lemma files_displayTopHighScores (fn : string) (w : World) :
  files (displayTopHighScores fn w) = files w.
Proof.
  unfold displayTopHighScores.
  destruct (readHighScores fn w) as [|e es]; [done|].
  set (w1 := print _ w). set (rows := imap _ _).
  match goal with |- context [foldl ?f w1 rows] =>
    pose proof (print_rows_world f rows) as H end.
  cbn zeta in H.
  destruct (H ltac:(intros v [i x]; by eexists) w1) as (Hf & _).
  clear H. set (w2 := foldl _ w1 rows) in *. clearbody w2. subst w1.
  unfold cin_ignore, print in *. cbn [files set_stdin set_console] in *. done.
Qed.

Lemma menuTurn_banks_kept (fuel : nat) (w : World) :
  match (menuTurn fuel w).2 with
  | Returned w' | Stuck w' => banks_kept w w'
  end.
Proof.
  unfold menuTurn.
  set (w1 := print menu_text _).
  pose proof (files_getIntInRange 1 4 w1) as H1.
  destruct (getIntInRange 1 4 w1) as [[choice|] w2]; cbn [snd] in *;
    [|by apply banks_kept_same].
  assert (files w2 = files w) as H2 by (by rewrite H1).
  destruct (choice =? 1).
  { set (w3 := print _ w2).
    pose proof (files_getIntInRange 1 5 w3) as H3.
    change (files w3) with (files w2) in H3.
    destruct (getIntInRange 1 5 w3) as [[cat|] w4]; cbn [snd] in *;
      [|apply banks_kept_same; congruence].
    pose proof (startQuiz_banks_kept fuel (category_file cat) w4) as Hq.
    assert (banks_kept w w4) as H4 by (apply banks_kept_same; congruence).
    destruct (startQuiz _ _ _ _ _ w4); by eapply banks_kept_trans. }
  destruct (choice =? 2).
  { cbn [snd]. apply banks_kept_same. by rewrite files_displayTopHighScores. }
  destruct (choice =? 3).
  { cbn [snd]. pose proof (resumeBranch_frame w2) as Hr.
    destruct (resumeBranch w2); destruct Hr as (Hf & _);
      apply banks_kept_same; congruence. }
  destruct (choice =? 4); [|by apply banks_kept_same].
  set (w3 := print _ w2).
  assert (files (cin_getline w3).2 = files w) as H3.
  { unfold cin_getline. subst w3. by destruct (stdin _). }
  destruct (cin_getline w3) as [s w4]. cbn [snd] in H3.
  destruct s as [|c s]; [by apply banks_kept_same|].
  destruct (_ || _); by apply banks_kept_same.
Qed.

(** X22. The program writes to three files of its own, the high scores,
    the log and the saved progress, and to nothing else: however many turns
    of the menu are taken and however they end, every other file, the five
    question files among them, is as it was at the start. *)
Theorem program_writes_only_its_files (turns : nat) :
  forall (fuel : nat) (w : World),
  match mainLoop turns fuel w with
  | Returned w' | Stuck w' =>
      forall f : string,
        f <> highScoreFile -> f <> logFile -> f <> saveFileName ->
        files w' !! f = files w !! f
  end.
Proof.
  assert (forall w w', banks_kept w w' ->
            forall f : string,
              f <> highScoreFile -> f <> logFile -> f <> saveFileName ->
              files w' !! f = files w !! f) as Hgo.
  { intros w w' H f ? ? ?. apply H. unfold own_files.
    rewrite !not_elem_of_cons. repeat split; try done. apply not_elem_of_nil. }
  assert (forall fuel w,
            match mainLoop turns fuel w with
            | Returned w' | Stuck w' => banks_kept w w'
            end) as Hall.
  { induction turns as [|turns IH]; intros fuel w; cbn [mainLoop];
      [apply banks_kept_refl|].
    pose proof (menuTurn_banks_kept fuel w) as Ht.
    destruct (menuTurn fuel w) as [b e]. cbn [snd] in Ht.
    destruct b, e as [w1|w1]; try done.
    specialize (IH fuel w1).
    destruct (mainLoop turns fuel w1); by eapply banks_kept_trans. }
  intros fuel w. specialize (Hall fuel w).
  destruct (mainLoop turns fuel w); by apply Hgo.
Qed.

Lemma menuTurn_leaves (fuel : nat) (w w' : World) :
  menuTurn fuel w = (false, Returned w') ->
  last (console w') = Some (lit "Goodbye!" ++ [NL]) /\ files w' = files w.
Proof.
  unfold menuTurn.
  set (w1 := print menu_text _).
  pose proof (files_getIntInRange 1 4 w1) as H1.
  destruct (getIntInRange 1 4 w1) as [[choice|] w2]; [|done]. cbn [snd] in H1.
  destruct (choice =? 1).
  { by destruct (getIntInRange 1 5 _) as [[cat|] w4]. }
  destruct (choice =? 2); [done|].
  destruct (choice =? 3); [done|].
  destruct (choice =? 4); [|done].
  unfold cin_getline. cbn [print stdin set_console].
  destruct (stdin w2) as [|[|c s] rest] eqn:Hin; try done.
  destruct (_ || _) eqn:Hy; [|done].
  intros E. simplify_eq. cbn [console set_console print set_stdin stdin files].
  split; [apply last_snoc|]. by rewrite H1.
Qed.

(** X23. The program ends in one way only: when [main] returns, the last
    thing on the console is the farewell of the Exit branch.  No other
    choice of the menu, and no quiz however it goes, leaves the loop. *)
Theorem main_returns_after_goodbye (turns : nat) :
  forall (fuel : nat) (w w' : World),
  mainLoop turns fuel w = Returned w' ->
  last (console w') = Some (lit "Goodbye!" ++ [NL]).
Proof.
  induction turns as [|turns IH]; intros fuel w w' Hrun; cbn [mainLoop] in Hrun; [done|].
  destruct (menuTurn fuel w) as [b e] eqn:Ht.
  destruct b, e as [w1|w1]; try done.
  - by eapply IH.
  - simplify_eq. by eapply menuTurn_leaves.
Qed.

Lemma main_returns_after_goodbye_witness :
  exists w' : World,
    mainLoop 5 5 session_world = Returned w'
    /\ last (console w') = Some (lit "Goodbye!" ++ [NL]).
Proof.
  eexists. split; [vm_compute; reflexivity|].
  apply (main_returns_after_goodbye 5 5 session_world). vm_compute. reflexivity.
Defined.

Lemma loadQuestionsFromFile_broken_record_witness :
  loadQuestionsFromFile scienceFile
    (set_files idle_world
       {[ scienceFile := concat (map question_record [(lone_question, [])])
                         ++ lines_text [lit "Cut short"; lit "alpha"; lit "beta"] ]})
  = None.
Proof.
  apply (loadQuestionsFromFile_broken_record scienceFile _ [(lone_question, [])]
           (lit "Cut short") [lit "alpha"; lit "beta"]).
  - constructor; [|constructor]. unfold recordable.
    split; [discriminate|].
    split; [apply (bool_decide_unpack _); by vm_compute|].
    split; [reflexivity|].
    split; [repeat constructor; apply (bool_decide_unpack _); by vm_compute|].
    split; [reflexivity|].
    split; [simpl; unfold INT_MIN, INT_MAX; lia|].
    split; [simpl; unfold INT_MIN, INT_MAX; lia|].
    apply (bool_decide_unpack _); by vm_compute.
  - discriminate.
  - repeat constructor; apply (bool_decide_unpack _); by vm_compute.
  - left. simpl. lia.
  - vm_compute. reflexivity.
Defined.

(** ** The clock while the lifeline menu is open *)

Lemma clock_shuffle_from (k : nat) : forall (arr : list Z) (w : World),
  clock (shuffle_from k arr w).2 = clock w /\ ticks (shuffle_from k arr w).2 = ticks w.
Proof.
  induction k as [|k IH]; intros arr w; simpl; [done|]. by destruct (IH (swap arr (S k)
    (Z.to_nat ((Z.of_N (rand_src w (draws w)) mod (RAND_MAX + 1)) mod (Z.of_nat (S k) + 1))))
    (set_draws w (S (draws w)))).
Qed.

Lemma clock_shuffleOptions (qn : Question) (w : World) :
  clock (shuffleOptions qn w).2 = clock w /\ ticks (shuffleOptions qn w).2 = ticks w.
Proof.
  unfold shuffleOptions, shuffleIntArray.
  pose proof (clock_shuffle_from (4 - 1) [0; 1; 2; 3] w) as H.
  by destruct (shuffle_from (4 - 1) [0; 1; 2; 3] w).
Qed.

Lemma clock_replace_search (n : nat) (st : Quiz) : forall (w : World),
  clock (replace_search n st w).2 = clock w /\ ticks (replace_search n st w).2 = ticks w.
Proof.
  induction n as [|n IH]; intros w; cbn [replace_search]; [done|].
  unfold rand. case_bool_decide.
  - match goal with |- context [shuffleOptions ?c ?v] =>
      pose proof (clock_shuffleOptions c v) as Hf; by destruct (shuffleOptions c v) end.
  - by destruct (IH (set_draws w (S (draws w)))).
Qed.

Lemma clock_getIntInRange_from (lines : list str) (minv maxv : Z) : forall (w : World),
  clock (getIntInRange_from lines minv maxv w).2 = clock w
  /\ ticks (getIntInRange_from lines minv maxv w).2 = ticks w.
Proof.
  induction lines as [|s rest IH]; intros w; cbn [getIntInRange_from]; [done|].
  set (w1 := print _ (set_stdin w rest)).
  destruct (IH w1) as (E1 & E2).
  destruct (stoi s) as [v|]; [destruct (_ && _)|]; cbv zeta; rewrite ?E1, ?E2; done.
Qed.

(** X24. The lifeline menu announces a paused timer, but the deadline of
    the question is moved only by Replace and by Extra Time.  After any other
    visit of the menu, a cancel, a 50/50, a skip or a lifeline that is
    refused, the deadline is the one from before, so the seconds spent in the
    menu are gone.  When Replace or Extra Time is granted, the seconds that
    were left on entering the menu, ten more for Extra Time, are counted from
    the next reading of the clock. *)
Theorem lifeline_menu_deadline (st st' : Quiz) (t : tick) (w w' : World) :
  lifelineMenu st w = Done (st', t) w' ->
  let rem := seconds_left st (clock w (ticks w)) in
  (lif_replace st' = lif_replace st -> lif_extra st' = lif_extra st ->
   endTime st' = endTime st)
  /\ (lif_replace st = true -> lif_replace st' = false ->
      endTime st' = time_add (clock w (S (ticks w))) rem)
  /\ (lif_extra st = true -> lif_extra st' = false ->
      endTime st'
      = time_add (clock w (S (ticks w))) (int_add rem EXTRA_TIME_AMOUNT)).
Proof.
  unfold lifelineMenu, time_now.
  set (rem := seconds_left st (clock w (ticks w))).
  set (st1 := set_remainingSeconds _ _).
  set (w8 := print _ _).
  pose proof (clock_getIntInRange_from (stdin w8) 0 4 w8) as Hfr.
  fold (getIntInRange 0 4 w8) in Hfr.
  destruct (getIntInRange 0 4 w8) as [[li|] w9]; [|done].
  cbn [snd] in Hfr. destruct Hfr as (Hc9 & Ht9).
  change (clock w8) with (clock w) in Hc9.
  change (ticks w8) with (S (ticks w)) in Ht9.
  unfold lifelineChoice, time_now.
  destruct (li =? 0); [intros E; simplify_eq; cbn; split; [done|split; congruence]|].
  destruct (li =? 1).
  { destruct (negb (lif_5050 st1));
      [intros E; simplify_eq; cbn; split; [done|split; congruence]|].
    destruct (apply5050 _ _ _) as [[vis vcount] w10].
    intros E; simplify_eq; cbn; split; [done|split; congruence]. }
  destruct (li =? 2).
  { destruct (negb (lif_skip st1));
      intros E; simplify_eq; cbn; split; try done; split; congruence. }
  destruct (li =? 3).
  { destruct (lif_replace st1) eqn:Hrep; cbn [negb];
      [|intros E; simplify_eq; cbn; split; [done|split; congruence]].
    pose proof (clock_replace_search (length (allQ (set_lif_replace st1 false)))
                  (set_lif_replace st1 false) w9) as Hrs.
    destruct (replace_search _ _ w9) as [found w10]. cbn [snd] in Hrs.
    destruct Hrs as [Hc10 Ht10].
    intros E. simplify_eq.
    change (lif_replace st1) with (lif_replace st) in Hrep.
    destruct found as [cand|]; cbn; rewrite Hc10, Ht10, Hc9, Ht9, Hrep;
      (split; [done|split; [done|]]); subst st1; cbn; congruence. }
  destruct (li =? 4); [|intros E; simplify_eq; cbn; split; [done|split; congruence]].
  destruct (lif_extra st1) eqn:Hex; cbn [negb];
    [|intros E; simplify_eq; cbn; split; [done|split; congruence]].
  destruct (remainingSeconds st1 <=? 0);
    [intros E; simplify_eq; cbn; split; [done|split; congruence]|].
  intros E. simplify_eq.
  change (lif_extra st1) with (lif_extra st) in Hex.
  cbn. rewrite Hc9, Ht9, Hex. split; [done|]. split; [|done].
  subst st1. cbn. congruence.
Qed.

Lemma lifeline_menu_deadline_witness :
  exists st' t w',
    lifelineMenu lone_quiz (set_stdin idle_world [lit "0"]) = Done (st', t) w'
    /\ (lif_replace st' = lif_replace lone_quiz -> lif_extra st' = lif_extra lone_quiz ->
        endTime st' = endTime lone_quiz).
Proof.
  eexists _, _, _. split; [vm_compute; reflexivity|].
  eapply proj1, (lifeline_menu_deadline lone_quiz _ _ (set_stdin idle_world [lit "0"])).
  vm_compute. reflexivity.
Defined.
